(** * Civic issue reporting backend: the issue controller and the issue schema

    A shallow embedding of the request handlers of class [IssueController]
    ([getAllIssues], [getAllIssuesFull], [createIssue], [getIssueById],
    [assignIssue], [updateIssueStatus], [voteOnIssue]), of the standalone
    helper [calculateEstimatedResolutionTime] and of the Mongoose schema of
    [models/Issue.js], followed by the properties of the specification that
    concern them.

    Conventions of the embedding:
    - a JavaScript string is the sequence of its UTF-16 code units, and the
      model has the code units below 256: an [ascii] is the character of
      that code, so ["160"] is the no-break space U+00A0 and the length of
      a string is its number of characters;
    - a JavaScript number that the code only uses as an integer is a [Z];
      a number that may carry a fraction is a [Q]; the result of
      [parseInt] is a [JS.number], an integer that is a double, [NaN] or
      an infinity; elsewhere [NaN] is [None];
    - a [Date] is its number of milliseconds since the epoch;
    - an [ObjectId] of a user is the string [toString()] gives, the
      [ObjectId] of an issue is a natural number;
    - the collection of issues is the list of its documents in insertion
      order; a request handler is a function from the request and the
      collection to the response and the new collection;
    - every [new Date()] of one request reads the same instant [now].

    Left out: the users collection ([populate] only decorates the answer),
    the [updatedAt] stamp that [save] maintains, the upload of images, the
    events emitted on the socket, strings with a character from U+0100
    on, and requests in which [status], [department] or [comment] is
    present and is not a string. *)

From Stdlib Require Import ZArith QArith Qround Lia List String Ascii.
From Stdlib Require Import DecimalString DecimalNat.
From stdpp Require Import gmap strings list sorting.

Local Open Scope string_scope.
Local Open Scope Z_scope.

(** ** JavaScript primitives used by the controller *)

Module JS.

(** [if (s)] on a value that is either [undefined] or a string. *)
Definition truthy (v : option string) : bool :=
  match v with
  | None => false
  | Some s => negb (String.eqb s "")
  end.

(** [a || b] on such values. *)
Definition or_else (v : option string) (d : string) : string :=
  match v with
  | Some s => if String.eqb s "" then d else s
  | None => d
  end.

(** White space and line terminators, which [parseInt] and [trim] skip:
    of the characters below U+0100 these are U+0009 to U+000D, the space
    U+0020 and the no-break space U+00A0. *)
Definition is_space (c : ascii) : bool :=
  let n := nat_of_ascii c in
  (Nat.eqb n 32 || Nat.leb 9 n && Nat.leb n 13 || Nat.eqb n 160)%bool.

Fixpoint skip_spaces (s : string) : string :=
  match s with
  | String c r => if is_space c then skip_spaces r else s
  | EmptyString => s
  end.

(** Value of [c] as a digit in [radix], if it is one. *)
Definition digit_of (radix : Z) (c : ascii) : option Z :=
  let n := Z.of_nat (nat_of_ascii c) in
  let d :=
    if (48 <=? n) && (n <=? 57) then Some (n - 48)
    else if (97 <=? n) && (n <=? 122) then Some (n - 87)
    else if (65 <=? n) && (n <=? 90) then Some (n - 55)
    else None in
  match d with
  | Some v => if v <? radix then Some v else None
  | None => None
  end.

(** Longest prefix of digits, read from the left; [acc] is [None] until a
    first digit is seen. *)
Fixpoint read_digits (radix : Z) (acc : option Z) (s : string) : option Z :=
  match s with
  | EmptyString => acc
  | String c r =>
      match digit_of radix c with
      | Some d =>
          read_digits radix
            (Some (match acc with Some a => a * radix + d | None => d end)) r
      | None => acc
      end
  end.

Definition strip_hex (s : string) : option string :=
  match s with
  | String "0" (String "x" r) => Some r
  | String "0" (String "X" r) => Some r
  | _ => None
  end.

(** A number whose value is an integer, [NaN], or an infinity. *)
Inductive number :=
| NaN
| Int (z : Z)
| Infinity (negative : bool).

(** The double nearest to a natural number: the 53 leading bits, rounded
    to nearest, a tie going to the even one. *)
Definition nearest_double (n : Z) : Z :=
  let e := Z.log2 n - 52 in
  if e <=? 0 then n
  else
    let q := Z.shiftr n e in
    let r := n - Z.shiftl q e in
    let half := Z.shiftl 1 (e - 1) in
    let q' := if (half <? r) || ((r =? half) && Z.odd q) then q + 1 else q in
    Z.shiftl q' e.

(** The number an integer is stored as; from [2^1024 - 2^970] on it is an
    infinity. *)
Definition to_number (n : Z) : number :=
  let m := nearest_double (Z.abs n) in
  if 2 ^ 1024 <=? m then Infinity (n <? 0) else Int (Z.sgn n * m).

(** [parseInt(s)] without a radix argument. *)
Definition parseInt (s : string) : number :=
  let s1 := skip_spaces s in
  let '(sign, s2) :=
    match s1 with
    | String "-" r => (-1, r)
    | String "+" r => (1, r)
    | _ => (1, s1)
    end in
  let m :=
    match strip_hex s2 with
    | Some r => read_digits 16 None r
    | None => read_digits 10 None s2
    end in
  match m with
  | Some v => to_number (sign * v)
  | None => NaN
  end.

(** A query parameter after destructuring with a numeric default:
    the default number when the parameter is [undefined], the string
    otherwise. *)
Inductive value :=
| Num (n : Z)
| Str (s : string).

Definition with_default (d : Z) (v : option string) : value :=
  match v with
  | None => Num d
  | Some s => Str s
  end.

(** [parseInt(v)]: the argument is converted to a string first, which
    for the integer of a default is its decimal numeral. *)
Definition parseInt_value (v : value) : number :=
  match v with
  | Num n => Int n
  | Str s => parseInt s
  end.

(** The first digit of the decimal numeral of a positive integer. *)
Definition first_digit (n : Z) : Z :=
  match Pos.to_uint (Z.to_pos n) with
  | Decimal.D1 _ => 1 | Decimal.D2 _ => 2 | Decimal.D3 _ => 3
  | Decimal.D4 _ => 4 | Decimal.D5 _ => 5 | Decimal.D6 _ => 6
  | Decimal.D7 _ => 7 | Decimal.D8 _ => 8 | Decimal.D9 _ => 9
  | _ => 0
  end.

(** The digits that [Number::toString] writes for a double [z] of 10^21 or
    more: an [s] of [k] digits, [k] as small as possible, such that
    [s * 10^e] is stored as [z] for some [e]. The candidates for each [k]
    are the two multiples of [10^e] next to [z]; 17 digits always
    suffice. *)
Definition shortest_digits (z : Z) : Z :=
  let D := Z.of_nat (Decimal.nb_digits (Pos.to_uint (Z.to_pos z))) in
  let found :=
    List.flat_map (fun k =>
      List.flat_map (fun e =>
        List.filter (fun s =>
            (10 ^ (k - 1) <=? s) && (s <? 10 ^ k)
            && match to_number (s * 10 ^ e) with
               | Int v => v =? z
               | _ => false
               end)
          [z / 10 ^ e; z / 10 ^ e + 1])
        [D - k; D - k + 1])
      (List.map Z.of_nat (List.seq 1 17)) in
  List.hd z found.

(** [parseInt(x, 10)] of a number [x]: the number is converted to a
    string first. An integer below 10^21 is written as its decimal
    numeral; from 10^21 on the numeral is in exponent notation,
    [d.ddde+n], of which [parseInt] reads the first digit; ['Infinity']
    and ['NaN'] begin with no digit. *)
Definition parseInt_number (x : number) : number :=
  match x with
  | Int z =>
      if Z.abs z <? 10 ^ 21 then Int z
      else Int (Z.sgn z * first_digit (shortest_digits (Z.abs z)))
  | _ => NaN
  end.

(** [`${v}`] on a value that is either [undefined] or a string. *)
Definition template (v : option string) : string :=
  match v with
  | Some s => s
  | None => "undefined"
  end.

(** [v === s] on such a value. *)
Definition strict_eq (v : option string) (s : string) : bool :=
  match v with
  | Some t => String.eqb t s
  | None => false
  end.

(** [Math.round(x)]: the nearest integer, a tie going up. *)
Definition Math_round (x : Q) : Z := Qfloor (x + (1 # 2))%Q.

(** [s.trim()] *)
Fixpoint rev_string (acc s : string) : string :=
  match s with
  | EmptyString => acc
  | String c r => rev_string (String c acc) r
  end.

Definition trim (s : string) : string :=
  rev_string "" (skip_spaces (rev_string "" (skip_spaces s))).

End JS.

(** The decimal numeral of a natural number, and the strings that may
    follow a numeral without being read as part of it. *)
Definition decimal (n : nat) : string := NilEmpty.string_of_uint (Nat.to_uint n).

Definition ends_numeral (rest : string) : Prop :=
  match rest with
  | EmptyString => True
  | String c _ => JS.digit_of 10 c = None /\ c <> "x"%char /\ c <> "X"%char
  end.

(** ** The issue document ([models/Issue.js]) *)

Definition UserId := string.
Definition IssueId := nat.
Bind Scope nat_scope with IssueId.
Definition Date := Z.

(** [se_status] is [None] in an entry that was pushed without a status. *)
Record StatusEntry := {
  se_status : option string;
  se_updatedBy : option UserId;
  se_comment : string;
  se_timestamp : Date
}.

Record Notification := {
  n_message : string;
  n_type : string;
  n_timestamp : Date;
  n_read : bool
}.

Record Location := {
  coordinates : list Q;
  address : string;
  city : option string;
  state : option string;
  pincode : option string
}.

Record Assignment := {
  department : option string;
  official : option UserId
}.

Record ResolutionDetails := {
  resolvedBy : UserId;
  resolutionDate : Date;
  resolutionDescription : string;
  resolutionImages : list string
}.

(** A document of the collection. [status] is [None] where the stored
    document has no status. *)
Record Issue := {
  _id : IssueId;
  title : string;
  description : string;
  category : string;
  location : Location;
  images : list string;
  voiceNote : option string;
  reportedBy : UserId;
  assignedTo : option Assignment;
  status : option string;
  votes : Z;
  voters : list UserId;
  priority : string;
  priorityReasons : list string;
  priorityAuto : bool;
  statusHistory : list StatusEntry;
  notifications : list Notification;
  estimatedResolutionTime : Z;
  actualResolutionTime : option Z;
  resolutionDetails : option ResolutionDetails;
  createdAt : Date;
  mergedInto : option IssueId;
  duplicates : list IssueId;
  reporters : list UserId
}.

(** The [enum] lists of the schema. *)
Definition category_enum : list string :=
  [ "Roads & Infrastructure"; "Waste Management"; "Electricity";
    "Water Supply"; "Sewage & Drainage"; "Traffic & Transportation";
    "Public Safety"; "Parks & Recreation"; "Street Lighting";
    "Noise Pollution"; "Other" ].

Definition status_enum : list string :=
  [ "pending"; "acknowledged"; "assigned"; "in-progress"; "resolved";
    "rejected"; "closed" ].

Definition priority_enum : list string := [ "low"; "medium"; "high"; "urgent" ].

(** The fields a handler assigns to on a loaded document; every other field
    is carried over. *)
Definition mutate (i : Issue) (assignedTo' : option Assignment)
    (status' : option string) (votes' : Z) (voters' : list UserId)
    (statusHistory' : list StatusEntry) (notifications' : list Notification)
    (actualResolutionTime' : option Z)
    (resolutionDetails' : option ResolutionDetails) : Issue :=
  {| _id := _id i; title := title i; description := description i;
     category := category i; location := location i; images := images i;
     voiceNote := voiceNote i; reportedBy := reportedBy i;
     assignedTo := assignedTo'; status := status'; votes := votes';
     voters := voters'; priority := priority i;
     priorityReasons := priorityReasons i; priorityAuto := priorityAuto i;
     statusHistory := statusHistory'; notifications := notifications';
     estimatedResolutionTime := estimatedResolutionTime i;
     actualResolutionTime := actualResolutionTime';
     resolutionDetails := resolutionDetails'; createdAt := createdAt i;
     mergedInto := mergedInto i; duplicates := duplicates i;
     reporters := reporters i |}.

(** ** The collection and what a handler answers *)

Definition Store := list Issue.

Record User := {
  user_id : UserId;
  role : string
}.

Inductive Response (A : Type) :=
| Success (code : nat) (data : A)
| Failure (code : nat) (error : string).
Arguments Success {A} code data.
Arguments Failure {A} code error.

(** What Mongoose makes of a stored document when it loads it: a path
    the document lacks gets the default of the schema, which for [status]
    is 'pending'. The next [save] of the loaded document stores the
    default with it. *)
Definition hydrate (d : Issue) : Issue :=
  mutate d (assignedTo d) (Some (default "pending" (status d))) (votes d)
    (voters d) (statusHistory d) (notifications d) (actualResolutionTime d)
    (resolutionDetails d).

(** [Issue.findById(id)] *)
Definition findById (id : IssueId) (st : Store) : option Issue :=
  hydrate <$> List.find (fun i => Nat.eqb (_id i) id) st.

(** [issue.save()] of a loaded document: the stored document with that id
    is replaced. *)
Definition save (i : Issue) (st : Store) : Store :=
  List.map (fun d => if Nat.eqb (_id d) (_id i) then i else d) st.

(** The identifier a new document receives: one no stored document has. *)
Definition fresh_id (st : Store) : IssueId :=
  S (List.fold_right Nat.max 0%nat (List.map _id st)).

Definition is_government (u : option User) : bool :=
  match u with
  | Some u => String.eqb (role u) "government"
  | None => false
  end.

(** ** [calculateEstimatedResolutionTime] *)

(** What reading a key of an object literal gives: its own value, a member
    inherited from [Object.prototype], or [undefined]. *)
Inductive property :=
| Own (q : Q)
| Inherited
| Undefined.

Definition Object_prototype_keys : list string :=
  [ "constructor"; "__defineGetter__"; "__defineSetter__"; "hasOwnProperty";
    "__lookupGetter__"; "__lookupSetter__"; "isPrototypeOf";
    "propertyIsEnumerable"; "toString"; "valueOf"; "__proto__";
    "toLocaleString" ].

Fixpoint own_property (tbl : list (string * Q)) (k : string) : option Q :=
  match tbl with
  | [] => None
  | (k', v) :: r => if String.eqb k' k then Some v else own_property r k
  end.

Definition get_property (tbl : list (string * Q)) (k : string) : property :=
  match own_property tbl k with
  | Some v => Own v
  | None => if bool_decide (k ∈ Object_prototype_keys) then Inherited else Undefined
  end.

(** [p || d] as an operand of arithmetic: [None] when it is not a number. *)
Definition number_or (p : property) (d : Q) : option Q :=
  match p with
  | Own v => if Qeq_bool v 0 then Some d else Some v
  | Inherited => None
  | Undefined => Some d
  end.

Definition baseHours : list (string * Q) :=
  [ ("Roads & Infrastructure", 72); ("Waste Management", 24);
    ("Electricity", 48); ("Water Supply", 48); ("Sewage & Drainage", 48);
    ("Traffic & Transportation", 24); ("Public Safety", 12);
    ("Parks & Recreation", 72); ("Street Lighting", 24);
    ("Noise Pollution", 48); ("Other", 48) ]%Q.

Definition priorityMultiplier : list (string * Q) :=
  [ ("urgent", 1 # 4); ("high", 1 # 2); ("medium", 1); ("low", 3 # 2) ]%Q.

(** The property key an argument is converted to. *)
Definition key_of (v : option string) : string :=
  match v with
  | Some s => s
  | None => "undefined"
  end.

Definition calculateEstimatedResolutionTime (category priority : option string)
    : option Z :=
  let base := number_or (get_property baseHours (key_of category)) 48 in
  let multiplier := number_or (get_property priorityMultiplier (key_of priority)) 1 in
  match base, multiplier with
  | Some b, Some m => Some (JS.Math_round (b * m)%Q)
  | _, _ => None
  end.


Inductive PriorityTier := urgent | high | medium | low.

Definition tier_name (p : PriorityTier) : string :=
  match p with
  | urgent => "urgent"
  | high => "high"
  | medium => "medium"
  | low => "low"
  end.



(** ** [voteOnIssue] *)

(** The branch on [hasVoted]: the vote of [userId] is removed when the
    user is among the voters and added otherwise. *)
Definition toggle_vote (userId : UserId) (issue : Issue) : Issue :=
  let hasVoted := bool_decide (userId ∈ voters issue) in
  if hasVoted then
    mutate issue (assignedTo issue) (status issue)
      (Z.max 0 (votes issue - 1))
      (filter (fun id => id ≠ userId) (voters issue))
      (statusHistory issue) (notifications issue)
      (actualResolutionTime issue) (resolutionDetails issue)
  else
    mutate issue (assignedTo issue) (status issue)
      (votes issue + 1)
      (voters issue ++ [userId])
      (statusHistory issue) (notifications issue)
      (actualResolutionTime issue) (resolutionDetails issue).

Record VoteData := {
  vd_votes : Z;
  vd_hasVoted : bool
}.

Definition voteOnIssue (user : option User) (id : IssueId) (st : Store)
    : Response VoteData * Store :=
  match findById id st with
  | None => (Failure 404 "Issue not found", st)
  | Some issue =>
      match user with
      | None => (Failure 500 "Failed to vote on issue", st)
      | Some u =>
          let hasVoted := bool_decide (user_id u ∈ voters issue) in
          let issue' := toggle_vote (user_id u) issue in
          (Success 200 {| vd_votes := votes issue'; vd_hasVoted := negb hasVoted |},
           save issue' st)
      end
  end.

(** The voters as the set the data model speaks of. *)
Definition voters_set (i : Issue) : gset UserId := list_to_set (voters i).

(** ** [getIssueById] *)

Definition mark_read (n : Notification) : Notification :=
  {| n_message := n_message n; n_type := n_type n;
     n_timestamp := n_timestamp n; n_read := true |}.

Definition is_reporter (user : option User) (issue : Issue) : bool :=
  match user with
  | Some u => String.eqb (user_id u) (reportedBy issue)
  | None => false
  end.

(** [issue.notifications.forEach(notification => { notification.read = true })] *)
Definition notifications_read (issue : Issue) : Issue :=
  mutate issue (assignedTo issue) (status issue) (votes issue)
    (voters issue) (statusHistory issue)
    (List.map mark_read (notifications issue))
    (actualResolutionTime issue) (resolutionDetails issue).

Definition getIssueById (user : option User) (id : IssueId) (st : Store)
    : Response Issue * Store :=
  match findById id st with
  | None => (Failure 404 "Issue not found", st)
  | Some issue =>
      if is_reporter user issue then
        let issue' := notifications_read issue in
        (Success 200 issue', save issue' st)
      else (Success 200 issue, st)
  end.

(** ** [assignIssue] and [updateIssueStatus] *)

(** Validation of the [status] path, and of the [status] of a history
    entry, by its [enum] when a document is saved; the validator passes a
    path that is [undefined]. *)
Definition valid_status (s : option string) : bool :=
  match s with
  | Some s => bool_decide (s ∈ status_enum)
  | None => true
  end.

(** A body field that is to hold an [ObjectId]: falsy, truthy with the
    cast to [ObjectId] failing, or truthy with the cast giving [o]. *)
Inductive RawId :=
| NoId
| NotAnId
| AnId (o : UserId).

Definition id_truthy (r : RawId) : bool :=
  match r with
  | NoId => false
  | _ => true
  end.

(** The assignments [assignIssue] makes to the loaded document. *)
Definition assigned (now : Date) (u : User) (department : option string)
    (officialId : RawId) (comment : option string) (issue : Issue) : Issue :=
  let assignment :=
    {| department := department;
       official := match officialId with AnId o => Some o | _ => None end |} in
  let entry :=
    {| se_status := Some "assigned";
       se_updatedBy := Some (user_id u);
       se_comment :=
         JS.or_else comment
           ("Issue assigned to " +:+ JS.template department +:+ " department" +:+
            (if id_truthy officialId then " and specific official" else ""));
       se_timestamp := now |} in
  let note :=
    {| n_message :=
         "Your issue has been assigned to the " +:+ JS.template department
         +:+ " department";
       n_type := "assignment"; n_timestamp := now; n_read := false |} in
  mutate issue (Some assignment) (Some "assigned") (votes issue)
    (voters issue) (statusHistory issue ++ [entry])
    (notifications issue ++ [note])
    (actualResolutionTime issue) (resolutionDetails issue).

(** [assignIssue]; [save] fails where [officialId] is no [ObjectId]. *)
Definition assignIssue (now : Date) (user : option User) (id : IssueId)
    (department : option string) (officialId : RawId) (comment : option string)
    (st : Store) : Response Issue * Store :=
  match user with
  | None => (Failure 500 "Failed to assign issue", st)
  | Some u =>
      if negb (String.eqb (role u) "government") then
        (Failure 403 "Access denied. Government officials only.", st)
      else
        match findById id st with
        | None => (Failure 404 "Issue not found", st)
        | Some issue =>
            let issue' := assigned now u department officialId comment issue in
            match officialId with
            | NotAnId => (Failure 500 "Failed to assign issue", st)
            | _ => (Success 200 issue', save issue' st)
            end
        end
  end.

Record ResolutionInput := {
  ri_description : option string;
  ri_images : option (list string)
}.

Definition hour_ms : positive := 3600000.   (* 1000 * 60 * 60 *)

(** [Math.round((resolvedAt - createdAt) / (1000 * 60 * 60))] *)
Definition resolutionTimeHours (createdAt resolvedAt : Date) : Z :=
  JS.Math_round ((resolvedAt - createdAt) # hour_ms).

(** The assignments [updateIssueStatus] makes to the loaded document;
    [status'] is [None] when the body has no status. *)
Definition status_updated (now : Date) (u : User) (status' : option string)
    (comment : option string) (resolutionInput : option ResolutionInput)
    (issue : Issue) : Issue :=
  let oldStatus := status issue in
  let entry :=
    {| se_status := status';
       se_updatedBy := Some (user_id u);
       se_comment :=
         JS.or_else comment
           ("Status changed from " +:+ JS.template oldStatus +:+ " to "
            +:+ JS.template status');
       se_timestamp := now |} in
  let history := (statusHistory issue ++ [entry])%list in
  if JS.strict_eq status' "resolved" then
    let createdAt := createdAt issue in
    let resolvedAt := now in
    let details :=
      {| resolvedBy := user_id u;
         resolutionDate := resolvedAt;
         resolutionDescription :=
           JS.or_else (resolutionInput ≫= ri_description)
             "Issue has been resolved";
         resolutionImages := default [] (resolutionInput ≫= ri_images) |} in
    let note :=
      {| n_message := "Your issue has been resolved! Thank you for reporting.";
         n_type := "resolution"; n_timestamp := now; n_read := false |} in
    mutate issue (assignedTo issue) status' (votes issue)
      (voters issue) history (notifications issue ++ [note])
      (Some (resolutionTimeHours createdAt resolvedAt))
      (Some details)
  else
    let note :=
      {| n_message :=
           "Your issue status has been updated to: " +:+ JS.template status';
         n_type := "status_change"; n_timestamp := now; n_read := false |} in
    mutate issue (assignedTo issue) status' (votes issue)
      (voters issue) history (notifications issue ++ [note])
      (actualResolutionTime issue) (resolutionDetails issue).

Definition updateIssueStatus (now : Date) (user : option User) (id : IssueId)
    (status' : option string) (comment : option string)
    (resolutionInput : option ResolutionInput) (st : Store)
    : Response Issue * Store :=
  match user with
  | None => (Failure 500 "Failed to update issue status", st)
  | Some u =>
      if negb (String.eqb (role u) "government") then
        (Failure 403 "Access denied. Government officials only.", st)
      else
        match findById id st with
        | None => (Failure 404 "Issue not found", st)
        | Some issue =>
            let issue' := status_updated now u status' comment resolutionInput issue in
            if valid_status status' then (Success 200 issue', save issue' st)
            else (Failure 500 "Failed to update issue status", st)
        end
  end.

(** ** [createIssue] *)

(** A body field holding a number or a numeral: falsy, truthy with
    [parseFloat] giving [NaN], or truthy with [parseFloat] giving a number. *)
Inductive RawNumber :=
| Falsy
| NotANumber
| Parsed (q : Q).

(** [a || b] *)
Definition raw_or (a b : RawNumber) : RawNumber :=
  match a with
  | Falsy => b
  | _ => a
  end.

(** The location object of a request. [ld_coordinates] is [None] when the
    member is missing or is not an array. *)
Record LocationData := {
  ld_coordinates : option (list Q);
  ld_address : option string;
  ld_city : option string;
  ld_state : option string;
  ld_pincode : option string;
  ld_lat : RawNumber;
  ld_lng : RawNumber
}.

Inductive BodyLocation :=
| LocAbsent
| LocString (s : string)
| LocObject (d : LocationData).

Record CreateRequest := {
  rq_user : option User;
  rq_validationErrors : list string;     (* validationResult(req).array() *)
  rq_title : option string;
  rq_description : option string;
  rq_category : option string;
  rq_location : BodyLocation;
  rq_priority : option string;
  rq_images : list string;               (* the URLs the upload step yields *)
  rq_latitude : RawNumber;
  rq_lat : RawNumber;
  rq_longitude : RawNumber;
  rq_lng : RawNumber;
  rq_long : RawNumber
}.

Definition starts_with_brace (s : string) : bool :=
  match s with
  | String "{" _ => true
  | _ => false
  end.

Definition with_coordinates (d : LocationData) (c : list Q) : LocationData :=
  {| ld_coordinates := Some c; ld_address := ld_address d;
     ld_city := ld_city d; ld_state := ld_state d; ld_pincode := ld_pincode d;
     ld_lat := ld_lat d; ld_lng := ld_lng d |}.

(** Coordinates taken from separate latitude and longitude fields when the
    location object carries no coordinate array. *)
Definition derive_coordinates (rawLat rawLng : RawNumber) (d : LocationData)
    : LocationData :=
  match ld_coordinates d with
  | Some _ => d
  | None =>
      match rawLat, rawLng with
      | Falsy, _ | _, Falsy =>
          match ld_lat d, ld_lng d with
          | Parsed latNum, Parsed lngNum => with_coordinates d [lngNum; latNum]
          | _, _ => d
          end
      | Parsed latNum, Parsed lngNum => with_coordinates d [lngNum; latNum]
      | _, _ => d
      end
  end.

(** Validation of a new document against the schema: required and
    trimmed [title] and [description], required [reportedBy], [category]
    and [priority] in their [enum], a numeric [estimatedResolutionTime]. *)
Definition schema_valid (title description category : option string)
    (reportedBy priority : string) (estimatedTime : option Z) : bool :=
  negb (String.eqb (JS.trim (default "" title)) "")
  && negb (String.eqb reportedBy "")
  && negb (String.eqb (JS.trim (default "" description)) "")
  && bool_decide (default "" category ∈ category_enum)
  && bool_decide (priority ∈ priority_enum)
  && bool_decide (is_Some estimatedTime).

(** The [2dsphere] index accepts a point whose longitude and latitude are
    in range. *)
Definition geo_valid (c : list Q) : bool :=
  match c with
  | [lng; lat] =>
      Qle_bool (-180) lng && Qle_bool lng 180
      && Qle_bool (-90) lat && Qle_bool lat 90
  | _ => false
  end.

(** The [pre('save')] hook of the schema on a new document: the first
    reporter is added to [reporters] unless already there. *)
Definition pre_save_reporters (reportedBy : UserId) (reporters : list UserId)
    : list UserId :=
  if negb (String.eqb reportedBy "") && negb (bool_decide (reportedBy ∈ reporters))
  then (reporters ++ [reportedBy])%list
  else reporters.

Section CreateIssue.

(** [JSON.parse] on the location string; [None] when it throws. *)
Variable JSON_parse : string -> option LocationData.

Definition parse_location (l : BodyLocation) : Response (option LocationData) :=
  match l with
  | LocAbsent => Success 200 None
  | LocString s =>
      if String.eqb s "" then Success 200 None
      else if starts_with_brace (JS.trim s) then
        match JSON_parse s with
        | Some d => Success 200 (Some d)
        | None => Failure 400 "Invalid location format"
        end
      else
        Success 200
          (Some {| ld_coordinates := None; ld_address := Some (JS.trim s);
                   ld_city := None; ld_state := None; ld_pincode := None;
                   ld_lat := Falsy; ld_lng := Falsy |})
  | LocObject d => Success 200 (Some d)
  end.

Definition createIssue (now : Date) (req : CreateRequest) (st : Store)
    : Response Issue * Store :=
  if negb (bool_decide (rq_validationErrors req = [])) then
    (Failure 400 "Validation errors", st)
  else
    let priority := default "low" (rq_priority req) in
    match parse_location (rq_location req) with
    | Failure c m => (Failure c m, st)
    | Success _ parsed =>
        let rawLat := raw_or (rq_latitude req) (rq_lat req) in
        let rawLng := raw_or (rq_longitude req) (raw_or (rq_lng req) (rq_long req)) in
        let locationData := derive_coordinates rawLat rawLng <$> parsed in
        match locationData with
        | Some {| ld_coordinates := Some [lng; lat];
                  ld_address := addr; ld_city := c; ld_state := s;
                  ld_pincode := p |} =>
            let address := JS.or_else addr "Address not specified" in
            let estimatedTime :=
              calculateEstimatedResolutionTime (rq_category req) (Some priority) in
            match rq_user req with
            | None => (Failure 500 "Failed to report issue", st)
            | Some u =>
                if negb (schema_valid (rq_title req) (rq_description req)
                           (rq_category req) (user_id u) priority
                           estimatedTime) then
                  (Failure 400 "Validation failed", st)
                else if negb (geo_valid [lng; lat]) then
                  (Failure 500 "Database save failed", st)
                else
                  let issue :=
                    {| _id := fresh_id st;
                       title := JS.trim (default "" (rq_title req));
                       description := JS.trim (default "" (rq_description req));
                       category := default "" (rq_category req);
                       location :=
                         {| coordinates := [lng; lat]; address := address;
                            city := c; state := s; pincode := p |};
                       images := rq_images req;
                       voiceNote := None;
                       reportedBy := user_id u;
                       assignedTo := None;
                       status := Some "pending";
                       votes := 0;
                       voters := [];
                       priority := priority;
                       priorityReasons := [];
                       priorityAuto := true;
                       statusHistory :=
                         [ {| se_status := Some "pending"; se_updatedBy := None;
                              se_comment := "Issue reported by citizen";
                              se_timestamp := now |} ];
                       notifications :=
                         [ {| n_message :=
                                "Your issue has been successfully reported and is under review";
                              n_type := "status_change"; n_timestamp := now;
                              n_read := false |} ];
                       estimatedResolutionTime := default 0 estimatedTime;
                       actualResolutionTime := None;
                       resolutionDetails := None;
                       createdAt := now;
                       mergedInto := None;
                       duplicates := [];
                       reporters := pre_save_reporters (user_id u) [] |} in
                  (Success 201 issue, (st ++ [issue])%list)
            end
        | _ => (Failure 400 "Location coordinates required (lng,lat)", st)
        end
    end.

End CreateIssue.

(** ** The listings: [getAllIssues] and [getAllIssuesFull] *)

Record ListQuery := {
  q_status : option string;
  q_category : option string;
  q_priority : option string;
  q_assignedTo : option string;
  q_reportedBy : option string;
  q_location : option string;
  q_page : option string;
  q_limit : option string;
  q_sortBy : option string;
  q_sortOrder : option string;
  q_search : option string;
  q_dateFrom : option string;
  q_dateTo : option string
}.

(** The filter object as the handler builds it; a member is [None] when
    the handler does not set it. *)
Record Filter := {
  f_status : option string;
  f_category : option string;
  f_priority : option string;
  f_assignedTo_official : option string;
  f_reportedBy : option string;
  f_createdAt_gte : option string;            (* new Date(dateFrom) *)
  f_createdAt_lte : option string;            (* new Date(dateTo) *)
  f_or_regex : option string;                 (* $or over four fields *)
  f_near : option (string * string * JS.number) (* lng, lat, $maxDistance *)
}.

Record Options := {
  o_page : JS.number;
  o_limit : JS.number;
  o_sortBy : string;
  o_descending : bool
}.

Definition keep (v : option string) : option string :=
  if JS.truthy v then v else None.

Fixpoint split_on (sep : ascii) (cur : string) (s : string) : list string :=
  match s with
  | EmptyString => [JS.rev_string "" cur]
  | String c r =>
      if Ascii.eqb c sep then JS.rev_string "" cur :: split_on sep "" r
      else split_on sep (String c cur) r
  end.

(** [location.split(',')] *)
Definition split_comma (s : string) : list string := split_on "," "" s.

(** [parseInt(radius) || 5000]; a missing radius is read as the string
    ['undefined']. *)
Definition maxDistance (radius : option string) : JS.number :=
  match JS.parseInt (JS.template radius) with
  | JS.NaN => JS.Int 5000
  | JS.Int r => if r =? 0 then JS.Int 5000 else JS.Int r
  | JS.Infinity negative => JS.Infinity negative
  end.

Definition near_clause (location : option string)
    : option (string * string * JS.number) :=
  match keep location with
  | None => None
  | Some l =>
      let parts := split_comma l in
      let lng := parts !! 0%nat in
      let lat := parts !! 1%nat in
      let radius := parts !! 2%nat in
      match keep lng, keep lat with
      | Some lng, Some lat => Some (lng, lat, maxDistance radius)
      | _, _ => None
      end
  end.

Definition build_filter (q : ListQuery) : Filter :=
  {| f_status := keep (q_status q);
     f_category := keep (q_category q);
     f_priority := keep (q_priority q);
     f_assignedTo_official := keep (q_assignedTo q);
     f_reportedBy := keep (q_reportedBy q);
     f_createdAt_gte := keep (q_dateFrom q);
     f_createdAt_lte := keep (q_dateTo q);
     f_or_regex := keep (q_search q);
     f_near := near_clause (q_location q) |}.



Definition build_options (q : ListQuery) : Options :=
  {| o_page := JS.parseInt_value (JS.with_default 1 (q_page q));
     o_limit := JS.parseInt_value (JS.with_default 10 (q_limit q));
     o_sortBy := default "createdAt" (q_sortBy q);
     o_descending := String.eqb (default "desc" (q_sortOrder q)) "desc" |}.

(** What the query layer of the database decides; the handlers only hand
    it the clauses. The first four members say which values it takes: the
    cast of the filter refuses a string that is no [ObjectId] and a date
    that is none, and the database a pattern it cannot compile and a
    point that is none; the query then fails. *)
Record QueryLayer := {
  is_ObjectId : string -> bool;
  is_date : string -> bool;                    (* new Date(raw) is a date *)
  is_regex : string -> bool;
  is_point : string -> string -> JS.number -> bool;
  regex_i : string -> string -> bool;          (* pattern, text; option 'i' *)
  date_gte : string -> Date -> bool;           (* {$gte: new Date(raw)} *)
  date_lte : string -> Date -> bool;           (* {$lte: new Date(raw)} *)
  near : string -> string -> JS.number -> list Q -> bool;
  field_key : string -> Issue -> Z             (* sort key of other fields *)
}.

Definition eq_clause (c : option string) (v : string) : bool :=
  match c with
  | None => true
  | Some s => String.eqb s v
  end.

(** The same for a path the document may lack: a clause is not met by a
    document without the path. *)
Definition eq_clause_path (c : option string) (v : option string) : bool :=
  match c with
  | None => true
  | Some s => JS.strict_eq v s
  end.

Definition opt_clause {A} (c : option A) (test : A -> bool) : bool :=
  match c with
  | None => true
  | Some a => test a
  end.

(** Whether the query layer takes the filter. *)
Definition accepted (ql : QueryLayer) (f : Filter) : bool :=
  opt_clause (f_assignedTo_official f) (is_ObjectId ql)
  && opt_clause (f_reportedBy f) (is_ObjectId ql)
  && opt_clause (f_createdAt_gte f) (is_date ql)
  && opt_clause (f_createdAt_lte f) (is_date ql)
  && opt_clause (f_or_regex f) (is_regex ql)
  && opt_clause (f_near f) (fun '(lng, lat, d) => is_point ql lng lat d).

Definition matches (ql : QueryLayer) (f : Filter) (i : Issue) : bool :=
  eq_clause_path (f_status f) (status i)
  && eq_clause (f_category f) (category i)
  && eq_clause (f_priority f) (priority i)
  && opt_clause (f_assignedTo_official f)
       (fun s => bool_decide (assignedTo i ≫= official = Some s))
  && eq_clause (f_reportedBy f) (reportedBy i)
  && opt_clause (f_createdAt_gte f) (fun r => date_gte ql r (createdAt i))
  && opt_clause (f_createdAt_lte f) (fun r => date_lte ql r (createdAt i))
  && opt_clause (f_or_regex f)
       (fun s => regex_i ql s (title i) || regex_i ql s (description i)
                 || regex_i ql s (address (location i))
                 || regex_i ql s (category i))
  && opt_clause (f_near f)
       (fun '(lng, lat, d) => near ql lng lat d (coordinates (location i))).

Definition sort_key (ql : QueryLayer) (sortBy : string) (i : Issue) : Z :=
  if String.eqb sortBy "createdAt" then createdAt i
  else if String.eqb sortBy "votes" then votes i
  else field_key ql sortBy i.

Definition ascending (key : Issue -> Z) : relation Issue :=
  fun a b => key a ≤ key b.

Definition descending (key : Issue -> Z) : relation Issue :=
  fun a b => key b ≤ key a.

#[global] Instance ascending_dec key : RelDecision (ascending key) :=
  fun a b => decide (key a ≤ key b).

#[global] Instance descending_dec key : RelDecision (descending key) :=
  fun a b => decide (key b ≤ key a).

(** [{ [sortBy]: -1 }] and [{ [sortBy]: 1 }]; documents with equal keys
    keep their order. *)
Definition sort_by (key : Issue -> Z) (desc : bool) (l : list Issue)
    : list Issue :=
  if desc then merge_sort (descending key) l
  else merge_sort (ascending key) l.

Record Page := {
  docs : list Issue;
  totalDocs : nat;
  page : JS.number;
  totalPages : Z;
  limit : Z
}.

(** The page size of the pagination plugin ([mongoose-paginate-v2]): 10
    unless [options.limit] is a number; a number is read again with
    [parseInt(options.limit, 10)] and counts as 0 unless it is above 0. *)
Definition plugin_limit (l : JS.number) : Z :=
  match l with
  | JS.NaN => 10
  | _ =>
      match JS.parseInt_number l with
      | JS.Int z => if 0 <? z then z else 0
      | _ => 0
      end
  end.

(** Its page number: [parseInt(options.page, 10)], and 1 where that is
    below 1; it stays [NaN] where it is [NaN]. *)
Definition plugin_page (p : JS.number) : JS.number :=
  match JS.parseInt_number p with
  | JS.Int z => if z <? 1 then JS.Int 1 else JS.Int z
  | other => other
  end.

(** The number of documents the query skips, [(page - 1) * limit]; a skip
    of [NaN] skips nothing. (The product is computed exactly: where it is
    rounded, from 2^53 on, it is beyond the size of any collection.) *)
Definition plugin_skip (p : JS.number) (lim : Z) : Z :=
  match p with
  | JS.Int z => (z - 1) * lim
  | _ => 0
  end.

(** [Math.ceil(count / limit) || 1] *)
Definition plugin_pages (count : nat) (lim : Z) : Z :=
  let pages := (Z.of_nat count + lim - 1) / lim in
  if pages =? 0 then 1 else pages.

(** [Issue.paginate(filter, options)] with [page] and [limit] among the
    options: the matching documents in sort order, [limit] of them from
    the position to skip to, as Mongoose loads them; with a limit of 0 the
    plugin runs no query for the documents. *)
Definition paginate (ql : QueryLayer) (f : Filter) (o : Options) (st : Store)
    : Page :=
  let lim := plugin_limit (o_limit o) in
  let pg := plugin_page (o_page o) in
  let found := List.filter (matches ql f) st in
  let sorted := sort_by (sort_key ql (o_sortBy o)) (o_descending o) found in
  if lim =? 0 then
    {| docs := []; totalDocs := length found; page := JS.Int 1;
       totalPages := 1; limit := 0 |}
  else
    {| docs :=
         List.map hydrate
           (take (Z.to_nat lim) (drop (Z.to_nat (plugin_skip pg lim)) sorted));
       totalDocs := length found;
       page := pg;
       totalPages := plugin_pages (length found) lim;
       limit := lim |}.

(** [getAllIssues] *)
Definition getAllIssues (ql : QueryLayer) (user : option User) (q : ListQuery)
    (st : Store) : Response Page :=
  if negb (is_government user) then Failure 403 "Forbidden"
  else
    let f := build_filter q in
    let o := build_options q in
    if negb (accepted ql f) then Failure 500 "Failed to fetch issues"
    else Success 200 (paginate ql f o st).

Record Summary := {
  s_id : IssueId;
  s_title : string;
  s_description : string;
  s_category : string;
  s_priority : string;
  s_status : option string;
  s_reporter : UserId;
  s_address : string;
  s_date : Date;
  s_votes : Z
}.

Definition summary (doc : Issue) : Summary :=
  {| s_id := _id doc; s_title := title doc; s_description := description doc;
     s_category := category doc; s_priority := priority doc;
     s_status := status doc; s_reporter := reportedBy doc;
     s_address := address (location doc); s_date := createdAt doc;
     s_votes := votes doc |}.

(** [getAllIssuesFull]: [Issue.find({})] sorted by [createdAt] descending,
    each document mapped to its summary. *)
Definition getAllIssuesFull (user : option User) (st : Store)
    : Response (list Summary) :=
  if negb (is_government user) then Failure 403 "Forbidden"
  else Success 200 (List.map summary (sort_by createdAt true st)).

(** ** Sequences of requests *)

Inductive Request :=
| ReqCreate (now : Date) (req : CreateRequest)
| ReqRead (user : option User) (id : IssueId)
| ReqAssign (now : Date) (user : option User) (id : IssueId)
    (department : option string) (officialId : RawId) (comment : option string)
| ReqUpdateStatus (now : Date) (user : option User) (id : IssueId)
    (status' : option string) (comment : option string)
    (resolutionInput : option ResolutionInput)
| ReqVote (user : option User) (id : IssueId).

(** The collection after a request has been served. *)
Definition serve (JSON_parse : string -> option LocationData) (r : Request)
    (st : Store) : Store :=
  match r with
  | ReqCreate now req => (createIssue JSON_parse now req st).2
  | ReqRead user id => (getIssueById user id st).2
  | ReqAssign now user id department officialId comment =>
      (assignIssue now user id department officialId comment st).2
  | ReqUpdateStatus now user id status' comment resolutionInput =>
      (updateIssueStatus now user id status' comment resolutionInput st).2
  | ReqVote user id => (voteOnIssue user id st).2
  end.

Definition run (JSON_parse : string -> option LocationData)
    (rs : list Request) (st : Store) : Store :=
  fold_left (fun st r => serve JSON_parse r st) rs st.

(** What one request may have done to a stored issue, as [findById]
    gives it before and after. *)
Inductive issue_step : Issue -> Issue -> Prop :=
| step_none i : issue_step i i
| step_vote u i : issue_step i (toggle_vote u i)
| step_read i : issue_step i (notifications_read i)
| step_assign now u department officialId comment i :
    officialId <> NotAnId ->
    issue_step i (assigned now u department officialId comment i)
| step_status now u status' comment resolutionInput i :
    valid_status status' = true ->
    issue_step i (hydrate (status_updated now u status' comment resolutionInput i)).

(** The same for a request that carries a status where it updates the
    status. *)
Inductive sent_step : Issue -> Issue -> Prop :=
| sent_none i : sent_step i i
| sent_vote u i : sent_step i (toggle_vote u i)
| sent_read i : sent_step i (notifications_read i)
| sent_assign now u department officialId comment i :
    officialId <> NotAnId ->
    sent_step i (assigned now u department officialId comment i)
| sent_status now u s comment resolutionInput i :
    s ∈ status_enum ->
    sent_step i (status_updated now u (Some s) comment resolutionInput i).

(** A request that is no status update without a status. *)
Definition carries_status (r : Request) : Prop :=
  match r with
  | ReqUpdateStatus _ _ _ None _ _ => False
  | _ => True
  end.

(** The invariants of the data model that the properties speak of. *)
Definition votes_consistent (i : Issue) : Prop :=
  votes i = Z.of_nat (size (voters_set i)).

Definition history_consistent (i : Issue) : Prop :=
  (1 <= length (statusHistory i))%nat
  /\ se_status <$> last (statusHistory i) = Some (status i).

(** A draft that passes the validation of the schema, for the user who
    files it. *)
Definition well_formed_draft (req : CreateRequest) (u : User) : Prop :=
  JS.trim (default "" (rq_title req)) <> ""
  /\ JS.trim (default "" (rq_description req)) <> ""
  /\ user_id u <> ""
  /\ default "" (rq_category req) ∈ category_enum
  /\ default "low" (rq_priority req) ∈ priority_enum.

(** [mergedInto] is assigned nowhere in the controllers; this is the
    document of a report once it has been merged into [canonical]. *)
Definition merged_into (canonical : IssueId) (i : Issue) : Issue :=
  {| _id := _id i; title := title i; description := description i;
     category := category i; location := location i; images := images i;
     voiceNote := voiceNote i; reportedBy := reportedBy i;
     assignedTo := assignedTo i; status := status i; votes := votes i;
     voters := voters i; priority := priority i;
     priorityReasons := priorityReasons i; priorityAuto := priorityAuto i;
     statusHistory := statusHistory i; notifications := notifications i;
     estimatedResolutionTime := estimatedResolutionTime i;
     actualResolutionTime := actualResolutionTime i;
     resolutionDetails := resolutionDetails i; createdAt := createdAt i;
     mergedInto := Some canonical; duplicates := duplicates i;
     reporters := reporters i |}.

(** ** Sample data *)

Module Sample.

Definition no_json : string -> option LocationData := fun _ => None.

Definition citizen : User := {| user_id := "u1"; role := "citizen" |}.
Definition neighbour : User := {| user_id := "u2"; role := "citizen" |}.
Definition officer : User := {| user_id := "g1"; role := "government" |}.

(** Coordinates and nothing else. *)
Definition crossing : LocationData :=
  {| ld_coordinates := Some [77209 # 1000; 28614 # 1000]%Q;
     ld_address := None; ld_city := None; ld_state := None;
     ld_pincode := None; ld_lat := Falsy; ld_lng := Falsy |}.

Definition pothole (u : User) : CreateRequest :=
  {| rq_user := Some u; rq_validationErrors := [];
     rq_title := Some "Pothole";
     rq_description := Some "Deep pothole at the crossing";
     rq_category := Some "Roads & Infrastructure";
     rq_location := LocObject crossing;
     rq_priority := None; rq_images := [];
     rq_latitude := Falsy; rq_lat := Falsy; rq_longitude := Falsy;
     rq_lng := Falsy; rq_long := Falsy |}.

(** The collection after [citizen] has reported the pothole at instant
    1000. *)
Definition one_report : Store := (createIssue no_json 1000 (pothole citizen) []).2.

(** The collection after [neighbour] has reported it again at instant
    2000. *)
Definition two_reports : Store :=
  (createIssue no_json 2000 (pothole neighbour) one_report).2.

(** The same two documents, the second one merged into the first. *)
Definition merged_reports : Store :=
  match two_reports with
  | [first; second] => [first; merged_into (_id first) second]
  | other => other
  end.

Definition no_query : ListQuery :=
  {| q_status := None; q_category := None; q_priority := None;
     q_assignedTo := None; q_reportedBy := None; q_location := None;
     q_page := None; q_limit := None; q_sortBy := None;
     q_sortOrder := None; q_search := None; q_dateFrom := None;
     q_dateTo := None |}.

Definition paged (pg lim : option string) : ListQuery :=
  {| q_status := None; q_category := None; q_priority := None;
     q_assignedTo := None; q_reportedBy := None; q_location := None;
     q_page := pg; q_limit := lim; q_sortBy := None;
     q_sortOrder := None; q_search := None; q_dateFrom := None;
     q_dateTo := None |}.

(** Three votes on the first report. *)
Definition ballots : list Request :=
  [ ReqVote (Some neighbour) 1; ReqVote (Some citizen) 1;
    ReqVote (Some neighbour) 1 ].

(** An assignment, a status update, and an update to a status the schema
    does not know. *)
Definition triage : list Request :=
  [ ReqAssign 5000 (Some officer) 1 (Some "Roads") NoId None;
    ReqUpdateStatus 9000 (Some officer) 1 (Some "in-progress") None None;
    ReqUpdateStatus 9500 (Some officer) 1 (Some "done") None None ].

End Sample.

(** ** The issue a request addresses *)

Definition target (r : Request) : option IssueId :=
  match r with
  | ReqCreate _ _ => None
  | ReqRead _ id => Some id
  | ReqAssign _ _ id _ _ _ => Some id
  | ReqUpdateStatus _ _ id _ _ _ => Some id
  | ReqVote _ id => Some id
  end.

(** ** The [pre('save')] hook of the schema *)

(** The hook acts on a new document only. *)
Definition pre_save (isNew : bool) (reportedBy : UserId)
    (reporters : list UserId) : list UserId :=
  if isNew then pre_save_reporters reportedBy reporters else reporters.

(** ** Aggregation pipelines *)

Section Group.

Context {K : Type} `{EqDecision K}.

Fixpoint add_to_group (k : K) (d : Issue) (rows : list (K * list Issue))
    : list (K * list Issue) :=
  match rows with
  | [] => [(k, [d])]
  | (k', ds) :: r =>
      if decide (k' = k) then (k', (ds ++ [d])%list) :: r
      else (k', ds) :: add_to_group k d r
  end.

(** [{ $group: { _id: key, ... } }]: one row for each value of the key,
    holding the documents that have it. *)
Definition group_by (key : Issue -> K) (l : list Issue) : list (K * list Issue) :=
  fold_left (fun rows d => add_to_group (key d) d rows) l [].

(** [count: { $sum: 1 }] *)
Definition group_count (key : Issue -> K) (l : list Issue) : list (K * nat) :=
  (fun row => (row.1, length row.2)) <$> group_by key l.

End Group.

(** [{ $sum: '$votes' }] and [{ $avg: '$votes' }] over a group. *)
Definition sum_of (f : Issue -> Z) (l : list Issue) : Z :=
  foldr (fun d a => f d + a) 0 l.

Definition avg_of (f : Issue -> Z) (l : list Issue) : Q :=
  sum_of f l # Pos.of_nat (length l).

Definition min_of (f : Issue -> Z) (l : list Issue) : Z :=
  match l with
  | [] => 0
  | d :: r => foldr (fun e a => Z.min (f e) a) (f d) r
  end.

Definition max_of (f : Issue -> Z) (l : list Issue) : Z :=
  match l with
  | [] => 0
  | d :: r => foldr (fun e a => Z.max (f e) a) (f d) r
  end.

(** ** [getGovernmentOverview] *)

(** The property key that the [_id] of a row is converted to; the row of
    the documents without the path has the [_id] [null]. *)
Definition property_key (k : option string) : string := default "null" k.

(** [acc[k] = v] on an object, as the list of its own properties. *)
Fixpoint set_property (acc : list (string * nat)) (k : string) (v : nat)
    : list (string * nat) :=
  match acc with
  | [] => [(k, v)]
  | (k', v') :: r =>
      if String.eqb k' k then (k', v) :: r else (k', v') :: set_property r k v
  end.

(** The object that [reduce] builds from the rows; assigning a number to
    ['__proto__'] adds no property. *)
Definition counts_object (rows : list (option string * nat)) : list (string * nat) :=
  fold_left
    (fun acc cur =>
       if String.eqb (property_key cur.1) "__proto__" then acc
       else set_property acc (property_key cur.1) cur.2)
    rows [].

(** [counts[k] || 0] on that object, for a key that names no inherited
    member. *)
Fixpoint count_or_0 (counts : list (string * nat)) (k : string) : nat :=
  match counts with
  | [] => 0
  | (k', n) :: r => if String.eqb k' k then n else count_or_0 r k
  end.

Record Recent := {
  r_id : IssueId;
  r_title : string;
  r_description : string;
  r_category : string;
  r_priority : string;
  r_reporter : UserId;
  r_address : string;
  r_date : Date;
  r_status : option string;
  r_votes : Z;
  r_updates : nat
}.

Definition normalized (doc : Issue) : Recent :=
  {| r_id := _id doc; r_title := title doc; r_description := description doc;
     r_category := category doc;
     r_priority := JS.or_else (Some (priority doc)) "low";
     r_reporter := reportedBy doc;
     r_address := address (location doc); r_date := createdAt doc;
     r_status := status doc; r_votes := votes doc;
     r_updates := length (statusHistory doc) |}.

Record Overview := {
  ov_total : nat;
  ov_submitted : nat;
  ov_resolved : nat;
  ov_in_progress : nat;
  ov_recent : list Recent
}.

Definition getGovernmentOverview (user : option User) (st : Store)
    : Response Overview :=
  if negb (is_government user) then Failure 403 "Forbidden"
  else
    let counts := counts_object (group_count status st) in
    let total := foldr (fun row a => (row.2 + a)%nat) 0%nat counts in
    let recentIssues := take 10 (sort_by createdAt true st) in
    Success 200
      {| ov_total := total;
         ov_submitted := count_or_0 counts "pending";
         ov_resolved := count_or_0 counts "resolved";
         ov_in_progress := count_or_0 counts "in-progress";
         ov_recent := normalized <$> recentIssues |}.

(** ** [getUserIssues] *)

Definition user_filter (u : User) (q : ListQuery) : Filter :=
  {| f_status := keep (q_status q);
     f_category := None;
     f_priority := None;
     f_assignedTo_official := None;
     f_reportedBy := Some (user_id u);
     f_createdAt_gte := None;
     f_createdAt_lte := None;
     f_or_regex := None;
     f_near := None |}.

(** [getUserIssues]; the filter holds the [ObjectId] of the user and a
    status, which the query layer takes. *)
Definition getUserIssues (ql : QueryLayer) (user : option User) (q : ListQuery)
    (st : Store) : Response Page :=
  match user with
  | None => Failure 500 "Failed to fetch your issues"
  | Some u => Success 200 (paginate ql (user_filter u q) (build_options q) st)
  end.

(** ** [getIssueStatistics] *)

Record StatQuery := {
  sq_timeRange : option string;
  sq_department : option string;
  sq_category : option string
}.

Definition day_ms : Z := 24 * 60 * 60 * 1000.

(** The [switch] on [timeRange]. *)
Definition startDate (now : Date) (timeRange : string) : Date :=
  if String.eqb timeRange "7d" then now - 7 * day_ms
  else if String.eqb timeRange "30d" then now - 30 * day_ms
  else if String.eqb timeRange "90d" then now - 90 * day_ms
  else if String.eqb timeRange "1y" then now - 365 * day_ms
  else now - 30 * day_ms.

Record MatchFilter := {
  m_createdAt_gte : Date;
  m_department : option string;
  m_category : option string
}.

Definition matchFilter (now : Date) (q : StatQuery) : MatchFilter :=
  {| m_createdAt_gte := startDate now (default "30d" (sq_timeRange q));
     m_department := keep (sq_department q);
     m_category := keep (sq_category q) |}.

(** [{ $match: matchFilter }] *)
Definition stat_matches (m : MatchFilter) (i : Issue) : bool :=
  (m_createdAt_gte m <=? createdAt i)
  && opt_clause (m_department m)
       (fun d => bool_decide (assignedTo i ≫= department = Some d))
  && eq_clause (m_category m) (category i).

Record Totals := {
  t_total : nat;
  t_totalVotes : Z;
  t_avgVotes : Q
}.

Record CategoryRow := {
  c_id : string;
  c_count : nat;
  c_avgVotes : Q
}.

Record DepartmentRow := {
  d_id : option string;
  d_count : nat;
  d_resolved : nat;
  d_resolutionRate : Q
}.

Record ResolutionTimes := {
  rt_avg : Q;
  rt_min : Z;
  rt_max : Z
}.

Record Statistics := {
  st_total : Totals;
  st_byStatus : list (option string * nat);
  st_byCategory : list CategoryRow;
  st_byPriority : list (string * nat);
  st_byDepartment : list DepartmentRow;
  st_resolutionTime : ResolutionTimes
}.

Definition more_counted : relation CategoryRow :=
  fun a b => (c_count b <= c_count a)%nat.

#[global] Instance more_counted_dec : RelDecision more_counted :=
  fun a b => decide (c_count b <= c_count a)%nat.

Definition is_resolved (i : Issue) : bool := JS.strict_eq (status i) "resolved".

Section Statistics.

(** [{ $round: [x, 2] }], as the database computes it. *)
Variable round2 : Q -> Q.

Definition getIssueStatistics (now : Date) (q : StatQuery) (st : Store)
    : Response Statistics :=
  let m := matchFilter now q in
  let found := List.filter (stat_matches m) st in
  let totalStats :=
    match found with
    | [] => None
    | _ => Some {| t_total := length found;
                   t_totalVotes := sum_of votes found;
                   t_avgVotes := avg_of votes found |}
    end in
  let statusStats := group_count status found in
  let categoryStats :=
    merge_sort more_counted
      ((fun row => {| c_id := row.1; c_count := length row.2;
                      c_avgVotes := avg_of votes row.2 |})
         <$> group_by category found) in
  let priorityStats := group_count priority found in
  let departmentStats :=
    (fun row =>
       let count := length row.2 in
       let resolved := length (List.filter is_resolved row.2) in
       {| d_id := row.1; d_count := count; d_resolved := resolved;
          d_resolutionRate :=
            round2 ((Z.of_nat resolved # Pos.of_nat count) * 100)%Q |})
      <$> group_by (fun i => assignedTo i ≫= department) found in
  let timed :=
    List.filter
      (fun i => is_resolved i && bool_decide (is_Some (actualResolutionTime i)))
      found in
  let time := fun i => default 0 (actualResolutionTime i) in
  let resolutionTimeStats :=
    match timed with
    | [] => None
    | _ => Some {| rt_avg := avg_of time timed; rt_min := min_of time timed;
                   rt_max := max_of time timed |}
    end in
  Success 200
    {| st_total :=
         default {| t_total := 0; t_totalVotes := 0; t_avgVotes := 0 |} totalStats;
       st_byStatus := statusStats;
       st_byCategory := categoryStats;
       st_byPriority := priorityStats;
       st_byDepartment := departmentStats;
       st_resolutionTime :=
         default {| rt_avg := 0; rt_min := 0; rt_max := 0 |} resolutionTimeStats |}.

End Statistics.

(** ** The chat controller ([controllers/chat.controller.js]) *)

(** A chat message, with the fields the controller reads and writes. *)
Record ChatMessage := {
  cm_id : nat;
  cm_issue : IssueId;
  cm_author : UserId;
  cm_message : string;
  cm_createdAt : Date
}.

Definition Chat := list ChatMessage.

Definition newer_first : relation ChatMessage :=
  fun a b => cm_createdAt b ≤ cm_createdAt a.

#[global] Instance newer_first_dec : RelDecision newer_first :=
  fun a b => decide (cm_createdAt b ≤ cm_createdAt a).

(** The issue the chat of [id] is kept under: the issue itself, or the one
    it has been merged into. The inner [None] is the [null] that
    [findById(issue.mergedInto)] gives when that issue is not stored. *)
Definition chat_issue (id : IssueId) (st : Store) : option (option Issue) :=
  match findById id st with
  | None => None
  | Some issue =>
      match mergedInto issue with
      | Some canonical => Some (findById canonical st)
      | None => Some (Some issue)
      end
  end.

Record ChatPage := {
  cp_data : list ChatMessage;
  cp_total : nat;
  cp_page : Z;
  cp_limit : Z;
  cp_totalPages : Z
}.

(** [getMessages]. The answer is [None] where [skip] and [limit] are given
    a page or a limit that is no integer or is below 1. *)
Definition getMessages (id : IssueId) (pg lim : option string) (st : Store)
    (chat : Chat) : option (Response ChatPage) :=
  match chat_issue id st with
  | None => Some (Failure 404 "Issue not found")
  | Some None => Some (Failure 500 "Failed to fetch messages")
  | Some (Some issue) =>
      match JS.parseInt_value (JS.with_default 1 pg),
            JS.parseInt_value (JS.with_default 20 lim) with
      | JS.Int p, JS.Int l =>
          if (1 <=? p) && (1 <=? l) then
            let skip := (p - 1) * l in
            let mine :=
              List.filter (fun m => Nat.eqb (cm_issue m) (_id issue)) chat in
            let messages :=
              take (Z.to_nat l) (drop (Z.to_nat skip) (merge_sort newer_first mine)) in
            Some (Success 200
                    {| cp_data := reverse messages;
                       cp_total := length mine;
                       cp_page := p;
                       cp_limit := l;
                       cp_totalPages := (Z.of_nat (length mine) + l - 1) / l |})
          else None
      | _, _ => None
      end
  end.

Definition fresh_message_id (chat : Chat) : nat :=
  S (List.fold_right Nat.max 0%nat (List.map cm_id chat)).

(** [postMessage] *)
Definition postMessage (now : Date) (user : option User) (id : IssueId)
    (message : option string) (st : Store) (chat : Chat)
    : Response ChatMessage * Chat :=
  if negb (JS.truthy message) || String.eqb (JS.trim (default "" message)) "" then
    (Failure 400 "Message required", chat)
  else
    match chat_issue id st with
    | None => (Failure 404 "Issue not found", chat)
    | Some found =>
        match user, found with
        | Some u, Some issue =>
            let chatMessage :=
              {| cm_id := fresh_message_id chat;
                 cm_issue := _id issue;
                 cm_author := user_id u;
                 cm_message := JS.trim (default "" message);
                 cm_createdAt := now |} in
            (Success 201 chatMessage, (chat ++ [chatMessage])%list)
        | _, _ => (Failure 500 "Failed to post message", chat)
        end
    end.

(** ** The issue routes ([routes/issue.routes.js]) *)

(** [validateIssue]: the messages of the checks that fail. *)
Definition validateIssue (title description category priority : option string)
    : list string :=
  let len := fun (v : option string) => String.length (JS.trim (default "" v)) in
  ((if (3 <=? len title)%nat && (len title <=? 100)%nat then []
    else ["Title must be between 3 and 100 characters"])
   ++ (if (10 <=? len description)%nat && (len description <=? 1000)%nat then []
       else ["Description must be between 10 and 1000 characters"])
   ++ (if bool_decide (default "" category ∈ category_enum) then []
       else ["Invalid category"])
   ++ (match priority with
       | None => []
       | Some p =>
           if bool_decide (p ∈ priority_enum) then [] else ["Invalid priority"]
       end))%list.

(** The request as [createIssue] receives it on [POST /]: the title and
    the description trimmed by their sanitizers, and the outcome of the
    checks recorded. *)
Definition routed (req : CreateRequest) : CreateRequest :=
  {| rq_user := rq_user req;
     rq_validationErrors :=
       validateIssue (rq_title req) (rq_description req) (rq_category req)
         (rq_priority req);
     rq_title := JS.trim <$> rq_title req;
     rq_description := JS.trim <$> rq_description req;
     rq_category := rq_category req;
     rq_location := rq_location req;
     rq_priority := rq_priority req;
     rq_images := rq_images req;
     rq_latitude := rq_latitude req; rq_lat := rq_lat req;
     rq_longitude := rq_longitude req; rq_lng := rq_lng req;
     rq_long := rq_long req |}.

(** [s.startsWith(p)] *)
Fixpoint startsWith (p s : string) : bool :=
  match p, s with
  | EmptyString, _ => true
  | String a p', String b s' => Ascii.eqb a b && startsWith p' s'
  | String _ _, EmptyString => false
  end.

(** The [fileFilter] of the upload: whether the file is accepted. *)
Definition fileFilter (fieldname mimetype : string) : bool :=
  if String.eqb fieldname "images" && startsWith "image/" mimetype then true
  else if String.eqb fieldname "voiceNote" && startsWith "audio/" mimetype then true
  else false.

(** The [destination] of the disk storage. *)
Definition destination (fieldname : string) : string :=
  if String.eqb fieldname "images" then "uploads/images" else "uploads/audio".

(** ** Auxiliary notions for the statements *)

(** The documents of the row of key [k], none when there is no such row. *)
Fixpoint members {K : Type} `{EqDecision K} (rows : list (K * list Issue)) (k : K)
    : list Issue :=
  match rows with
  | [] => []
  | (k', ds) :: r => if decide (k' = k) then ds else members r k
  end.

(** The documents of a list whose key is [k]. *)
Definition having {K : Type} `{EqDecision K} (key : Issue -> K) (k : K)
    (l : list Issue) : list Issue :=
  List.filter (fun d => bool_decide (key d = k)) l.

(** Whether the character occurs in the string. *)
Fixpoint occurs (c : ascii) (s : string) : bool :=
  match s with
  | EmptyString => false
  | String a r => Ascii.eqb a c || occurs c r
  end.

(** ** Invariants of a stored issue *)

(** The resolution time is set exactly when the history holds an entry
    'resolved', and the resolution details are set with it. *)
Definition resolution_recorded (i : Issue) : Prop :=
  (is_Some (actualResolutionTime i)
     <-> Some "resolved" ∈ (se_status <$> statusHistory i))
  /\ (is_Some (resolutionDetails i) <-> is_Some (actualResolutionTime i)).



(** No user is twice among the voters, and [votes] is their number. *)
Definition voters_counted (i : Issue) : Prop :=
  NoDup (voters i) /\ votes i = Z.of_nat (length (voters i)).

(** ** More sample data *)

Module Scenario.

(** A report whose location is a plain address, with the position in
    fields of its own. *)
Definition street_lamp : CreateRequest :=
  {| rq_user := Some Sample.citizen; rq_validationErrors := [];
     rq_title := Some "Dark street"; rq_description := Some "The lamp is out";
     rq_category := Some "Street Lighting";
     rq_location := LocString " 12 Main Road ";
     rq_priority := Some "high"; rq_images := [];
     rq_latitude := Parsed (28614 # 1000); rq_lat := Falsy;
     rq_longitude := Falsy; rq_lng := Parsed (77209 # 1000);
     rq_long := Falsy |}.

(** A query layer that takes every filter; its clauses on patterns, dates
    and places match no document. *)
Definition database : QueryLayer :=
  {| is_ObjectId := fun _ => true; is_date := fun _ => true;
     is_regex := fun _ => true; is_point := fun _ _ _ => true;
     regex_i := fun _ _ => false; date_gte := fun _ _ => false;
     date_lte := fun _ _ => false; near := fun _ _ _ _ => false;
     field_key := fun _ _ => 0 |}.

(** The collection after the pothole has been assigned and taken up. *)
Definition taken_up : Store := run Sample.no_json Sample.triage Sample.one_report.

(** The collection after the pothole has been assigned, taken up and
    resolved three hours after it was reported. *)
Definition resolved_report : Store :=
  run Sample.no_json
    (Sample.triage ++
     [ReqUpdateStatus 9001000 (Some Sample.officer) 1 (Some "resolved") None None])
    Sample.one_report.

(** Twelve reports of the pothole, one every second. *)
Definition twelve_reports : Store :=
  run Sample.no_json
    ((fun n => ReqCreate (Z.of_nat n * 1000) (Sample.pothole Sample.citizen))
       <$> seq 1 12) [].

(** Three messages on the first of the merged reports, the middle one
    posted against the duplicate. *)
Definition talk : Chat :=
  let c1 := (postMessage 3000 (Some Sample.citizen) 1 (Some "Still there")
               Sample.merged_reports []).2 in
  let c2 := (postMessage 4000 (Some Sample.neighbour) 2 (Some " Seen it too ")
               Sample.merged_reports c1).2 in
  (postMessage 5000 (Some Sample.officer) 1 (Some "Crew on the way")
     Sample.merged_reports c2).2.

End Scenario.

(** * Properties *)

Local Open Scope list_scope.

(** ** The primitives on concrete inputs *)

Example parseInt_decimal : JS.parseInt "42" = JS.Int 42.
Proof. reflexivity. Qed.

Example parseInt_prefix : JS.parseInt "  -7px" = JS.Int (-7).
Proof. reflexivity. Qed.

Example parseInt_letters : JS.parseInt "abc" = JS.NaN.
Proof. reflexivity. Qed.

Example parseInt_hex : JS.parseInt "0x1f" = JS.Int 31.
Proof. reflexivity. Qed.

Example parseInt_empty : JS.parseInt "" = JS.NaN.
Proof. reflexivity. Qed.

(** Beyond 2^53 the number read is the nearest double. *)
Example parseInt_rounds : JS.parseInt "9007199254740993" = JS.Int 9007199254740992.
Proof. reflexivity. Qed.

Example parseInt_number_exponent :
  JS.parseInt_number (JS.Int (10 ^ 21)) = JS.Int 1
  /\ JS.parseInt_number (JS.Int (2 ^ 70)) = JS.Int 1
  /\ JS.parseInt_number (JS.Int 99999999999999991611392) = JS.Int 1
  /\ JS.parseInt_number (JS.Int (10 ^ 21 - 2 ^ 17)) = JS.Int (10 ^ 21 - 2 ^ 17).
Proof. repeat split; vm_compute; reflexivity. Qed.

(** The no-break space is white space. *)
Example trim_no_break_space :
  JS.trim (String "160" (String "a" (String "160" ""))) = "a".
Proof. reflexivity. Qed.

Example Math_round_tie_up : JS.Math_round (5 # 2) = 3.
Proof. reflexivity. Qed.

Example Math_round_negative_tie : JS.Math_round (- (5 # 2)) = -2.
Proof. reflexivity. Qed.

Example trim_both_ends : JS.trim "  a b  " = "a b".
Proof. reflexivity. Qed.

Example split_comma_three : split_comma "77.1,28.6,250" = ["77.1"; "28.6"; "250"].
Proof. reflexivity. Qed.

(** ** The collection *)

Section StoreFacts.

Implicit Types (st : Store) (i d : Issue) (id : IssueId).

Lemma hydrate_id d : _id (hydrate d) = _id d.
Proof. reflexivity. Qed.

(** Loading changes nothing of a document that has a status, and a loaded
    document has one. *)
Lemma hydrate_status d s : status d = Some s -> hydrate d = d.
Proof. destruct d. simpl. by intros ->. Qed.

Lemma hydrate_hydrate d : hydrate (hydrate d) = hydrate d.
Proof. reflexivity. Qed.

Lemma findById_stored st id i :
  findById id st = Some i -> exists d, In d st /\ _id d = id /\ i = hydrate d.
Proof.
  unfold findById. intros H. apply fmap_Some in H as (d & H & ->).
  apply find_some in H as [Hin H]. apply Nat.eqb_eq in H. eauto.
Qed.

Lemma findById_id st id i : findById id st = Some i -> _id i = id.
Proof. intros H. by apply findById_stored in H as (d & _ & <- & ->). Qed.

Lemma findById_hydrated st id i : findById id st = Some i -> hydrate i = i.
Proof. intros H. by apply findById_stored in H as (d & _ & _ & ->). Qed.

Lemma findById_has_status st id i : findById id st = Some i -> is_Some (status i).
Proof. intros H. apply findById_stored in H as (d & _ & _ & ->). by eexists. Qed.

Lemma findById_save_same st id i i' :
  findById id st = Some i -> _id i' = id ->
  findById id (save i' st) = Some (hydrate i').
Proof.
  unfold findById, save. intros H <-. apply fmap_Some in H as (d0 & H & _).
  induction st as [|d st IH]; [done|].
  simpl in *. destruct (Nat.eqb (_id d) (_id i')) eqn:Hd; simpl.
  - by rewrite Nat.eqb_refl.
  - rewrite Hd. by apply IH.
Qed.

Lemma findById_save_hydrated st id i i' s :
  findById id st = Some i -> _id i' = id -> status i' = Some s ->
  findById id (save i' st) = Some i'.
Proof.
  intros H Hid Hs. etrans; [by eapply findById_save_same|].
  f_equal. by eapply hydrate_status.
Qed.

Lemma findById_save_other st id i' :
  _id i' <> id -> findById id (save i' st) = findById id st.
Proof.
  unfold findById, save. intros Hne. f_equal.
  induction st as [|d st IH]; [done|].
  simpl. destruct (Nat.eqb (_id d) (_id i')) eqn:Hd; simpl.
  - apply Nat.eqb_eq in Hd.
    assert (Nat.eqb (_id i') id = false) as -> by by apply Nat.eqb_neq.
    assert (Nat.eqb (_id d) id = false) as -> by (apply Nat.eqb_neq; congruence).
    apply IH.
  - destruct (Nat.eqb (_id d) id); [done | apply IH].
Qed.

Lemma findById_app st l id i :
  findById id st = Some i -> findById id (st ++ l) = Some i.
Proof.
  unfold findById. induction st as [|d st IH]; [done|]. simpl.
  destruct (Nat.eqb (_id d) id); [done | apply IH].
Qed.

Lemma findById_app_new st id i :
  findById id st = None -> _id i = id -> findById id (st ++ [i]) = Some (hydrate i).
Proof.
  unfold findById. intros H <-. induction st as [|d st IH]; simpl in *.
  - by rewrite Nat.eqb_refl.
  - destruct (Nat.eqb (_id d) (_id i)); [done | by apply IH].
Qed.

Lemma fresh_id_above st i : In i st -> (_id i < fresh_id st)%nat.
Proof.
  unfold fresh_id. induction st as [|d st IH]; [done|].
  intros [-> | H]; simpl; [lia|]. specialize (IH H). lia.
Qed.

Lemma fresh_id_unused st : findById (fresh_id st) st = None.
Proof.
  destruct (findById (fresh_id st) st) as [i|] eqn:H; [|done].
  apply findById_stored in H as (d & Hin & Hid & _).
  apply fresh_id_above in Hin. lia.
Qed.

Lemma mutate_id i a s v vs h n t r : _id (mutate i a s v vs h n t r) = _id i.
Proof. reflexivity. Qed.

End StoreFacts.

(** ** Votes *)

Section Votes.

Implicit Types (i : Issue) (u : UserId).

Lemma voters_set_remove u i :
  u ∈ voters i -> voters_set (toggle_vote u i) = voters_set i ∖ {[u]}.
Proof.
  intros Hin. unfold toggle_vote, voters_set.
  rewrite bool_decide_eq_true_2 by done. simpl.
  apply set_eq. intros x.
  rewrite elem_of_difference, !elem_of_list_to_set, list_elem_of_filter.
  set_solver.
Qed.

Lemma voters_set_add u i :
  u ∉ voters i -> voters_set (toggle_vote u i) = voters_set i ∪ {[u]}.
Proof.
  intros Hin. unfold toggle_vote, voters_set.
  rewrite bool_decide_eq_false_2 by done. simpl.
  apply list_to_set_snoc_L.
Qed.

Lemma votes_remove u i :
  u ∈ voters i -> votes (toggle_vote u i) = Z.max 0 (votes i - 1).
Proof.
  intros Hin. unfold toggle_vote. by rewrite bool_decide_eq_true_2.
Qed.

Lemma votes_add u i : u ∉ voters i -> votes (toggle_vote u i) = votes i + 1.
Proof.
  intros Hin. unfold toggle_vote. by rewrite bool_decide_eq_false_2.
Qed.

(** A vote touches [votes] and [voters] only. *)
Lemma toggle_vote_frame u i :
  toggle_vote u i =
  mutate i (assignedTo i) (status i) (votes (toggle_vote u i))
    (voters (toggle_vote u i)) (statusHistory i) (notifications i)
    (actualResolutionTime i) (resolutionDetails i).
Proof. unfold toggle_vote. by case_bool_decide. Qed.

Lemma voter_after_toggle u i : u ∈ voters (toggle_vote u i) <-> u ∉ voters i.
Proof.
  unfold toggle_vote. case_bool_decide as H; simpl.
  - rewrite list_elem_of_filter. tauto.
  - rewrite elem_of_app, list_elem_of_singleton. tauto.
Qed.

Lemma size_remove (X : gset UserId) u :
  u ∈ X -> (size (X ∖ {[u]}) = size X - 1)%nat /\ (1 <= size X)%nat.
Proof.
  intros Hin. rewrite size_difference, size_singleton by set_solver.
  split; [done|]. rewrite <- (size_singleton (C:=gset UserId) u).
  apply subseteq_size. set_solver.
Qed.

Lemma size_add (X : gset UserId) u :
  u ∉ X -> (size (X ∪ {[u]}) = size X + 1)%nat.
Proof. intros Hin. rewrite size_union, size_singleton by set_solver. done. Qed.

(** One toggle keeps [votes] equal to the number of voters. *)
Lemma toggle_vote_consistent u i :
  votes_consistent i -> votes_consistent (toggle_vote u i).
Proof.
  unfold votes_consistent. intros H.
  destruct (decide (u ∈ voters i)) as [Hin|Hin].
  - rewrite votes_remove, voters_set_remove by done.
    destruct (size_remove (voters_set i) u) as [-> ?];
      [unfold voters_set; by rewrite elem_of_list_to_set|]. lia.
  - rewrite votes_add, voters_set_add by done.
    rewrite size_add; [lia|]. unfold voters_set. by rewrite elem_of_list_to_set.
Qed.

(** Two toggles by the same user give back the count and the set. *)
Lemma toggle_vote_twice u i :
  votes_consistent i ->
  votes (toggle_vote u (toggle_vote u i)) = votes i
  /\ voters_set (toggle_vote u (toggle_vote u i)) = voters_set i.
Proof.
  unfold votes_consistent. intros H.
  destruct (decide (u ∈ voters i)) as [Hin|Hin].
  - assert (u ∉ voters (toggle_vote u i)) as Hout
      by (rewrite voter_after_toggle; tauto).
    rewrite votes_add, voters_set_add, votes_remove, voters_set_remove by done.
    assert (u ∈ voters_set i) as Hs
      by (unfold voters_set; by rewrite elem_of_list_to_set).
    destruct (size_remove _ _ Hs) as [_ ?]. split; [lia|].
    apply set_eq. intros x. destruct (decide (x = u)); set_solver.
  - assert (u ∈ voters (toggle_vote u i)) as Hout
      by (by rewrite voter_after_toggle).
    rewrite votes_remove, voters_set_remove, votes_add, voters_set_add by done.
    assert (u ∉ voters_set i) as Hs
      by (unfold voters_set; by rewrite elem_of_list_to_set).
    split; [lia | set_solver].
Qed.

End Votes.

(** ** What a request does to a stored issue *)

Section Requests.

Variable JSON_parse : string -> option LocationData.

Implicit Types (st : Store) (i : Issue) (id : IssueId) (r : Request).

(** What an accepted report leaves behind. *)
Lemma createIssue_success now req st c i st' :
  createIssue JSON_parse now req st = (Success c i, st') ->
  c = 201%nat /\ st' = st ++ [i] /\ _id i = fresh_id st
  /\ mergedInto i = None /\ duplicates i = []
  /\ status i = Some "pending" /\ votes i = 0 /\ voters i = []
  /\ createdAt i = now
  /\ (exists e, statusHistory i = [e] /\ se_status e = Some "pending")
  /\ (exists u, rq_user req = Some u /\ reportedBy i = user_id u).
Proof.
  unfold createIssue. intros H.
  repeat (case_match; try discriminate); simplify_eq; simpl.
  repeat split; eauto.
Qed.

Lemma createIssue_found now req st c i st' :
  createIssue JSON_parse now req st = (Success c i, st') ->
  findById (_id i) st' = Some i.
Proof.
  intros H. apply createIssue_success in H as (_ & -> & Hid & _ & _ & Hs & _).
  etrans; [apply findById_app_new; [rewrite Hid; apply fresh_id_unused | done]|].
  f_equal. by eapply hydrate_status.
Qed.

Lemma createIssue_store now req st :
  (createIssue JSON_parse now req st).2 = st
  \/ exists i, createIssue JSON_parse now req st = (Success 201 i, st ++ [i]).
Proof.
  destruct (createIssue JSON_parse now req st) as [[c i|c m] st'] eqn:H.
  - apply createIssue_success in H as (-> & -> & _). right. eauto.
  - left. unfold createIssue in H.
    repeat (case_match; try discriminate); by simplify_eq.
Qed.

Lemma toggle_vote_status (u : UserId) i : status (toggle_vote u i) = status i.
Proof. unfold toggle_vote. by case_bool_decide. Qed.

Lemma toggle_vote_id (u : UserId) i : _id (toggle_vote u i) = _id i.
Proof. unfold toggle_vote. by case_bool_decide. Qed.

Lemma status_updated_id now (u : User) s com res i :
  _id (status_updated now u s com res i) = _id i.
Proof. unfold status_updated. by destruct (JS.strict_eq s "resolved"). Qed.

Lemma status_updated_status now (u : User) s com res i :
  status (status_updated now u s com res i) = s.
Proof. unfold status_updated. by destruct (JS.strict_eq s "resolved"). Qed.

(** Whatever relation holds across the effect of each handler holds
    across a request. *)
Lemma serve_step_rel (R : relation Issue) r st id i :
  (forall i, R i i) ->
  (forall u i, R i (toggle_vote u i)) ->
  (forall i, R i (notifications_read i)) ->
  (forall now u department officialId comment i,
     officialId <> NotAnId ->
     R i (assigned now u department officialId comment i)) ->
  (forall now u status' comment resolutionInput i,
     valid_status status' = true ->
     (carries_status r -> is_Some status') ->
     R i (hydrate (status_updated now u status' comment resolutionInput i))) ->
  findById id st = Some i ->
  exists i', findById id (serve JSON_parse r st) = Some i' /\ R i i'.
Proof.
  intros Hnone Hvote Hread Hassign Hstatus Hi.
  assert (exists i', findById id st = Some i' /\ R i i') as Hsame
    by (exists i; split; [done | apply Hnone]).
  assert (forall id0 i0 i0',
            findById id0 st = Some i0 -> _id i0' = _id i0 ->
            (id0 = id -> R i0 (hydrate i0')) ->
            exists i', findById id (save i0' st) = Some i' /\ R i i') as Hsave.
  { intros id0 i0 i0' H0 Hid HR. pose proof (findById_id _ _ _ H0) as Hid0.
    destruct (decide (id0 = id)) as [->|Hne].
    - simplify_eq. exists (hydrate i0'). split; [|by apply HR].
      eapply findById_save_same; [done | congruence].
    - exists i. split; [|apply Hnone].
      rewrite findById_save_other; [done | congruence]. }
  destruct r as [now req | user id0 | now user id0 dep off com
                | now user id0 s com res | user id0]; simpl.
  - destruct (createIssue_store now req st) as [-> | [i0 ->]]; [done|].
    simpl. exists i. split; [by apply findById_app | apply Hnone].
  - unfold getIssueById. destruct (findById id0 st) as [i0|] eqn:H0; [|done].
    destruct (is_reporter user i0); [|done]. simpl.
    destruct (findById_has_status _ _ _ H0) as [s0 Hs0].
    eapply Hsave; eauto. intros _.
    rewrite (hydrate_status _ s0) by done. apply Hread.
  - unfold assignIssue. destruct user as [u|]; [|done].
    destruct (negb _); [done|].
    destruct (findById id0 st) as [i0|] eqn:H0; [|done].
    destruct off as [| |o]; [|done|]; simpl;
      (eapply Hsave; eauto; intros _;
       rewrite (hydrate_status _ "assigned") by done; by apply Hassign).
  - unfold updateIssueStatus. destruct user as [u|]; [|done].
    destruct (negb _); [done|].
    destruct (findById id0 st) as [i0|] eqn:H0; [|done].
    destruct (valid_status s) eqn:Hs; [|done]. simpl.
    eapply Hsave; eauto; [apply status_updated_id|]. intros _.
    apply Hstatus; [done|]. by destruct s.
  - unfold voteOnIssue. destruct (findById id0 st) as [i0|] eqn:H0; [|done].
    destruct user as [u|]; [|done]. simpl.
    destruct (findById_has_status _ _ _ H0) as [s0 Hs0].
    eapply Hsave; eauto; [apply toggle_vote_id|]. intros _.
    rewrite (hydrate_status _ s0) by (by rewrite toggle_vote_status).
    apply Hvote.
Qed.

Lemma serve_step r st id i :
  findById id st = Some i ->
  exists i', findById id (serve JSON_parse r st) = Some i' /\ issue_step i i'.
Proof.
  apply serve_step_rel; intros; by constructor.
Qed.

Lemma serve_step_sent r st id i :
  carries_status r ->
  findById id st = Some i ->
  exists i', findById id (serve JSON_parse r st) = Some i' /\ sent_step i i'.
Proof.
  intros Hr. apply serve_step_rel; intros; try by constructor.
  match goal with H : carries_status _ -> is_Some _ |- _ =>
    destruct (H Hr) as [s ->] end.
  rewrite (hydrate_status _ s) by apply status_updated_status.
  constructor.
  match goal with H : valid_status (Some s) = true |- _ =>
    simpl in H; by apply bool_decide_eq_true_1 in H end.
Qed.

Lemma run_steps rs st id i :
  findById id st = Some i ->
  exists i', findById id (run JSON_parse rs st) = Some i' /\ rtc issue_step i i'.
Proof.
  revert st i. induction rs as [|r rs IH]; intros st i Hi; simpl.
  - by exists i.
  - destruct (serve_step r st id i Hi) as (i1 & H1 & Hstep).
    destruct (IH _ _ H1) as (i' & H' & Hsteps).
    exists i'. split; [done|]. by eapply rtc_l.
Qed.

(** An invariant of the single steps holds along every run. *)
Lemma run_invariant (P : Issue -> Prop) :
  (forall i i', issue_step i i' -> P i -> P i') ->
  forall rs st id i, findById id st = Some i -> P i ->
  exists i', findById id (run JSON_parse rs st) = Some i' /\ P i'.
Proof.
  intros Hstep rs st id i Hi HP.
  destruct (run_steps rs st id i Hi) as (i' & H' & Hsteps).
  exists i'. split; [done|]. clear Hi H'. induction Hsteps; eauto.
Qed.

(** The same along the runs in which every status update carries a
    status. *)
Lemma run_invariant_sent (P : Issue -> Prop) :
  (forall i i', sent_step i i' -> P i -> P i') ->
  forall rs, Forall carries_status rs ->
  forall st id i, findById id st = Some i -> P i ->
  exists i', findById id (run JSON_parse rs st) = Some i' /\ P i'.
Proof.
  intros Hstep rs Hrs. induction Hrs as [|r rs Hr _ IH]; intros st id i Hi HP.
  - by exists i.
  - destruct (serve_step_sent r st id i Hr Hi) as (i1 & H1 & Hs1). simpl.
    apply (IH _ _ i1 H1). by eapply Hstep.
Qed.

End Requests.

Lemma step_votes_consistent i i' :
  issue_step i i' -> votes_consistent i -> votes_consistent i'.
Proof.
  intros Hstep H. destruct Hstep; try done.
  - by apply toggle_vote_consistent.
  - unfold status_updated. by destruct (JS.strict_eq status' "resolved").
Qed.

(** A step that carries a status keeps the last entry of the history in
    line with the status. *)
Lemma step_history_consistent i i' :
  sent_step i i' -> history_consistent i -> history_consistent i'.
Proof.
  intros Hstep H. destruct Hstep; try done.
  - unfold toggle_vote. by case_bool_decide.
  - unfold history_consistent, assigned. simpl.
    rewrite length_app, last_snoc. simpl. split; [lia | done].
  - unfold history_consistent, status_updated.
    destruct (JS.strict_eq (Some s) "resolved"); simpl;
      rewrite length_app, last_snoc; simpl; (split; [lia | done]).
Qed.

(** ** Reports at the same place *)

(** C1, as stated, fails: a second report with the coordinates and the
    category of a stored one is stored as an issue of its own, with a new
    identifier and [mergedInto] unset; the first issue records no
    duplicate. *)
Lemma second_report_is_a_new_issue :
  exists first second,
    createIssue Sample.no_json 1000 (Sample.pothole Sample.citizen) []
      = (Success 201 first, [first])
    /\ createIssue Sample.no_json 2000 (Sample.pothole Sample.neighbour) [first]
      = (Success 201 second, [first; second])
    /\ coordinates (location second) = coordinates (location first)
    /\ category second = category first
    /\ _id second <> _id first
    /\ mergedInto second = None
    /\ duplicates first = [].
Proof.
  eexists _, _. split; [vm_compute; reflexivity|].
  split; [vm_compute; reflexivity|].
  repeat split; simpl; congruence.
Qed.

(** C1, amended: every accepted report is stored as a new canonical issue.
    Its identifier is one no stored issue has, [mergedInto] is unset,
    [duplicates] is empty, [reporters] holds the reporting user alone, and
    it is appended to the collection, whose documents stay as they were;
    no stored issue is looked up by place or category. *)
Theorem createIssue_stores_new_canonical_issue
    (JSON_parse : string -> option LocationData) (now : Date)
    (req : CreateRequest) (st st' : Store) (c : nat) (i : Issue) :
  createIssue JSON_parse now req st = (Success c i, st') ->
  findById (_id i) st = None
  /\ st' = st ++ [i]
  /\ findById (_id i) st' = Some i
  /\ mergedInto i = None
  /\ duplicates i = []
  /\ reporters i = [reportedBy i].
Proof.
  intros H. pose proof (createIssue_success _ _ _ _ _ _ _ H)
    as (_ & -> & Hid & Hm & Hd & _).
  assert (findById (_id i) st = None) as Hfresh
    by (rewrite Hid; apply fresh_id_unused).
  repeat split; try done.
  - eapply createIssue_found; eassumption.
  - unfold createIssue in H.
    repeat (case_match; try discriminate); simplify_eq; simpl.
    unfold pre_save_reporters.
    match goal with
    | Hv : negb (schema_valid _ _ _ _ _ _) = false |- _ =>
        apply negb_false_iff in Hv; unfold schema_valid in Hv;
        repeat (apply andb_prop in Hv as [Hv ?])
    end.
    by destruct (String.eqb (user_id _) "").
Qed.

Lemma createIssue_stores_new_canonical_issue_witness :
  exists i st',
    createIssue Sample.no_json 2000 (Sample.pothole Sample.neighbour)
      Sample.one_report = (Success 201 i, st')
    /\ findById (_id i) Sample.one_report = None
    /\ mergedInto i = None.
Proof.
  eexists _, _. split; [vm_compute; reflexivity|].
  edestruct (createIssue_stores_new_canonical_issue Sample.no_json 2000
               (Sample.pothole Sample.neighbour) Sample.one_report)
    as (H1 & _ & _ & H2 & _); [vm_compute; reflexivity|].
  split; [exact H1 | exact H2].
Defined.

(** ** Voting *)

(** A vote of a user on a stored issue stores the issue toggled. *)
Lemma voteOnIssue_stored (st : Store) (id : IssueId) (u : User) (issue : Issue) :
  findById id st = Some issue ->
  findById id (voteOnIssue (Some u) id st).2
  = Some (toggle_vote (user_id u) issue).
Proof.
  intros Hfind. unfold voteOnIssue. rewrite Hfind. simpl.
  destruct (findById_has_status _ _ _ Hfind) as [s Hs].
  eapply (findById_save_hydrated _ _ _ _ s); [done | |].
  - apply findById_id in Hfind. by rewrite toggle_vote_id.
  - by rewrite toggle_vote_status.
Qed.

(** C2: on an issue whose [votes] is the number of its voters, two
    successive votes of one user give back the count and the set of voters
    it had; the stored issue differs from the earlier one at most in the
    order of [voters]. *)
Theorem vote_twice_restores_votes_and_voters
    (st : Store) (id : IssueId) (u : User) (issue : Issue) :
  findById id st = Some issue ->
  votes_consistent issue ->
  let st1 := (voteOnIssue (Some u) id st).2 in
  let st2 := (voteOnIssue (Some u) id st1).2 in
  exists issue2,
    findById id st2 = Some issue2
    /\ votes issue2 = votes issue
    /\ voters_set issue2 = voters_set issue
    /\ issue2 =
         mutate issue (assignedTo issue) (status issue) (votes issue)
           (voters issue2) (statusHistory issue) (notifications issue)
           (actualResolutionTime issue) (resolutionDetails issue).
Proof.
  intros Hfind Hcons st1 st2.
  pose proof (voteOnIssue_stored _ _ u _ Hfind) as H1. fold st1 in H1.
  pose proof (voteOnIssue_stored _ _ u _ H1) as H2. fold st2 in H2.
  eexists. split; [exact H2|].
  destruct (toggle_vote_twice (user_id u) issue Hcons) as [Hv Hs].
  split; [done|]. split; [done|].
  etrans; [apply toggle_vote_frame|]. rewrite Hv.
  unfold mutate. f_equal; unfold toggle_vote; by case_bool_decide.
Qed.

Lemma vote_twice_restores_votes_and_voters_witness :
  exists issue2,
    findById 1
      (voteOnIssue (Some Sample.neighbour) 1
         (voteOnIssue (Some Sample.neighbour) 1 Sample.one_report).2).2
      = Some issue2
    /\ votes issue2 = 0 /\ voters_set issue2 = ∅.
Proof.
  edestruct (vote_twice_restores_votes_and_voters Sample.one_report 1
               Sample.neighbour) as (issue2 & H & Hv & Hs & _).
  - vm_compute. reflexivity.
  - reflexivity.
  - exists issue2. split; [exact H|]. split; [exact Hv | exact Hs].
Defined.

(** The same for every issue the handlers have produced: one that was
    reported and has since seen any sequence of requests. *)
Lemma vote_twice_on_reported_issue
    (JSON_parse : string -> option LocationData) (now : Date)
    (req : CreateRequest) (st st' : Store) (c : nat) (i : Issue)
    (rs : list Request) (u : User) :
  createIssue JSON_parse now req st = (Success c i, st') ->
  let st0 := run JSON_parse rs st' in
  let st2 := (voteOnIssue (Some u) (_id i) (voteOnIssue (Some u) (_id i) st0).2).2 in
  exists issue issue2,
    findById (_id i) st0 = Some issue
    /\ findById (_id i) st2 = Some issue2
    /\ votes issue2 = votes issue
    /\ voters_set issue2 = voters_set issue.
Proof.
  intros H st0 st2.
  pose proof (createIssue_success _ _ _ _ _ _ _ H)
    as (_ & -> & Hid & _ & _ & _ & Hv & Hvs & _).
  destruct (run_invariant JSON_parse votes_consistent step_votes_consistent
              rs (st ++ [i]) (_id i) i) as (issue & Hfind & Hcons).
  - eapply createIssue_found; eassumption.
  - unfold votes_consistent, voters_set. by rewrite Hv, Hvs.
  - fold st0 in Hfind.
    pose proof (voteOnIssue_stored _ _ u _ Hfind) as H1.
    pose proof (voteOnIssue_stored _ _ u _ H1) as H2. fold st2 in H2.
    destruct (toggle_vote_twice (user_id u) issue Hcons) as [Hv2 Hs2].
    by eexists _, _.
Qed.

(** C3: an issue whose [votes] is the number of its voters keeps that
    through every sequence of requests, whoever votes and on whichever
    issue, and whatever else is asked in between. *)
Theorem votes_equal_voters_after_requests
    (JSON_parse : string -> option LocationData) (rs : list Request)
    (st : Store) (id : IssueId) (issue : Issue) :
  findById id st = Some issue ->
  votes issue = Z.of_nat (size (voters_set issue)) ->
  exists issue',
    findById id (run JSON_parse rs st) = Some issue'
    /\ votes issue' = Z.of_nat (size (voters_set issue')).
Proof.
  intros Hfind Hcons.
  by apply (run_invariant JSON_parse votes_consistent step_votes_consistent
              rs st id issue).
Qed.

Lemma votes_equal_voters_after_requests_witness :
  exists issue',
    findById 1
      (run Sample.no_json Sample.ballots
         Sample.one_report) = Some issue'
    /\ votes issue' = Z.of_nat (size (voters_set issue')).
Proof.
  apply (votes_equal_voters_after_requests Sample.no_json _ Sample.one_report 1
           {| _id := 1; title := "Pothole";
              description := "Deep pothole at the crossing";
              category := "Roads & Infrastructure";
              location :=
                {| coordinates := [77209 # 1000; 28614 # 1000]%Q;
                   address := "Address not specified"; city := None;
                   state := None; pincode := None |};
              images := []; voiceNote := None; reportedBy := "u1";
              assignedTo := None; status := Some "pending"; votes := 0;
              voters := []; priority := "low"; priorityReasons := [];
              priorityAuto := true;
              statusHistory :=
                [ {| se_status := Some "pending"; se_updatedBy := None;
                     se_comment := "Issue reported by citizen";
                     se_timestamp := 1000 |} ];
              notifications :=
                [ {| n_message :=
                       "Your issue has been successfully reported and is under review";
                     n_type := "status_change"; n_timestamp := 1000;
                     n_read := false |} ];
              estimatedResolutionTime := 108; actualResolutionTime := None;
              resolutionDetails := None; createdAt := 1000;
              mergedInto := None; duplicates := []; reporters := ["u1"] |}).
  - vm_compute. reflexivity.
  - reflexivity.
Defined.

Example three_votes_counted :
  (fun i => (votes i, voters i)) <$>
    findById 1
      (run Sample.no_json Sample.ballots
         Sample.one_report)
  = Some (1, ["u1"]).
Proof. vm_compute. reflexivity. Qed.

(** ** Status history *)

(** An issue that [createIssue] has stored has, after every sequence of
    requests in which each status update carries a status, a
    [statusHistory] of at least one entry whose last entry carries the
    current [status]. *)
Lemma status_history_follows_sent_status
    (JSON_parse : string -> option LocationData) (now : Date)
    (req : CreateRequest) (st st' : Store) (c : nat) (i : Issue)
    (rs : list Request) :
  Forall carries_status rs ->
  createIssue JSON_parse now req st = (Success c i, st') ->
  exists i',
    findById (_id i) (run JSON_parse rs st') = Some i'
    /\ (1 <= length (statusHistory i'))%nat
    /\ se_status <$> last (statusHistory i') = Some (status i').
Proof.
  intros Hrs H.
  pose proof (createIssue_found _ _ _ _ _ _ _ H) as Hfind.
  pose proof (createIssue_success _ _ _ _ _ _ _ H)
    as (_ & _ & _ & _ & _ & Hst & _ & _ & _ & (e & He & Hse) & _).
  assert (history_consistent i) as Hcons
    by (unfold history_consistent; rewrite He, Hst; simpl; by rewrite Hse).
  by apply (run_invariant_sent JSON_parse history_consistent
              step_history_consistent rs Hrs st' (_id i) i).
Qed.

(** C9 fails on the code: a status update whose body has no status is
    served, though the route declares a check of the status and the
    schema an enum. The handler pushes a history entry without a status
    and unsets the status of the document, which is 'pending' again when
    the issue is read: after it the last entry of the history does not
    carry the current status, and a vote does not mend that. *)
Theorem update_without_status_breaks_history :
  exists answer st' i' i'',
    Scenario.taken_up
    = run Sample.no_json
        [ ReqAssign 5000 (Some Sample.officer) 1 (Some "Roads") NoId None;
          ReqUpdateStatus 9000 (Some Sample.officer) 1 (Some "in-progress")
            None None;
          ReqUpdateStatus 9500 (Some Sample.officer) 1 (Some "done") None None ]
        (createIssue Sample.no_json 1000 (Sample.pothole Sample.citizen) []).2
    /\ updateIssueStatus 9800 (Some Sample.officer) 1 None None None
         Scenario.taken_up = (Success 200 answer, st')
    /\ st' = run Sample.no_json
               [ReqUpdateStatus 9800 (Some Sample.officer) 1 None None None]
               Scenario.taken_up
    /\ findById 1 Scenario.taken_up
       ≫= (fun i => se_status <$> last (statusHistory i))
       = Some (Some "in-progress")
    /\ status <$> findById 1 Scenario.taken_up = Some (Some "in-progress")
    /\ findById 1 st' = Some i'
    /\ status i' = Some "pending"
    /\ se_status <$> last (statusHistory i') = Some None
    /\ se_status <$> last (statusHistory i') <> Some (status i')
    /\ findById 1 (voteOnIssue (Some Sample.citizen) 1 st').2 = Some i''
    /\ se_status <$> last (statusHistory i'') <> Some (status i'').
Proof.
  eexists _, _, _, _. split; [reflexivity|].
  split; [vm_compute; reflexivity|]. split; [reflexivity|].
  split; [vm_compute; reflexivity|]. split; [vm_compute; reflexivity|].
  split; [vm_compute; reflexivity|]. split; [reflexivity|].
  split; [reflexivity|]. split; [simpl; discriminate|].
  split; [vm_compute; reflexivity|].
  simpl. discriminate.
Qed.

Example history_after_three_requests :
  (fun i => (status i, se_status <$> statusHistory i)) <$>
    findById 1
      (run Sample.no_json Sample.triage
         Sample.one_report)
  = Some (Some "in-progress",
          [Some "pending"; Some "assigned"; Some "in-progress"]).
Proof. vm_compute. reflexivity. Qed.

(** ** Estimated resolution time *)





Example estimate_unknown_category :
  calculateEstimatedResolutionTime (Some "Beekeeping") (Some "low") = Some 72.
Proof. reflexivity. Qed.

Example estimate_every_tier :
  List.map (fun p => calculateEstimatedResolutionTime (Some "Water Supply")
                       (Some (tier_name p)))
    [urgent; high; medium; low]
  = [Some 12; Some 24; Some 48; Some 72].
Proof. reflexivity. Qed.

(** A category of the schema always has an estimate. *)
Lemma estimate_of_valid_draft (category priority : string) :
  category ∈ category_enum -> priority ∈ priority_enum ->
  is_Some (calculateEstimatedResolutionTime (Some category) (Some priority)).
Proof.
  unfold category_enum, priority_enum. intros Hc Hp.
  repeat (apply elem_of_cons in Hc as [-> | Hc]);
    try (by apply elem_of_nil in Hc);
    repeat (apply elem_of_cons in Hp as [-> | Hp]);
    try (by apply elem_of_nil in Hp); by eexists.
Qed.

(** ** Resolution *)

(** [Math.round] of a quotient of integers, in integers. *)
Lemma resolutionTimeHours_div (created resolved : Date) :
  resolutionTimeHours created resolved
  = (2 * (resolved - created) + 3600000) / 7200000.
Proof.
  unfold resolutionTimeHours, JS.Math_round, Qplus, Qfloor, hour_ms.
  cbn [Qnum Qden]. change (Z.pos (3600000 * 2)) with 7200000.
  f_equal. lia.
Qed.

(** The rounded number of hours: the nearest integer, a half hour counting
    up; it is not negative when the issue was created before. *)
Lemma resolutionTimeHours_nearest (created resolved : Date) :
  let h := resolutionTimeHours created resolved in
  3600000 * (2 * h - 1) <= 2 * (resolved - created) < 3600000 * (2 * h + 1)
  /\ (created <= resolved -> 0 <= h).
Proof.
  intros h. unfold h. rewrite resolutionTimeHours_div.
  split; [Z.div_mod_to_equations; lia|].
  intros H. apply Z.div_pos; lia.
Qed.

(** C7: a status update to 'resolved' by a government user stores the
    issue with [actualResolutionTime] the number of hours from [createdAt]
    to the instant of the update, rounded to the nearest integer, which is
    not negative as the issue was created no later than that instant, and
    with [resolutionDetails.resolvedBy] the acting user. *)
Theorem resolved_sets_time_and_resolver
    (now : Date) (u : User) (id : IssueId) (comment : option string)
    (resolutionInput : option ResolutionInput) (st : Store) (issue : Issue) :
  role u = "government" ->
  findById id st = Some issue ->
  createdAt issue <= now ->
  exists issue' h,
    updateIssueStatus now (Some u) id (Some "resolved") comment resolutionInput st
      = (Success 200 issue', save issue' st)
    /\ findById id (save issue' st) = Some issue'
    /\ status issue' = Some "resolved"
    /\ actualResolutionTime issue' = Some h
    /\ 0 <= h
    /\ 3600000 * (2 * h - 1) <= 2 * (now - createdAt issue) < 3600000 * (2 * h + 1)
    /\ resolvedBy <$> resolutionDetails issue' = Some (user_id u).
Proof.
  intros Hrole Hfind Hclock.
  exists (status_updated now u (Some "resolved") comment resolutionInput issue),
         (resolutionTimeHours (createdAt issue) now).
  destruct (resolutionTimeHours_nearest (createdAt issue) now) as [Hnear Hpos].
  split.
  { unfold updateIssueStatus. rewrite Hrole, Hfind. reflexivity. }
  split.
  { eapply (findById_save_hydrated _ _ _ _ "resolved"); [done| |done].
    by apply findById_id in Hfind. }
  repeat split; try done; try apply Hnear. by apply Hpos.
Qed.

Lemma resolved_sets_time_and_resolver_witness :
  exists issue',
    (updateIssueStatus 9001000 (Some Sample.officer) 1 (Some "resolved") None None
       Sample.one_report).1 = Success 200 issue'
    /\ actualResolutionTime issue' = Some 3
    /\ resolvedBy <$> resolutionDetails issue' = Some "g1".
Proof.
  edestruct (fun issue =>
               resolved_sets_time_and_resolver 9001000 Sample.officer 1 None None
                 Sample.one_report issue eq_refl)
    as (issue' & h & Hres & _ & _ & Htime & _ & Hnear & Hby).
  - vm_compute. reflexivity.
  - vm_compute. discriminate.
  - exists issue'. rewrite Hres. split; [reflexivity|]. split; [|exact Hby].
    rewrite Htime. f_equal. simpl in Hnear. lia.
Defined.

Example resolve_after_two_and_a_half_hours :
  (fun i => (status i, actualResolutionTime i)) <$>
    findById 1
      (updateIssueStatus 9001000 (Some Sample.officer) 1 (Some "resolved") None None
         Sample.one_report).2
  = Some (Some "resolved", Some 3).
Proof. vm_compute. reflexivity. Qed.

(** ** Reports without an address *)

Lemma well_formed_draft_valid (req : CreateRequest) (u : User) :
  well_formed_draft req u ->
  is_Some (rq_category req) ->
  schema_valid (rq_title req) (rq_description req) (rq_category req)
    (user_id u) (default "low" (rq_priority req))
    (calculateEstimatedResolutionTime (rq_category req)
       (Some (default "low" (rq_priority req)))) = true.
Proof.
  intros (Ht & Hd & Hu & Hc & Hp) [category Hcat]. unfold schema_valid.
  rewrite Hcat in *. simpl in Hc.
  apply String.eqb_neq in Ht, Hd, Hu. rewrite Ht, Hd, Hu. simpl.
  rewrite !bool_decide_eq_true_2; [done | | done | done].
  by apply estimate_of_valid_draft.
Qed.

(** C10: a draft whose parsed location has two coordinates in range and no
    address (none, or an empty one), and which is otherwise well formed, is
    not rejected: the issue is created and stored with the address
    'Address not specified' and with those coordinates. *)
Theorem missing_address_gets_placeholder
    (JSON_parse : string -> option LocationData) (now : Date)
    (req : CreateRequest) (st : Store) (u : User) (d : LocationData)
    (lng lat : Q) :
  rq_validationErrors req = [] ->
  rq_user req = Some u ->
  well_formed_draft req u ->
  parse_location JSON_parse (rq_location req) = Success 200 (Some d) ->
  ld_coordinates d = Some [lng; lat] ->
  geo_valid [lng; lat] = true ->
  ld_address d = None \/ ld_address d = Some "" ->
  exists issue,
    createIssue JSON_parse now req st = (Success 201 issue, st ++ [issue])
    /\ address (location issue) = "Address not specified"
    /\ coordinates (location issue) = [lng; lat].
Proof.
  intros Herr Huser Hwf Hparse Hcoord Hgeo Haddr.
  assert (is_Some (rq_category req)) as Hcat.
  { destruct Hwf as (_ & _ & _ & Hc & _).
    destruct (rq_category req); [by eexists|]. simpl in Hc.
    unfold category_enum in Hc.
    repeat (apply elem_of_cons in Hc as [Hc | Hc]; [discriminate|]).
    by apply elem_of_nil in Hc. }
  pose proof (well_formed_draft_valid req u Hwf Hcat) as Hvalid.
  unfold createIssue. rewrite Herr, Hparse, Huser. simpl.
  unfold derive_coordinates. rewrite Hcoord.
  destruct d as [co ad ci sa pi la ln]. simpl in *. subst co.
  rewrite Hvalid, Hgeo. simpl. eexists. split; [reflexivity|]. simpl.
  split; [|done]. by destruct Haddr as [-> | ->].
Qed.

Lemma missing_address_gets_placeholder_witness :
  exists issue,
    createIssue Sample.no_json 1000 (Sample.pothole Sample.citizen) []
      = (Success 201 issue, [issue])
    /\ address (location issue) = "Address not specified".
Proof.
  destruct (missing_address_gets_placeholder Sample.no_json 1000
              (Sample.pothole Sample.citizen) [] Sample.citizen Sample.crossing
              (77209 # 1000) (28614 # 1000))
    as (issue & Hcreate & Haddr & _).
  - reflexivity.
  - reflexivity.
  - unfold well_formed_draft, category_enum, priority_enum. simpl.
    repeat split; try discriminate.
    + rewrite list_elem_of_In. simpl. tauto.
    + rewrite list_elem_of_In. simpl. tauto.
  - reflexivity.
  - reflexivity.
  - reflexivity.
  - left. reflexivity.
  - exists issue. split; [exact Hcreate | exact Haddr].
Defined.

Example empty_address_replaced :
  (fun i => address (location i)) <$>
    findById 1
      (createIssue (fun _ => Some Sample.crossing) 1000
         {| rq_user := Some Sample.citizen; rq_validationErrors := [];
            rq_title := Some "Dark street"; rq_description := Some "Lamp is out";
            rq_category := Some "Street Lighting";
            rq_location := LocString " {coordinates:[77.209,28.614]}";
            rq_priority := Some "high"; rq_images := [];
            rq_latitude := Falsy; rq_lat := Falsy; rq_longitude := Falsy;
            rq_lng := Falsy; rq_long := Falsy |} []).2
  = Some "Address not specified".
Proof. vm_compute. reflexivity. Qed.

Example plain_address_without_coordinates_rejected :
  (createIssue Sample.no_json 1000
     {| rq_user := Some Sample.citizen; rq_validationErrors := [];
        rq_title := Some "Dark street"; rq_description := Some "Lamp is out";
        rq_category := Some "Street Lighting";
        rq_location := LocString "12 Main Road";
        rq_priority := Some "high"; rq_images := [];
        rq_latitude := Falsy; rq_lat := Falsy; rq_longitude := Falsy;
        rq_lng := Falsy; rq_long := Falsy |} []).1
  = Failure 400 "Location coordinates required (lng,lat)".
Proof. vm_compute. reflexivity. Qed.

(** ** Reading one issue *)




(** ** Listings *)

(** No clause of the filter reads [mergedInto]: a merged report matches a
    query exactly when it would unmerged. *)
Lemma matches_ignores_mergedInto (ql : QueryLayer) (q : ListQuery)
    (canonical : IssueId) (i : Issue) :
  matches ql (build_filter q) (merged_into canonical i)
  = matches ql (build_filter q) i.
Proof. reflexivity. Qed.

(** The full listing shows every stored issue, merged or not. *)
Lemma getAllIssuesFull_lists_all (user : option User) (st : Store) (d : Issue) :
  is_government user = true -> d ∈ st ->
  exists data,
    getAllIssuesFull user st = Success 200 data /\ summary d ∈ data.
Proof.
  intros Hgov Hin. unfold getAllIssuesFull. rewrite Hgov. simpl.
  eexists. split; [done|].
  apply list_elem_of_In, in_map, list_elem_of_In.
  unfold sort_by. by rewrite merge_sort_Permutation.
Qed.

(** C4 fails on the code: with a report merged into another one in the
    collection, the full listing and the paginated listing of a government
    user both show the merged report. *)
Theorem listings_show_merged_report (ql : QueryLayer) :
  exists first dup,
    Sample.merged_reports = [first; dup]
    /\ mergedInto dup = Some (_id first)
    /\ getAllIssuesFull (Some Sample.officer) Sample.merged_reports
       = Success 200 [summary dup; summary first]
    /\ getAllIssues ql (Some Sample.officer) Sample.no_query Sample.merged_reports
       = Success 200
           {| docs := [dup; first]; totalDocs := 2; page := JS.Int 1;
              totalPages := 1; limit := 10 |}.
Proof.
  eexists _, _. split; [vm_compute; reflexivity|].
  split; [reflexivity|]. split; vm_compute; reflexivity.
Qed.

(** [parseInt] reads a decimal numeral, whatever follows it. *)

Lemma append_cons c s r : String c s +:+ r = String c (s +:+ r).
Proof. reflexivity. Qed.

Lemma rev_string_acc (acc s : string) :
  JS.rev_string acc s = JS.rev_string "" s +:+ acc.
Proof.
  revert acc. induction s as [|c s IH]; intros acc; [done|].
  cbn [JS.rev_string]. rewrite (IH (String c acc)), (IH (String c "")).
  generalize (JS.rev_string "" s). intros t.
  induction t as [|a t IHt]; [done|]. rewrite !append_cons. by f_equal.
Qed.

Lemma append_nil_r (s : string) : s +:+ "" = s.
Proof. induction s as [|c s IH]; [done|]. rewrite append_cons. by f_equal. Qed.

Lemma append_assoc (a b c : string) : (a +:+ b) +:+ c = a +:+ (b +:+ c).
Proof. induction a as [|x a IH]; [done|]. rewrite !append_cons. by f_equal. Qed.


Ltac eval_char f :=
  repeat match goal with
  | |- context [f ?c] =>
      let v := eval vm_compute in (f c) in
      progress change (f c) with v
  end.

Lemma read_digits_end acc rest :
  ends_numeral rest -> JS.read_digits 10 acc rest = acc.
Proof. destruct rest as [|c r]; [done|]. simpl. by intros [-> _]. Qed.

Lemma read_digits_uint (d : Decimal.uint) (a : nat) (rest : string) :
  ends_numeral rest ->
  JS.read_digits 10 (Some (Z.of_nat a)) (NilEmpty.string_of_uint d +:+ rest)
  = Some (Z.of_nat (Nat.of_uint_acc d a)).
Proof.
  intros Hrest. revert a.
  induction d as [|d IH|d IH|d IH|d IH|d IH|d IH|d IH|d IH|d IH|d IH]; intros a;
    [by apply read_digits_end|..];
    cbn [NilEmpty.string_of_uint Nat.of_uint_acc]; rewrite append_cons;
    cbn [JS.read_digits]; eval_char (JS.digit_of 10); cbv iota;
    rewrite <- IH; do 2 f_equal;
    rewrite ?Nat2Z.inj_succ, Nat.tail_mul_spec, Nat2Z.inj_mul; simpl Z.of_nat; lia.
Qed.

Lemma to_uint_not_Nil n : Nat.to_uint n <> Decimal.Nil.
Proof.
  intros E. pose proof (Unsigned.of_to n) as H. rewrite E in H.
  subst n. discriminate E.
Qed.

Lemma strip_hex_numeral (d : Decimal.uint) (rest : string) :
  ends_numeral rest ->
  JS.strip_hex (String "0" (NilEmpty.string_of_uint d +:+ rest)) = None.
Proof.
  intros Hrest. destruct d; cbn [NilEmpty.string_of_uint];
    rewrite ?append_cons; try reflexivity.
  destruct rest as [|c r]; [reflexivity|].
  destruct Hrest as (_ & Hx & HX).
  change (EmptyString +:+ String c r) with (String c r).
  destruct c as [[] [] [] [] [] [] [] []]; try reflexivity; congruence.
Qed.

(** An integer of at most 53 bits is a number as it is. *)
Lemma nearest_double_small (n : Z) :
  0 <= n <= 2 ^ 53 -> JS.nearest_double n = n.
Proof.
  intros Hn. unfold JS.nearest_double.
  destruct (decide (n = 2 ^ 53)) as [->|Hne]; [reflexivity|].
  assert (Z.log2 n - 52 <= 0) as He.
  { destruct (decide (n = 0)) as [->|H0]; [simpl; lia|].
    assert (Z.log2 n < 53) by (apply Z.log2_lt_pow2; lia). lia. }
  apply Z.leb_le in He. by rewrite He.
Qed.

Lemma to_number_small (z : Z) :
  - 2 ^ 53 <= z <= 2 ^ 53 -> JS.to_number z = JS.Int z.
Proof.
  intros Hz. unfold JS.to_number.
  rewrite nearest_double_small by lia.
  assert (2 ^ 53 < 2 ^ 1024) by (apply Z.pow_lt_mono_r; lia).
  assert (2 ^ 1024 <=? Z.abs z = false) as -> by (apply Z.leb_gt; lia).
  f_equal. lia.
Qed.

Lemma nearest_double_pos (n : Z) : 0 < n -> 0 < JS.nearest_double n.
Proof.
  intros Hn. unfold JS.nearest_double.
  destruct (Z.leb_spec (Z.log2 n - 52) 0) as [_|He]; [done|].
  set (e := Z.log2 n - 52) in *.
  rewrite !Z.shiftl_mul_pow2, Z.shiftr_div_pow2 by lia.
  assert (0 < 2 ^ e) as Hpow by (apply Z.pow_pos_nonneg; lia).
  assert (2 ^ e <= n) as Hle.
  { etrans; [apply (Z.pow_le_mono_r 2 e (Z.log2 n)); lia|].
    by apply Z.log2_spec. }
  assert (1 <= n / 2 ^ e) as Hq by (apply Z.div_le_lower_bound; lia).
  destruct (_ || _); nia.
Qed.

(** What [parseInt(radius) || 5000] makes of a number. *)
Lemma maxDistance_number (n : nat) :
  match JS.to_number (Z.of_nat n) with
  | JS.NaN => JS.Int 5000
  | JS.Int r => if r =? 0 then JS.Int 5000 else JS.Int r
  | JS.Infinity negative => JS.Infinity negative
  end
  = if Nat.eqb n 0 then JS.Int 5000 else JS.to_number (Z.of_nat n).
Proof.
  destruct (Nat.eqb_spec n 0) as [->|Hn]; [reflexivity|].
  unfold JS.to_number. rewrite Z.abs_eq, Z.sgn_pos, Z.mul_1_l by lia.
  pose proof (nearest_double_pos (Z.of_nat n)) as Hpos.
  destruct (2 ^ 1024 <=? _); [done|].
  destruct (Z.eqb_spec (JS.nearest_double (Z.of_nat n)) 0); [lia | done].
Qed.

Lemma parseInt_decimal_prefix (n : nat) (rest : string) :
  ends_numeral rest ->
  JS.parseInt (decimal n +:+ rest) = JS.to_number (Z.of_nat n).
Proof.
  intros Hrest. unfold decimal.
  rewrite <- (Unsigned.of_to n) at 2.
  pose proof (to_uint_not_Nil n) as Hnil.
  destruct (Nat.to_uint n) as [|d|d|d|d|d|d|d|d|d|d]; [done|..];
    unfold JS.parseInt, Nat.of_uint;
    cbn [NilEmpty.string_of_uint Nat.of_uint_acc]; rewrite append_cons;
    cbn [JS.skip_spaces]; eval_char JS.is_space; cbv iota;
    [rewrite strip_hex_numeral by done | cbn [JS.strip_hex] ..];
    cbn [JS.read_digits]; eval_char (JS.digit_of 10); cbv iota;
    match goal with
    | |- context [JS.read_digits 10 (Some ?z)] =>
        change z with (Z.of_nat (Z.to_nat z))
    end;
    rewrite read_digits_uint by done; rewrite Z.mul_1_l; reflexivity.
Qed.

Example decimal_25 : decimal 25 = "25".
Proof. reflexivity. Qed.

(** A string that begins with neither white space, a sign nor a decimal
    digit is no number for [parseInt]. *)
Lemma parseInt_not_a_numeral (c : ascii) (rest : string) :
  JS.is_space c = false -> c <> "-"%char -> c <> "+"%char ->
  JS.digit_of 10 c = None ->
  JS.parseInt (String c rest) = JS.NaN.
Proof.
  intros Hsp Hm Hp Hd. unfold JS.parseInt. simpl. rewrite Hsp.
  assert (c <> "0"%char) as H0 by (intros ->; discriminate).
  destruct c as [[] [] [] [] [] [] [] []]; try congruence;
    simpl; unfold JS.digit_of in *; simpl in *; try congruence;
    by rewrite ?Hd.
Qed.

(** What the plugin reads from a number below 10^21. *)
Lemma parseInt_number_small (z : Z) :
  Z.abs z < 10 ^ 21 -> JS.parseInt_number (JS.Int z) = JS.Int z.
Proof. intros H. unfold JS.parseInt_number. apply Z.ltb_lt in H. by rewrite H. Qed.

Lemma first_digit_range (n : Z) : 0 <= JS.first_digit n <= 9.
Proof. unfold JS.first_digit. destruct (Pos.to_uint _); lia. Qed.

Lemma plugin_limit_small (lim : Z) :
  1 <= lim < 10 ^ 21 -> plugin_limit (JS.Int lim) = lim.
Proof.
  intros H. unfold plugin_limit. rewrite parseInt_number_small by lia.
  assert (0 <? lim = true) as -> by (apply Z.ltb_lt; lia). done.
Qed.

Lemma plugin_page_small (pg : Z) :
  1 <= pg < 10 ^ 21 -> plugin_page (JS.Int pg) = JS.Int pg.
Proof.
  intros H. unfold plugin_page. rewrite parseInt_number_small by lia.
  assert (pg <? 1 = false) as -> by (apply Z.ltb_ge; lia). done.
Qed.

(** The plugin never takes more than the limit it is given. *)
Lemma plugin_limit_le (lim : Z) : 1 <= lim -> 0 <= plugin_limit (JS.Int lim) <= lim.
Proof.
  intros H. unfold plugin_limit, JS.parseInt_number.
  destruct (Z.abs lim <? 10 ^ 21) eqn:E.
  - destruct (0 <? lim); lia.
  - apply Z.ltb_ge in E.
    pose proof (first_digit_range (JS.shortest_digits (Z.abs lim))).
    assert (Z.sgn lim = 1) as -> by (apply Z.sgn_pos; lia).
    destruct (0 <? 1 * _); lia.
Qed.




Example radius_defaults_to_5000 :
  near_clause (Some "77.2,28.6") = Some ("77.2", "28.6", JS.Int 5000)
  /\ near_clause (Some "77.2,28.6,wide") = Some ("77.2", "28.6", JS.Int 5000)
  /\ near_clause (Some "77.2,28.6,250") = Some ("77.2", "28.6", JS.Int 250).
Proof. repeat split. Qed.

(** * Further properties of the handlers *)

(** ** Creating an issue *)

(** X1: [createIssue] either stores one new issue, answering 201 with it,
    or answers 400 or 500 and leaves the collection as it was. *)
Theorem createIssue_stores_or_rejects
    (JSON_parse : string -> option LocationData) (now : Date)
    (req : CreateRequest) (st : Store) :
  match createIssue JSON_parse now req st with
  | (Success c i, st') =>
      c = 201%nat /\ st' = st ++ [i] /\ findById (_id i) st' = Some i
      /\ createdAt i = now /\ status i = Some "pending" /\ votes i = 0
  | (Failure c m, st') => st' = st /\ (c = 400%nat \/ c = 500%nat)
  end.
Proof.
  destruct (createIssue JSON_parse now req st) as [[c i|c m] st'] eqn:H.
  - pose proof (createIssue_success _ _ _ _ _ _ _ H)
      as (-> & -> & Hid & _ & _ & Hs & Hv & _ & Hc & _).
    repeat split; try done.
    eapply createIssue_found; eassumption.
  - unfold createIssue in H.
    repeat (case_match; try discriminate); simplify_eq; auto.
    unfold parse_location in *.
    repeat (case_match; try discriminate); simplify_eq; auto.
Qed.

(** X2: without a location in the body the draft is rejected with 400,
    also when latitude and longitude are sent as fields of their own. *)
Theorem createIssue_needs_location
    (JSON_parse : string -> option LocationData) (now : Date)
    (req : CreateRequest) (st : Store) :
  rq_validationErrors req = [] ->
  rq_location req = LocAbsent \/ rq_location req = LocString "" ->
  createIssue JSON_parse now req st
  = (Failure 400 "Location coordinates required (lng,lat)", st).
Proof.
  intros Herr Hloc. unfold createIssue. rewrite Herr.
  by destruct Hloc as [-> | ->].
Qed.

Lemma createIssue_needs_location_witness :
  createIssue Sample.no_json 1000
    {| rq_user := Some Sample.citizen; rq_validationErrors := [];
       rq_title := Some "Pothole";
       rq_description := Some "Deep pothole at the crossing";
       rq_category := Some "Roads & Infrastructure";
       rq_location := LocAbsent; rq_priority := None; rq_images := [];
       rq_latitude := Parsed (28614 # 1000); rq_lat := Falsy;
       rq_longitude := Parsed (77209 # 1000); rq_lng := Falsy;
       rq_long := Falsy |} []
  = (Failure 400 "Location coordinates required (lng,lat)", []).
Proof.
  apply createIssue_needs_location; [reflexivity | left; reflexivity].
Defined.

(** X3: when the location carries no coordinate array and the body has a
    latitude and a longitude of its own, the issue is stored with the
    coordinates in the order longitude, latitude, whatever [lat] and [lng]
    the location object holds. *)
Theorem coordinates_from_body_fields
    (JSON_parse : string -> option LocationData) (now : Date)
    (req : CreateRequest) (st : Store) (u : User) (d : LocationData)
    (latNum lngNum : Q) :
  rq_validationErrors req = [] ->
  rq_user req = Some u ->
  well_formed_draft req u ->
  parse_location JSON_parse (rq_location req) = Success 200 (Some d) ->
  ld_coordinates d = None ->
  raw_or (rq_latitude req) (rq_lat req) = Parsed latNum ->
  raw_or (rq_longitude req) (raw_or (rq_lng req) (rq_long req)) = Parsed lngNum ->
  geo_valid [lngNum; latNum] = true ->
  exists issue,
    createIssue JSON_parse now req st = (Success 201 issue, st ++ [issue])
    /\ coordinates (location issue) = [lngNum; latNum]
    /\ address (location issue) = JS.or_else (ld_address d) "Address not specified".
Proof.
  intros Herr Huser Hwf Hparse Hcoord Hlat Hlng Hgeo.
  assert (is_Some (rq_category req)) as Hcat.
  { destruct Hwf as (_ & _ & _ & Hc & _).
    destruct (rq_category req); [by eexists|]. simpl in Hc.
    unfold category_enum in Hc.
    repeat (apply elem_of_cons in Hc as [Hc | Hc]; [discriminate|]).
    by apply elem_of_nil in Hc. }
  pose proof (well_formed_draft_valid req u Hwf Hcat) as Hvalid.
  unfold createIssue. rewrite Herr, Hparse, Huser, Hlat, Hlng. simpl.
  unfold derive_coordinates. rewrite Hcoord.
  destruct d as [co ad ci sa pi la ln]. simpl in *.
  rewrite Hvalid, Hgeo. simpl. by eexists.
Qed.

Lemma coordinates_from_body_fields_witness :
  exists issue,
    createIssue Sample.no_json 1000 Scenario.street_lamp [] = (Success 201 issue, [issue])
    /\ coordinates (location issue) = [77209 # 1000; 28614 # 1000]%Q
    /\ address (location issue) = "12 Main Road".
Proof.
  destruct (coordinates_from_body_fields Sample.no_json 1000 Scenario.street_lamp
              [] Sample.citizen
              {| ld_coordinates := None; ld_address := Some "12 Main Road";
                 ld_city := None; ld_state := None; ld_pincode := None;
                 ld_lat := Falsy; ld_lng := Falsy |}
              (28614 # 1000) (77209 # 1000))
    as (issue & Hcreate & Hco & Haddr).
  - reflexivity.
  - reflexivity.
  - unfold well_formed_draft, category_enum, priority_enum. simpl.
    repeat split; try discriminate.
    + rewrite list_elem_of_In. simpl. tauto.
    + rewrite list_elem_of_In. simpl. tauto.
  - reflexivity.
  - reflexivity.
  - reflexivity.
  - reflexivity.
  - reflexivity.
  - exists issue. split; [exact Hcreate|]. split; [exact Hco | exact Haddr].
Defined.

(** ** The estimate *)

(** The base hours of a category that names no inherited member. *)
Lemma base_hours_cases (category : string) :
  category ∉ Object_prototype_keys ->
  number_or (get_property baseHours category) 48
    ∈ [Some 12%Q; Some 24%Q; Some 48%Q; Some 72%Q].
Proof.
  intros Hkey. unfold get_property, baseHours, own_property.
  repeat match goal with
  | |- context [String.eqb ?k category] =>
      destruct (String.eqb k category); [simpl; set_solver|]
  end.
  rewrite bool_decide_eq_false_2 by done. simpl. set_solver.
Qed.

(** X4: for a category that names no inherited member, the estimates for
    the four priorities are ordered, urgent the shortest and low the
    longest, all between 3 and 108 hours; the estimate for medium is the
    base time of the category, and low takes six times as long as
    urgent. *)
Theorem estimate_grows_as_priority_falls (category : string) :
  category ∉ Object_prototype_keys ->
  exists hu hh hm hl,
    calculateEstimatedResolutionTime (Some category) (Some "urgent") = Some hu
    /\ calculateEstimatedResolutionTime (Some category) (Some "high") = Some hh
    /\ calculateEstimatedResolutionTime (Some category) (Some "medium") = Some hm
    /\ calculateEstimatedResolutionTime (Some category) (Some "low") = Some hl
    /\ 3 <= hu /\ hu <= hh /\ hh <= hm /\ hm <= hl /\ hl <= 108
    /\ hl = 6 * hu
    /\ number_or (get_property baseHours category) 48 = Some (inject_Z hm).
Proof.
  intros Hkey. pose proof (base_hours_cases category Hkey) as Hb.
  unfold calculateEstimatedResolutionTime. simpl key_of.
  repeat (apply elem_of_cons in Hb as [-> | Hb]);
    [..| by apply elem_of_nil in Hb];
    eexists _, _, _, _; repeat split; vm_compute; congruence.
Qed.

Lemma estimate_grows_as_priority_falls_witness :
  calculateEstimatedResolutionTime (Some "Water Supply") (Some "urgent") = Some 12
  /\ calculateEstimatedResolutionTime (Some "Water Supply") (Some "low") = Some 72.
Proof.
  destruct (estimate_grows_as_priority_falls "Water Supply")
    as (hu & hh & hm & hl & Hu & _ & _ & Hl & _).
  - apply (bool_decide_eq_false_1 ("Water Supply" ∈ Object_prototype_keys)).
    vm_compute. reflexivity.
  - split; reflexivity.
Defined.

(** X5: a priority that is neither one of the four nor an inherited
    member name, a missing priority included, is estimated like
    'medium'. *)
Theorem unknown_priority_estimated_as_medium
    (category : option string) (priority : option string) :
  key_of priority ∉ ["urgent"; "high"; "medium"; "low"] ->
  key_of priority ∉ Object_prototype_keys ->
  calculateEstimatedResolutionTime category priority
  = calculateEstimatedResolutionTime category (Some "medium").
Proof.
  intros Hp Hkey. unfold calculateEstimatedResolutionTime.
  assert (get_property priorityMultiplier (key_of priority) = Undefined) as ->.
  { unfold get_property, priorityMultiplier, own_property.
    repeat match goal with
    | |- context [String.eqb ?k (key_of priority)] =>
        let E := fresh "E" in
        destruct (String.eqb k (key_of priority)) eqn:E;
        [apply String.eqb_eq in E; rewrite <- E in Hp; set_solver|]
    end.
    by rewrite bool_decide_eq_false_2. }
  reflexivity.
Qed.

Lemma unknown_priority_estimated_as_medium_witness :
  calculateEstimatedResolutionTime (Some "Public Safety") None = Some 12
  /\ calculateEstimatedResolutionTime (Some "Public Safety") (Some "critical")
     = Some 12.
Proof.
  split.
  - rewrite (unknown_priority_estimated_as_medium (Some "Public Safety") None).
    + reflexivity.
    + apply (bool_decide_eq_false_1 ("undefined" ∈ ["urgent"; "high"; "medium"; "low"])).
      vm_compute. reflexivity.
    + apply (bool_decide_eq_false_1 ("undefined" ∈ Object_prototype_keys)).
      vm_compute. reflexivity.
  - rewrite (unknown_priority_estimated_as_medium (Some "Public Safety")
               (Some "critical")).
    + reflexivity.
    + apply (bool_decide_eq_false_1 ("critical" ∈ ["urgent"; "high"; "medium"; "low"])).
      vm_compute. reflexivity.
    + apply (bool_decide_eq_false_1 ("critical" ∈ Object_prototype_keys)).
      vm_compute. reflexivity.
Defined.

(** ** What the requests keep *)

Section Runs.

Variable JSON_parse : string -> option LocationData.

Implicit Types (st : Store) (i : Issue) (id : IssueId) (r : Request).

Lemma save_ids i st : _id <$> save i st = _id <$> st.
Proof.
  unfold save. induction st as [|d st IH]; [done|].
  cbn [List.map]. rewrite !fmap_cons, IH. f_equal.
  destruct (Nat.eqb (_id d) (_id i)) eqn:E; [|done].
  by apply Nat.eqb_eq in E.
Qed.

(** The three things a request can do to the collection. *)
Lemma serve_store r st :
  serve JSON_parse r st = st
  \/ (exists i, serve JSON_parse r st = st ++ [i] /\ _id i = fresh_id st)
  \/ (exists i, serve JSON_parse r st = save i st).
Proof.
  destruct r as [now req | user id0 | now user id0 dep off com
                | now user id0 s com res | user id0]; simpl.
  - destruct (createIssue JSON_parse now req st) as [[c i|c m] st'] eqn:H.
    + apply createIssue_success in H as (_ & -> & Hid & _). right. left. eauto.
    + destruct (createIssue_store JSON_parse now req st) as [Hs | [i Hs]];
        rewrite H in Hs; [by left | discriminate].
  - unfold getIssueById. repeat case_match; simpl; eauto.
  - unfold assignIssue. repeat case_match; simpl; eauto.
  - unfold updateIssueStatus. repeat case_match; simpl; eauto.
  - unfold voteOnIssue. repeat case_match; simpl; eauto.
Qed.

Lemma fresh_id_not_stored st : fresh_id st ∉ (_id <$> st).
Proof.
  intros Hin. apply list_elem_of_fmap in Hin as (i & Hid & Hin).
  apply list_elem_of_In, fresh_id_above in Hin. lia.
Qed.

(** X6: no request removes or renumbers a stored issue: after any
    sequence of requests the identifiers stored before are still there, in
    their order, followed by those of the issues created since; and
    identifiers that were distinct stay distinct. *)
Theorem requests_keep_identifiers (rs : list Request) (st : Store) :
  (_id <$> st) `prefix_of` (_id <$> run JSON_parse rs st)
  /\ (NoDup (_id <$> st) -> NoDup (_id <$> run JSON_parse rs st)).
Proof.
  revert st. induction rs as [|r rs IH]; intros st; simpl; [done|].
  destruct (IH (serve JSON_parse r st)) as [Hpre Hnd].
  destruct (serve_store r st) as [Hs | [(i & Hs & Hid) | (i & Hs)]];
    rewrite Hs in *.
  - done.
  - rewrite fmap_app in *. simpl in *. split.
    + etrans; [|exact Hpre]. by apply prefix_app_r.
    + intros H. apply Hnd. apply NoDup_app. split; [done|].
      split; [|apply NoDup_singleton].
      intros x Hx ->%list_elem_of_singleton. rewrite Hid in Hx.
      by apply fresh_id_not_stored in Hx.
  - by rewrite save_ids in *.
Qed.

(** X7: a request leaves every issue other than the one it addresses as
    it is stored; a creation leaves all stored issues as they are. *)
Theorem request_touches_its_issue_only r st id i :
  findById id st = Some i ->
  target r <> Some id ->
  findById id (serve JSON_parse r st) = Some i.
Proof.
  intros Hi Hne.
  destruct r as [now req | user id0 | now user id0 dep off com
                | now user id0 s com res | user id0]; simpl in *.
  - destruct (createIssue_store JSON_parse now req st) as [-> | [i0 ->]]; [done|].
    simpl. by apply findById_app.
  - unfold getIssueById. destruct (findById id0 st) as [i0|] eqn:H0; [|done].
    destruct (is_reporter user i0); [|done]. simpl.
    rewrite findById_save_other; [done|].
    apply findById_id in H0. unfold notifications_read. simpl. congruence.
  - unfold assignIssue. destruct user as [u|]; [|done].
    destruct (negb _); [done|].
    destruct (findById id0 st) as [i0|] eqn:H0; [|done].
    destruct off; simpl; try done;
      (rewrite findById_save_other; [done|]);
      apply findById_id in H0; unfold assigned; simpl; congruence.
  - unfold updateIssueStatus. destruct user as [u|]; [|done].
    destruct (negb _); [done|].
    destruct (findById id0 st) as [i0|] eqn:H0; [|done].
    destruct (valid_status s); [|done]. simpl.
    rewrite findById_save_other; [done|].
    apply findById_id in H0. rewrite status_updated_id. congruence.
  - unfold voteOnIssue. destruct (findById id0 st) as [i0|] eqn:H0; [|done].
    destruct user as [u|]; [|done]. simpl.
    rewrite findById_save_other; [done|].
    apply findById_id in H0. rewrite toggle_vote_id. congruence.
Qed.

End Runs.

Lemma requests_keep_identifiers_witness :
  _id <$> run Sample.no_json
            (Sample.triage ++ [ReqCreate 9900 (Sample.pothole Sample.neighbour)])
            Sample.one_report
  = [1; 2]%nat.
Proof.
  destruct (requests_keep_identifiers Sample.no_json
              (Sample.triage ++ [ReqCreate 9900 (Sample.pothole Sample.neighbour)])
              Sample.one_report) as [_ Hnd].
  assert (NoDup (_id <$> Sample.one_report)) as H
    by (apply NoDup_singleton).
  apply Hnd in H. vm_compute. reflexivity.
Defined.

Lemma request_touches_its_issue_only_witness :
  findById 1
    (serve Sample.no_json (ReqVote (Some Sample.citizen) 2) Sample.two_reports)
  = findById 1 Sample.two_reports.
Proof.
  destruct (findById 1 Sample.two_reports) as [i|] eqn:H.
  - apply (request_touches_its_issue_only Sample.no_json
             (ReqVote (Some Sample.citizen) 2) Sample.two_reports 1 i H).
    simpl. discriminate.
  - vm_compute in H. discriminate H.
Defined.


(** ** What the requests keep of one issue *)

(** The fields no handler assigns to, and the two logs, across one step. *)
Lemma issue_step_keeps i i' :
  issue_step i i' ->
  i' = mutate i (assignedTo i') (status i') (votes i') (voters i')
         (statusHistory i') (notifications i') (actualResolutionTime i')
         (resolutionDetails i')
  /\ statusHistory i `prefix_of` statusHistory i'
  /\ (n_message <$> notifications i) `prefix_of` (n_message <$> notifications i').
Proof.
  intros Hstep. destruct Hstep as [i | u i | i | now u dep off com i Hoff
                                  | now u s com res i Hs].
  - by destruct i.
  - destruct i. unfold toggle_vote. by case_bool_decide.
  - destruct i. unfold notifications_read. simpl. repeat split; try done.
    change (List.map mark_read) with (fmap (M:=list) mark_read).
    by rewrite <- list_fmap_compose.
  - destruct i. unfold assigned. simpl. repeat split; try done.
    + by apply prefix_app_r.
    + rewrite fmap_app. by apply prefix_app_r.
  - destruct i. unfold status_updated.
    destruct (JS.strict_eq s "resolved"); simpl; (repeat split; try done);
      try (by apply prefix_app_r);
      rewrite fmap_app; by apply prefix_app_r.
Qed.

Lemma issue_steps_keep i i' :
  rtc issue_step i i' ->
  i' = mutate i (assignedTo i') (status i') (votes i') (voters i')
         (statusHistory i') (notifications i') (actualResolutionTime i')
         (resolutionDetails i')
  /\ statusHistory i `prefix_of` statusHistory i'
  /\ (n_message <$> notifications i) `prefix_of` (n_message <$> notifications i').
Proof.
  induction 1 as [i | i j k Hstep _ (IH1 & IH2 & IH3)].
  - by destruct i.
  - destruct (issue_step_keeps _ _ Hstep) as (H1 & H2 & H3).
    repeat split.
    + rewrite IH1, H1 at 1. reflexivity.
    + by etrans.
    + by etrans.
Qed.

Section Histories.

Variable JSON_parse : string -> option LocationData.

(** X8: no sequence of requests edits what was reported: the title, the
    description, the category, the location, the images, the reporter,
    the priority, the estimate, the creation instant and the clustering
    fields of a stored issue stay as they are. *)
Theorem requests_keep_the_report (rs : list Request) (st : Store)
    (id : IssueId) (i : Issue) :
  findById id st = Some i ->
  exists i',
    findById id (run JSON_parse rs st) = Some i'
    /\ title i' = title i /\ description i' = description i
    /\ category i' = category i /\ location i' = location i
    /\ images i' = images i /\ reportedBy i' = reportedBy i
    /\ priority i' = priority i
    /\ estimatedResolutionTime i' = estimatedResolutionTime i
    /\ createdAt i' = createdAt i
    /\ mergedInto i' = mergedInto i /\ duplicates i' = duplicates i
    /\ reporters i' = reporters i.
Proof.
  intros Hi. destruct (run_steps JSON_parse rs st id i Hi) as (i' & H' & Hsteps).
  exists i'. split; [done|].
  destruct (issue_steps_keep _ _ Hsteps) as (-> & _). by repeat split.
Qed.

(** X9: the status history and the notifications of a stored issue only
    grow: after any sequence of requests the earlier history is a prefix
    of the later one, entry for entry, and so are the messages of the
    notifications. *)
Theorem logs_are_append_only (rs : list Request) (st : Store)
    (id : IssueId) (i : Issue) :
  findById id st = Some i ->
  exists i',
    findById id (run JSON_parse rs st) = Some i'
    /\ statusHistory i `prefix_of` statusHistory i'
    /\ (n_message <$> notifications i) `prefix_of` (n_message <$> notifications i').
Proof.
  intros Hi. destruct (run_steps JSON_parse rs st id i Hi) as (i' & H' & Hsteps).
  exists i'. split; [done|].
  by destruct (issue_steps_keep _ _ Hsteps) as (_ & ? & ?).
Qed.

(** An invariant of the steps that holds of a new issue holds of it after
    every sequence of requests. *)
Lemma created_issue_invariant (P : Issue -> Prop) :
  (forall now req st c i st',
     createIssue JSON_parse now req st = (Success c i, st') -> P i) ->
  (forall i i', issue_step i i' -> P i -> P i') ->
  forall now req st c i st' rs,
    createIssue JSON_parse now req st = (Success c i, st') ->
    exists i', findById (_id i) (run JSON_parse rs st') = Some i' /\ P i'.
Proof.
  intros Hinit Hstep now req st c i st' rs H.
  pose proof (Hinit _ _ _ _ _ _ H) as HP.
  pose proof (createIssue_success _ _ _ _ _ _ _ H) as (_ & -> & Hid & _).
  apply (run_invariant JSON_parse P Hstep rs (st ++ [i]) (_id i) i); [|done].
  eapply createIssue_found; eassumption.
Qed.

Lemma createIssue_unresolved now req st c i st' :
  createIssue JSON_parse now req st = (Success c i, st') ->
  actualResolutionTime i = None /\ resolutionDetails i = None
  /\ assignedTo i = None.
Proof.
  unfold createIssue. intros H.
  repeat (case_match; try discriminate); by simplify_eq.
Qed.

End Histories.

Lemma requests_keep_the_report_witness :
  exists i',
    findById 1 (run Sample.no_json (Sample.triage ++ Sample.ballots) Sample.one_report)
      = Some i'
    /\ title i' = "Pothole" /\ priority i' = "low"
    /\ estimatedResolutionTime i' = 108 /\ createdAt i' = 1000.
Proof.
  destruct (findById 1 Sample.one_report) as [i|] eqn:H;
    [|vm_compute in H; discriminate H].
  destruct (requests_keep_the_report Sample.no_json
              (Sample.triage ++ Sample.ballots) Sample.one_report 1 i H)
    as (i' & H' & Ht & _ & _ & _ & _ & _ & Hp & He & Hc & _).
  exists i'. split; [exact H'|].
  vm_compute in H. injection H as <-.
  rewrite Ht, Hp, He, Hc. repeat split; reflexivity.
Defined.

Lemma logs_are_append_only_witness :
  exists i',
    findById 1 (run Sample.no_json Sample.triage Sample.one_report) = Some i'
    /\ (se_status <$> take 1 (statusHistory i')) = [Some "pending"].
Proof.
  destruct (findById 1 Sample.one_report) as [i|] eqn:H;
    [|vm_compute in H; discriminate H].
  destruct (logs_are_append_only Sample.no_json Sample.triage
              Sample.one_report 1 i H) as (i' & H' & [k Hk] & _).
  exists i'. split; [exact H'|].
  vm_compute in H. injection H as <-. rewrite Hk. reflexivity.
Defined.

(** ** Invariants of a reported issue *)

Lemma step_resolution_recorded i i' :
  issue_step i i' -> resolution_recorded i -> resolution_recorded i'.
Proof.
  unfold resolution_recorded. intros Hstep [H1 H2].
  destruct Hstep as [i | u i | i | now u dep off com i Hoff
                    | now u s com res i Hs]; try done.
  - unfold toggle_vote. by case_bool_decide.
  - unfold assigned. simpl. rewrite fmap_app, elem_of_app. simpl.
    rewrite list_elem_of_singleton. split; [|done].
    split; [tauto|]. intros [?|?]; [tauto | discriminate].
  - unfold hydrate, status_updated.
    destruct (JS.strict_eq s "resolved") eqn:E; simpl.
    + destruct s as [s|]; [|discriminate]. simpl in E.
      apply String.eqb_eq in E as ->.
      rewrite fmap_app, elem_of_app. simpl. rewrite list_elem_of_singleton.
      split; split; eauto.
    + rewrite fmap_app, elem_of_app. simpl. rewrite list_elem_of_singleton.
      split; [|done]. split; [tauto|]. intros [?|Heq]; [tauto|].
      subst s. simpl in E. discriminate.
Qed.




Lemma filter_other_length (u : UserId) (l : list UserId) :
  NoDup l -> u ∈ l ->
  NoDup (filter (fun id => id ≠ u) l)
  /\ length l = S (length (filter (fun id => id ≠ u) l)).
Proof.
  intros Hnd Hin. split; [by apply NoDup_filter|].
  induction Hnd as [|x l Hx Hnd IH]; [by apply elem_of_nil in Hin|].
  destruct (decide (x = u)) as [->|Hne].
  - rewrite filter_cons_False by (intros H; by apply H). simpl. f_equal.
    clear IH Hin. induction l as [|y l IH]; [done|].
    apply not_elem_of_cons in Hx as [Hy Hx]. apply NoDup_cons in Hnd as [_ Hnd].
    rewrite filter_cons_True by done. simpl. f_equal. by apply IH.
  - rewrite filter_cons_True by done. simpl. f_equal. apply IH.
    by apply elem_of_cons in Hin as [->|Hin].
Qed.

Lemma step_voters_counted i i' :
  issue_step i i' -> voters_counted i -> voters_counted i'.
Proof.
  unfold voters_counted. intros Hstep [H1 H2].
  destruct Hstep as [i | u i | i | now u dep off com i Hoff
                    | now u s com res i Hs]; try done.
  - unfold toggle_vote. case_bool_decide as Hin; simpl.
    + destruct (filter_other_length u (voters i) H1 Hin) as [Hnd Hlen].
      split; [done|]. lia.
    + split.
      * apply NoDup_app. split; [done|]. split; [|apply NoDup_singleton].
        intros x Hx ->%list_elem_of_singleton. done.
      * rewrite length_app. simpl. lia.
  - unfold hydrate, status_updated. by destruct (JS.strict_eq s "resolved").
Qed.

Section Invariants.

Variable JSON_parse : string -> option LocationData.

(** X10: for an issue that [createIssue] has stored, after any sequence
    of requests, [actualResolutionTime] is set exactly when the status
    history holds an entry 'resolved', and [resolutionDetails] is set
    exactly when [actualResolutionTime] is. *)
Theorem resolution_time_set_iff_resolved
    (now : Date) (req : CreateRequest) (st st' : Store) (c : nat) (i : Issue)
    (rs : list Request) :
  createIssue JSON_parse now req st = (Success c i, st') ->
  exists i',
    findById (_id i) (run JSON_parse rs st') = Some i'
    /\ (is_Some (actualResolutionTime i')
          <-> Some "resolved" ∈ (se_status <$> statusHistory i'))
    /\ (is_Some (resolutionDetails i') <-> is_Some (actualResolutionTime i')).
Proof.
  apply (created_issue_invariant JSON_parse resolution_recorded);
    [|apply step_resolution_recorded].
  clear. intros now req st c i st' H.
  pose proof (createIssue_unresolved _ _ _ _ _ _ _ H) as (Ht & Hd & _).
  pose proof (createIssue_success _ _ _ _ _ _ _ H)
    as (_ & _ & _ & _ & _ & _ & _ & _ & _ & (e & He & Hse) & _).
  unfold resolution_recorded. rewrite Ht, Hd, He. simpl. rewrite Hse.
  split; [|done]. split; [by intros [? ?]|].
  intros Hin%list_elem_of_singleton. discriminate.
Qed.


(** X12: for an issue that [createIssue] has stored, after any sequence
    of requests, no user is twice among the voters, and [votes] is the
    length of [voters], hence never negative. *)
Theorem voters_distinct_and_counted
    (now : Date) (req : CreateRequest) (st st' : Store) (c : nat) (i : Issue)
    (rs : list Request) :
  createIssue JSON_parse now req st = (Success c i, st') ->
  exists i',
    findById (_id i) (run JSON_parse rs st') = Some i'
    /\ NoDup (voters i')
    /\ votes i' = Z.of_nat (length (voters i'))
    /\ 0 <= votes i'.
Proof.
  intros H.
  destruct (created_issue_invariant JSON_parse voters_counted) with
    (now := now) (req := req) (st := st) (c := c) (i := i) (st' := st') (rs := rs)
    as (i' & Hfind & Hnd & Hv); [|apply step_voters_counted|done|].
  - clear. intros now req st c i st' H.
    pose proof (createIssue_success _ _ _ _ _ _ _ H)
      as (_ & _ & _ & _ & _ & _ & Hv & Hvs & _).
    unfold voters_counted. rewrite Hv, Hvs. split; [constructor | done].
  - exists i'. repeat split; try done. lia.
Qed.

End Invariants.

Lemma resolution_time_set_iff_resolved_witness :
  exists i',
    findById 1
      (run Sample.no_json
         (Sample.triage ++
          [ReqUpdateStatus 9001000 (Some Sample.officer) 1 (Some "resolved") None None;
           ReqUpdateStatus 9002000 (Some Sample.officer) 1 (Some "closed") None None])
         Sample.one_report) = Some i'
    /\ status i' = Some "closed" /\ actualResolutionTime i' = Some 3.
Proof.
  edestruct (fun c i =>
               resolution_time_set_iff_resolved Sample.no_json 1000
                 (Sample.pothole Sample.citizen) [] Sample.one_report c i
                 (Sample.triage ++
                  [ReqUpdateStatus 9001000 (Some Sample.officer) 1 (Some "resolved") None None;
                   ReqUpdateStatus 9002000 (Some Sample.officer) 1 (Some "closed") None None]))
    as (i' & H & _); [vm_compute; reflexivity|].
  exists i'. split; [exact H|].
  vm_compute in H. injection H as <-. split; reflexivity.
Defined.


Lemma voters_distinct_and_counted_witness :
  exists i',
    findById 1 (run Sample.no_json Sample.ballots Sample.one_report) = Some i'
    /\ NoDup (voters i') /\ votes i' = Z.of_nat (length (voters i')).
Proof.
  edestruct (fun c i =>
               voters_distinct_and_counted Sample.no_json 1000
                 (Sample.pothole Sample.citizen) [] Sample.one_report c i
                 Sample.ballots)
    as (i' & H & Hnd & Hv & _); [vm_compute; reflexivity|].
  exists i'. split; [exact H|]. split; [exact Hnd | exact Hv].
Defined.

(** ** Answers of the handlers *)

(** X13: the answer to a vote tells the stored state: [votes] is the
    stored count, and [hasVoted] tells whether the user is among the
    stored voters after the vote, which is the opposite of before. *)
Theorem vote_answer_tells_stored_state
    (st : Store) (id : IssueId) (u : User) (issue : Issue) :
  findById id st = Some issue ->
  exists data issue',
    (voteOnIssue (Some u) id st).1 = Success 200 data
    /\ findById id (voteOnIssue (Some u) id st).2 = Some issue'
    /\ vd_votes data = votes issue'
    /\ (vd_hasVoted data = true <-> user_id u ∈ voters issue')
    /\ (user_id u ∈ voters issue' <-> user_id u ∉ voters issue).
Proof.
  intros Hfind. pose proof (voteOnIssue_stored st id u issue Hfind) as Hst.
  unfold voteOnIssue in *. rewrite Hfind in *. simpl in *.
  eexists _, _. split; [reflexivity|]. split; [exact Hst|]. simpl.
  split; [done|]. rewrite voter_after_toggle. split; [|done].
  rewrite negb_true_iff, bool_decide_eq_false. done.
Qed.

Lemma vote_answer_tells_stored_state_witness :
  (voteOnIssue (Some Sample.neighbour) 1 Sample.one_report).1
  = Success 200 {| vd_votes := 1; vd_hasVoted := true |}.
Proof.
  edestruct (fun issue =>
               vote_answer_tells_stored_state Sample.one_report 1
                 Sample.neighbour issue)
    as (data & issue' & Hd & _); [vm_compute; reflexivity|].
  vm_compute. reflexivity.
Defined.

(** A request for an issue that is not stored is answered with 404
    by the read, the assignment, the status update and the vote, and
    changes nothing. *)
Theorem unknown_issue_is_not_found
    (now : Date) (u : User) (id : IssueId) (st : Store)
    (department status' : option string) (officialId : RawId)
    (comment : option string) (resolutionInput : option ResolutionInput) :
  findById id st = None ->
  role u = "government" ->
  getIssueById (Some u) id st = (Failure 404 "Issue not found", st)
  /\ assignIssue now (Some u) id department officialId comment st
     = (Failure 404 "Issue not found", st)
  /\ updateIssueStatus now (Some u) id status' comment resolutionInput st
     = (Failure 404 "Issue not found", st)
  /\ (voteOnIssue (Some u) id st).2 = st
  /\ (voteOnIssue (Some u) id st).1 = Failure 404 "Issue not found".
Proof.
  intros Hnone Hrole.
  unfold getIssueById, assignIssue, updateIssueStatus, voteOnIssue.
  by rewrite Hnone, Hrole.
Qed.

Lemma unknown_issue_is_not_found_witness :
  updateIssueStatus 5000 (Some Sample.officer) 7 (Some "resolved") None None
    Sample.one_report
  = (Failure 404 "Issue not found", Sample.one_report).
Proof.
  apply (unknown_issue_is_not_found 5000 Sample.officer 7 Sample.one_report
           (Some "Roads") (Some "resolved") NoId None None); reflexivity.
Defined.

(** X15: a user whose role is not 'government' cannot assign an issue or
    update its status: both answer 403 and change nothing, whether or not
    the issue exists; the three government listings answer 403 to such a
    user and to a request without a user. *)
Theorem triage_is_for_government_only
    (ql : QueryLayer) (now : Date) (u : User) (id : IssueId) (st : Store)
    (department status' : option string) (officialId : RawId)
    (comment : option string) (resolutionInput : option ResolutionInput)
    (q : ListQuery) :
  role u <> "government" ->
  assignIssue now (Some u) id department officialId comment st
    = (Failure 403 "Access denied. Government officials only.", st)
  /\ updateIssueStatus now (Some u) id status' comment resolutionInput st
    = (Failure 403 "Access denied. Government officials only.", st)
  /\ (forall user, user = Some u \/ user = None ->
        getAllIssues ql user q st = Failure 403 "Forbidden"
        /\ getAllIssuesFull user st = Failure 403 "Forbidden"
        /\ getGovernmentOverview user st = Failure 403 "Forbidden").
Proof.
  intros Hrole. apply String.eqb_neq in Hrole.
  unfold assignIssue, updateIssueStatus. rewrite Hrole. simpl.
  split; [done|]. split; [done|].
  intros user [-> | ->];
    unfold getAllIssues, getAllIssuesFull, getGovernmentOverview; simpl;
    rewrite ?Hrole; done.
Qed.

Lemma triage_is_for_government_only_witness :
  updateIssueStatus 5000 (Some Sample.citizen) 1 (Some "resolved") None None
    Sample.one_report
  = (Failure 403 "Access denied. Government officials only.", Sample.one_report).
Proof.
  apply (triage_is_for_government_only Scenario.database
           5000 Sample.citizen 1 Sample.one_report (Some "Roads")
           (Some "resolved") NoId None None Sample.no_query).
  discriminate.
Defined.

(** X16: a status update with a value outside the schema's enum is
    answered with 500 and stores nothing; with a value of the enum, by a
    government user on a stored issue, it is answered with 200 and the
    issue is stored with that status, its former status named in the
    comment of the new history entry when no comment is sent. *)
Theorem status_update_validates_the_status
    (now : Date) (u : User) (id : IssueId) (st : Store) (issue : Issue)
    (status' : string) (resolutionInput : option ResolutionInput) :
  role u = "government" ->
  findById id st = Some issue ->
  (status' ∉ status_enum ->
     updateIssueStatus now (Some u) id (Some status') None resolutionInput st
     = (Failure 500 "Failed to update issue status", st))
  /\ (status' ∈ status_enum ->
      exists issue',
        updateIssueStatus now (Some u) id (Some status') None resolutionInput st
          = (Success 200 issue', save issue' st)
        /\ findById id (save issue' st) = Some issue'
        /\ status issue' = Some status'
        /\ last (statusHistory issue')
           = Some {| se_status := Some status'; se_updatedBy := Some (user_id u);
                     se_comment :=
                       "Status changed from " +:+ JS.template (status issue)
                       +:+ " to " +:+ status';
                     se_timestamp := now |}
        /\ length (statusHistory issue') = S (length (statusHistory issue))
        /\ length (notifications issue') = S (length (notifications issue))).
Proof.
  intros Hrole Hfind. unfold updateIssueStatus. rewrite Hrole, Hfind. simpl.
  unfold valid_status. split; intros Hs.
  - by rewrite bool_decide_eq_false_2.
  - rewrite bool_decide_eq_true_2 by done.
    eexists. split; [reflexivity|].
    split. { eapply (findById_save_hydrated _ _ _ _ status'); [done| |].
             - apply findById_id in Hfind. by rewrite status_updated_id.
             - apply status_updated_status. }
    unfold status_updated.
    destruct (JS.strict_eq (Some status') "resolved"); simpl;
      rewrite last_snoc, !length_app; simpl; repeat split; lia.
Qed.

Lemma status_update_validates_the_status_witness :
  updateIssueStatus 5000 (Some Sample.officer) 1 (Some "done") None None
    Sample.one_report
  = (Failure 500 "Failed to update issue status", Sample.one_report).
Proof.
  edestruct (fun issue =>
               status_update_validates_the_status 5000 Sample.officer 1
                 Sample.one_report issue "done" None eq_refl) as [Hbad _];
    [vm_compute; reflexivity|].
  apply Hbad. apply (bool_decide_eq_false_1 ("done" ∈ status_enum)).
  vm_compute. reflexivity.
Defined.

(** ** Grouping *)

Section GroupFacts.

Context {K : Type} `{EqDecision K}.

Implicit Types (rows : list (K * list Issue)) (l : list Issue).

Lemma members_add k d rows k' :
  members (add_to_group k d rows) k'
  = members rows k' ++ (if decide (k = k') then [d] else []).
Proof.
  induction rows as [|[k0 ds] rows IH]; simpl.
  - by destruct (decide (k = k')).
  - destruct (decide (k0 = k)) as [->|Hne]; simpl.
    + destruct (decide (k = k')); [done | by rewrite app_nil_r].
    + destruct (decide (k0 = k')) as [->|?]; [|apply IH].
      destruct (decide (k = k')); [congruence | by rewrite app_nil_r].
Qed.

Lemma having_snoc (key : Issue -> K) k l d :
  having key k (l ++ [d])
  = having key k l ++ (if decide (key d = k) then [d] else []).
Proof.
  unfold having. rewrite List.filter_app. simpl.
  destruct (decide (key d = k)).
  - by rewrite bool_decide_eq_true_2.
  - by rewrite bool_decide_eq_false_2.
Qed.

Lemma members_fold (key : Issue -> K) l rows k :
  members (fold_left (fun rows d => add_to_group (key d) d rows) l rows) k
  = members rows k ++ having key k l.
Proof.
  revert rows. induction l as [|d l IH]; intros rows; simpl.
  - unfold having. simpl. by rewrite app_nil_r.
  - rewrite IH, members_add. rewrite <- app_assoc. f_equal.
    unfold having. simpl.
    destruct (decide (key d = k)).
    + by rewrite bool_decide_eq_true_2.
    + by rewrite bool_decide_eq_false_2.
Qed.

(** The row of a key holds the documents with that key, in their order. *)
Lemma members_group_by (key : Issue -> K) l k :
  members (group_by key l) k = having key k l.
Proof. unfold group_by. by rewrite members_fold. Qed.

Lemma rows_total_add k d rows :
  foldr (fun row a => (length row.2 + a)%nat) 0%nat (add_to_group k d rows)
  = S (foldr (fun row a => (length row.2 + a)%nat) 0%nat rows).
Proof.
  induction rows as [|[k0 ds] rows IH]; simpl; [done|].
  destruct (decide (k0 = k)); simpl.
  - rewrite length_app. simpl. lia.
  - rewrite IH. lia.
Qed.

(** The rows share out the documents: their sizes add up to the number
    of documents. *)
Lemma rows_total (key : Issue -> K) l :
  foldr (fun row a => (row.2 + a)%nat) 0%nat (group_count key l) = length l.
Proof.
  unfold group_count, group_by.
  assert (forall rows : list (K * list Issue),
            foldr (fun row a => (row.2 + a)%nat) 0%nat
              ((fun row => (row.1, length row.2)) <$> rows)
            = foldr (fun row a => (length row.2 + a)%nat) 0%nat rows) as Hmap
    by (induction rows as [|[??] rows IH]; [done|];
        rewrite fmap_cons; cbn [foldr]; by rewrite IH).
  etrans; [apply Hmap|].
  assert (forall rows,
            foldr (fun row a => (length row.2 + a)%nat) 0%nat
              (fold_left (fun rows d => add_to_group (key d) d rows) l rows)
            = (length l
               + foldr (fun row a => (length row.2 + a)%nat) 0%nat rows)%nat) as Hfold.
  { induction l as [|d l IH]; intros rows; simpl; [done|].
    rewrite IH, rows_total_add. lia. }
  rewrite Hfold. simpl. lia.
Qed.

(** Keys of the rows are distinct, and no row is empty. *)
Lemma rows_distinct (key : Issue -> K) l :
  NoDup ((group_by key l).*1) /\ Forall (fun row => row.2 <> []) (group_by key l).
Proof.
  unfold group_by.
  assert (forall k d rows,
            NoDup (rows.*1) /\ Forall (fun row => row.2 <> []) rows ->
            NoDup ((add_to_group k d rows).*1)
            /\ Forall (fun row => row.2 <> []) (add_to_group k d rows)
            /\ forall x, x ∈ (add_to_group k d rows).*1 -> x = k \/ x ∈ rows.*1)
    as Hadd.
  { intros k d. induction rows as [|[k0 ds] rows IH]; intros [Hnd Hne]; simpl.
    - repeat split; [apply NoDup_singleton | by repeat constructor | set_solver].
    - apply NoDup_cons in Hnd as [Hk0 Hnd]. apply Forall_cons in Hne as [Hds Hne].
      destruct (decide (k0 = k)) as [->|Hk]; simpl.
      + repeat split; [by apply NoDup_cons | | set_solver].
        apply Forall_cons. split; [|done]. simpl. by destruct ds.
      + destruct (IH (conj Hnd Hne)) as (IH1 & IH2 & IH3).
        repeat split; [| by apply Forall_cons | set_solver].
        apply NoDup_cons. split; [|done].
        intros Hin. apply IH3 in Hin as [->|Hin]; done. }
  assert (forall rows,
            NoDup (rows.*1) /\ Forall (fun row => row.2 <> []) rows ->
            NoDup ((fold_left (fun rows d => add_to_group (key d) d rows) l rows).*1)
            /\ Forall (fun row => row.2 <> [])
                 (fold_left (fun rows d => add_to_group (key d) d rows) l rows))
    as Hfold.
  { induction l as [|d l IH]; intros rows Hrows; simpl; [done|].
    apply IH. destruct (Hadd (key d) d rows Hrows) as (? & ? & _). done. }
  apply Hfold. split; constructor.
Qed.

End GroupFacts.

(** A row holds the documents of its key. *)
Lemma members_of_row {K : Type} `{EqDecision K} (rows : list (K * list Issue))
    (k : K) (ds : list Issue) :
  NoDup (rows.*1) -> (k, ds) ∈ rows -> members rows k = ds.
Proof.
  induction rows as [|[k0 ds0] rows IH]; intros Hnd Hin; [by apply elem_of_nil in Hin|].
  simpl in *. apply NoDup_cons in Hnd as [Hk0 Hnd].
  apply elem_of_cons in Hin as [[= -> ->] | Hin].
  - by rewrite decide_True.
  - rewrite decide_False; [by apply IH|].
    intros ->. apply Hk0. apply list_elem_of_fmap. by exists (k, ds).
Qed.

(** The keys of the rows are keys of documents. *)
Lemma group_by_keys {K : Type} `{EqDecision K} (key : Issue -> K)
    (l : list Issue) (k : K) :
  k ∈ (group_by key l).*1 -> exists d, d ∈ l /\ key d = k.
Proof.
  intros Hk. apply list_elem_of_fmap in Hk as ([k' ds] & -> & Hrow). simpl.
  destruct (rows_distinct key l) as [Hnd Hne].
  pose proof (members_of_row _ _ _ Hnd Hrow) as Hm.
  rewrite members_group_by in Hm.
  eapply Forall_forall in Hne; [|exact Hrow]. simpl in Hne.
  destruct ds as [|d ds]; [done|].
  assert (d ∈ having key k' l) as Hd by (rewrite Hm; left).
  unfold having in Hd. apply list_elem_of_In, filter_In in Hd as [Hin Hkey].
  exists d. split; [by apply list_elem_of_In|].
  by apply bool_decide_eq_true_1 in Hkey.
Qed.

Lemma set_property_new (acc : list (string * nat)) (k : string) (v : nat) :
  k ∉ acc.*1 -> set_property acc k v = acc ++ [(k, v)].
Proof.
  induction acc as [|[k0 v0] acc IH]; intros Hk; [done|]. simpl in *.
  apply not_elem_of_cons in Hk as [Hne Hk].
  assert (String.eqb k0 k = false) as -> by (apply String.eqb_neq; congruence).
  by rewrite IH.
Qed.

(** Where the keys of the rows are distinct as property keys and none is
    ['__proto__'], the object has one property for each row. *)
Lemma counts_object_rows (rows : list (option string * nat)) :
  NoDup (property_key <$> rows.*1) ->
  "__proto__" ∉ (property_key <$> rows.*1) ->
  counts_object rows = (fun row => (property_key row.1, row.2)) <$> rows.
Proof.
  unfold counts_object.
  assert (forall acc,
            NoDup (acc.*1 ++ (property_key <$> rows.*1)) ->
            "__proto__" ∉ (property_key <$> rows.*1) ->
            fold_left
              (fun acc cur =>
                 if String.eqb (property_key cur.1) "__proto__" then acc
                 else set_property acc (property_key cur.1) cur.2) rows acc
            = acc ++ ((fun row => (property_key row.1, row.2)) <$> rows)) as H.
  { induction rows as [|[k v] rows IH]; intros acc Hnd Hproto; simpl.
    - by rewrite app_nil_r.
    - simpl in *. apply not_elem_of_cons in Hproto as [Hk Hproto].
      assert (String.eqb (property_key k) "__proto__" = false) as ->
        by (apply String.eqb_neq; congruence).
      apply NoDup_app in Hnd as (Hacc & Hdisj & Hrows).
      apply NoDup_cons in Hrows as [Hfresh Hrows].
      rewrite set_property_new by (intros Hin; apply (Hdisj _ Hin); left).
      rewrite IH; [by rewrite <- app_assoc | | done].
      rewrite fmap_app. simpl. rewrite <- app_assoc. simpl.
      apply NoDup_app. split; [done|]. split; [|by apply NoDup_cons].
      intros x Hx Hin. by apply (Hdisj x Hx). }
  intros Hnd Hproto. by apply (H []).
Qed.

Lemma count_or_0_members (rows : list (option string * list Issue)) (s : string) :
  s <> "null" ->
  count_or_0
    ((fun row => (property_key row.1, row.2))
       <$> ((fun row => (row.1, length row.2)) <$> rows)) s
  = length (members rows (Some s)).
Proof.
  intros Hs. induction rows as [|[k0 ds] rows IH]; cbn -[String.eqb]; [done|].
  destruct k0 as [k0|]; cbn -[String.eqb].
  - destruct (decide (k0 = s)) as [->|Hne].
    + by rewrite String.eqb_refl, decide_True.
    + rewrite decide_False by congruence.
      apply String.eqb_neq in Hne. by rewrite Hne.
  - assert (String.eqb "null" s = false) as -> by (apply String.eqb_neq; congruence).
    try case_decide; done.
Qed.

(** The statuses that pass the validation of the schema are distinct as
    property keys, and none of them is ['__proto__']. *)
Lemma status_keys (keys : list (option string)) :
  NoDup keys -> Forall (fun k => valid_status k = true) keys ->
  NoDup (property_key <$> keys) /\ "__proto__" ∉ (property_key <$> keys).
Proof.
  intros Hnd Hvalid.
  assert (forall k, valid_status k = true ->
            property_key k <> "__proto__"
            /\ forall k', valid_status k' = true ->
                 property_key k = property_key k' -> k = k') as Hinj.
  { intros k Hk.
    assert (forall s, bool_decide (s ∈ status_enum) = true ->
              s <> "null" /\ s <> "__proto__") as Henum.
    { intros s Hs. apply bool_decide_eq_true_1 in Hs. unfold status_enum in Hs.
      repeat (apply elem_of_cons in Hs as [-> | Hs]; [by split|]).
      by apply elem_of_nil in Hs. }
    split.
    - destruct k as [s|]; simpl in *; [by apply Henum | done].
    - intros k' Hk' Heq. destruct k as [s|], k' as [s'|]; simpl in *;
        try congruence.
      + apply Henum in Hk as [? _]. congruence.
      + apply Henum in Hk' as [? _]. congruence. }
  split.
  - induction Hnd as [|k keys Hk Hnd IH]; [constructor|].
    apply Forall_cons in Hvalid as [Hv Hvalid]. rewrite fmap_cons.
    apply NoDup_cons. split; [|by apply IH].
    intros Hin. apply list_elem_of_fmap in Hin as (k' & Heq & Hin').
    eapply Forall_forall in Hvalid; [|exact Hin'].
    destruct (Hinj k Hv) as [_ Hi]. apply Hi in Heq; [congruence | done].
  - intros Hin. apply list_elem_of_fmap in Hin as (k & Heq & Hin).
    eapply Forall_forall in Hvalid; [|exact Hin].
    destruct (Hinj k Hvalid) as [Hne _]. congruence.
Qed.

(** ** The listings *)

#[local] Instance descending_total (key : Issue -> Z) : Total (descending key).
Proof. intros a b. unfold descending. lia. Qed.

#[local] Instance descending_trans (key : Issue -> Z) : Transitive (descending key).
Proof. intros a b c. unfold descending. lia. Qed.

#[local] Instance ascending_total (key : Issue -> Z) : Total (ascending key).
Proof. intros a b. unfold ascending. lia. Qed.

#[local] Instance ascending_trans (key : Issue -> Z) : Transitive (ascending key).
Proof. intros a b c. unfold ascending. lia. Qed.

Lemma StronglySorted_sublist {A} (R : relation A) (l k : list A) :
  l `sublist_of` k -> StronglySorted R k -> StronglySorted R l.
Proof.
  induction 1 as [|x l k Hsub IH|x l k Hsub IH]; intros Hk; [done|..].
  - apply StronglySorted_inv in Hk as [Hk Hx]. constructor; [by apply IH|].
    eapply Forall_forall. intros y Hy.
    eapply Forall_forall in Hx; [done|]. by eapply elem_of_sublist.
  - apply StronglySorted_inv in Hk as [Hk _]. by apply IH.
Qed.

Lemma sort_by_sorted (key : Issue -> Z) (desc : bool) (l : list Issue) :
  sort_by key desc l ≡ₚ l
  /\ StronglySorted (if desc then descending key else ascending key)
       (sort_by key desc l).
Proof.
  unfold sort_by.
  destruct desc;
    (split; [apply merge_sort_Permutation | apply StronglySorted_merge_sort; apply _]).
Qed.

(** X17: for a government user the full listing holds each stored issue
    exactly once, the newest first. *)
Theorem full_listing_is_complete_and_newest_first
    (user : option User) (st : Store) :
  is_government user = true ->
  exists data,
    getAllIssuesFull user st = Success 200 data
    /\ data ≡ₚ summary <$> st
    /\ length data = length st
    /\ StronglySorted (fun a b => s_date b <= s_date a) data.
Proof.
  intros Hgov. unfold getAllIssuesFull. rewrite Hgov. simpl.
  destruct (sort_by_sorted createdAt true st) as [Hperm Hsorted].
  eexists. split; [reflexivity|].
  change (List.map summary) with (fmap (M:=list) summary).
  split; [by rewrite Hperm|]. split; [by rewrite length_fmap, Hperm|].
  eapply StronglySorted_fmap; [|exact Hsorted]. done.
Qed.

Lemma full_listing_is_complete_and_newest_first_witness :
  exists data,
    getAllIssuesFull (Some Sample.officer) Sample.two_reports = Success 200 data
    /\ s_date <$> data = [2000; 1000].
Proof.
  destruct (full_listing_is_complete_and_newest_first (Some Sample.officer)
              Sample.two_reports eq_refl) as (data & H & _).
  exists data. split; [exact H|].
  vm_compute in H. injection H as <-. reflexivity.
Defined.

(** X18: where every stored status is one the schema accepts, the
    overview of a government user counts every stored issue in [total]
    and the issues of status 'pending', 'resolved' and 'in-progress'
    under [submitted], [resolved] and [in-progress]. Its recent issues
    are the ten newest, or all when there are fewer, newest first: they
    are the first ten of the collection in descending order of
    creation. *)
Theorem overview_counts_the_collection (user : option User) (st : Store) :
  is_government user = true ->
  forallb (fun d => valid_status (status d)) st = true ->
  exists ov recent older,
    getGovernmentOverview user st = Success 200 ov
    /\ ov_total ov = length st
    /\ ov_submitted ov = length (having status (Some "pending") st)
    /\ ov_resolved ov = length (having status (Some "resolved") st)
    /\ ov_in_progress ov = length (having status (Some "in-progress") st)
    /\ ov_recent ov = normalized <$> recent
    /\ recent ++ older ≡ₚ st
    /\ StronglySorted (fun a b => createdAt b <= createdAt a) (recent ++ older)
    /\ length recent = Nat.min 10 (length st).
Proof.
  intros Hgov Hvalid. unfold getGovernmentOverview. rewrite Hgov. simpl.
  destruct (sort_by_sorted createdAt true st) as [Hperm Hsorted].
  eexists _, (take 10 (sort_by createdAt true st)),
    (drop 10 (sort_by createdAt true st)).
  split; [reflexivity|]. cbn [ov_total ov_submitted ov_resolved ov_in_progress
                              ov_recent].
  assert (counts_object (group_count status st)
          = (fun row => (property_key row.1, row.2)) <$> group_count status st)
    as ->.
  { assert ((group_count status st).*1 = (group_by status st).*1) as Hkeys
      by (unfold group_count; rewrite <- list_fmap_compose; by apply list_fmap_ext).
    destruct (status_keys ((group_by status st).*1)) as [Hnd Hproto].
    - apply (rows_distinct status st).
    - apply Forall_forall. intros k Hk.
      apply group_by_keys in Hk as (d & Hd & <-).
      rewrite forallb_forall in Hvalid. apply Hvalid. by apply list_elem_of_In.
    - apply counts_object_rows; by rewrite Hkeys. }
  split.
  { rewrite <- (rows_total status st).
    generalize (group_count status st). intros rows.
    induction rows as [|[k n] rows IH]; [done|].
    rewrite fmap_cons. cbn [foldr snd]. by rewrite IH. }
  unfold group_count. rewrite !count_or_0_members by discriminate.
  rewrite !members_group_by.
  repeat split; try done.
  - by rewrite take_drop.
  - by rewrite take_drop.
  - by rewrite length_take, Hperm.
Qed.

Lemma overview_counts_the_collection_witness :
  exists ov,
    getGovernmentOverview (Some Sample.officer) Scenario.twelve_reports
    = Success 200 ov
    /\ ov_total ov = 12%nat /\ ov_submitted ov = 12%nat
    /\ r_date <$> ov_recent ov
       = [12000; 11000; 10000; 9000; 8000; 7000; 6000; 5000; 4000; 3000].
Proof.
  destruct (overview_counts_the_collection (Some Sample.officer)
              Scenario.twelve_reports eq_refl eq_refl) as (ov & _ & _ & H & _).
  exists ov. split; [exact H|].
  vm_compute in H. injection H as <-. repeat split.
Defined.

Lemma eq_clause_true (c : option string) (v s : string) :
  eq_clause c v = true -> c = Some s -> v = s.
Proof. intros H ->. simpl in H. apply String.eqb_eq in H. done. Qed.

Lemma eq_clause_path_true (c : option string) (v : option string) (s : string) :
  eq_clause_path c v = true -> c = Some s -> v = Some s.
Proof.
  intros H ->. destruct v as [t|]; [|done]. simpl in H.
  apply String.eqb_eq in H. by subst.
Qed.

(** What the pagination answers for a page and a limit that are numbers
    from 1 on, below 10^21. *)
Lemma paginate_page (ql : QueryLayer) (f : Filter) (o : Options) (st : Store)
    (pg lim : Z) :
  o_page o = JS.Int pg -> o_limit o = JS.Int lim ->
  1 <= pg < 10 ^ 21 -> 1 <= lim < 10 ^ 21 ->
  paginate ql f o st
  = {| docs :=
         hydrate
           <$> take (Z.to_nat lim)
                 (drop (Z.to_nat ((pg - 1) * lim))
                    (sort_by (sort_key ql (o_sortBy o)) (o_descending o)
                       (List.filter (matches ql f) st)));
       totalDocs := length (List.filter (matches ql f) st);
       page := JS.Int pg;
       totalPages := plugin_pages (length (List.filter (matches ql f) st)) lim;
       limit := lim |}.
Proof.
  intros Hp Hl Hpg Hlim. unfold paginate.
  rewrite Hp, Hl, plugin_limit_small, plugin_page_small by done.
  assert (lim =? 0 = false) as -> by (apply Z.eqb_neq; lia).
  reflexivity.
Qed.

(** Whatever the options: the documents of a page are stored documents
    that match the filter, as they are loaded, no more of them than the
    limit of the plugin; the total is the number of matching documents. *)
Lemma paginate_docs (ql : QueryLayer) (f : Filter) (o : Options) (st : Store) :
  (forall d, d ∈ docs (paginate ql f o st) ->
     exists raw, raw ∈ st /\ matches ql f raw = true /\ d = hydrate raw)
  /\ totalDocs (paginate ql f o st) = length (List.filter (matches ql f) st)
  /\ (length (docs (paginate ql f o st)) <= Z.to_nat (plugin_limit (o_limit o)))%nat.
Proof.
  unfold paginate.
  destruct (sort_by_sorted (sort_key ql (o_sortBy o)) (o_descending o)
              (List.filter (matches ql f) st)) as [Hperm _].
  destruct (plugin_limit (o_limit o) =? 0); cbn [docs totalDocs].
  - split; [|split; [done | simpl; lia]].
    intros d Hd. by apply elem_of_nil in Hd.
  - split; [|split; [done|]].
    + intros d Hd. apply list_elem_of_fmap in Hd as (raw & -> & Hraw).
      apply subseteq_take, subseteq_drop in Hraw. rewrite Hperm in Hraw.
      apply list_elem_of_In, filter_In in Hraw as [Hin Hm].
      exists raw. by rewrite list_elem_of_In.
    + rewrite length_map, length_take. lia.
Qed.

(** What the pages of a listing hold: [totalPages] is 1 for an empty
    listing and the total divided by the limit, rounded up, for others. *)
Lemma plugin_pages_ceil (count : nat) (lim : Z) :
  1 <= lim ->
  if Nat.eqb count 0 then plugin_pages count lim = 1
  else (plugin_pages count lim - 1) * lim < Z.of_nat count
       <= plugin_pages count lim * lim.
Proof.
  intros Hlim. unfold plugin_pages.
  destruct (Nat.eqb_spec count 0) as [->|Hc].
  - assert ((Z.of_nat 0 + lim - 1) / lim = 0) as ->
      by (apply Z.div_small; lia).
    reflexivity.
  - assert (0 < (Z.of_nat count + lim - 1) / lim) as Hpos
      by (apply Z.div_str_pos; lia).
    destruct (Z.eqb_spec ((Z.of_nat count + lim - 1) / lim) 0) as [E|_]; [lia|].
    clear Hpos. Z.div_mod_to_equations. nia.
Qed.

(** X19: the paginated listing of a government user, for a filter the
    query layer takes and a page and a limit that are numbers from 1 on
    with a product of at most 2^53. The matching issues in sort order are
    those before the page, those of the page and those after it: the page
    begins at position [(page - 1) * limit] and holds [limit] issues, or
    those that are left; the answer holds them as they are loaded. Every
    issue of the page is stored and has the status, the category, the
    priority and the reporter asked for. [totalPages] is 1 for an empty
    listing and otherwise the total divided by the limit, rounded up. *)
Theorem listing_page_holds_matching_issues
    (ql : QueryLayer) (user : option User) (q : ListQuery) (st : Store)
    (pg lim : Z) :
  is_government user = true ->
  accepted ql (build_filter q) = true ->
  o_page (build_options q) = JS.Int pg ->
  o_limit (build_options q) = JS.Int lim ->
  1 <= pg -> 1 <= lim -> pg * lim <= 2 ^ 53 ->
  exists p before raw after,
    getAllIssues ql user q st = Success 200 p
    /\ page p = JS.Int pg /\ limit p = lim
    /\ totalDocs p = length (List.filter (matches ql (build_filter q)) st)
    /\ docs p = hydrate <$> raw
    /\ before ++ raw ++ after ≡ₚ List.filter (matches ql (build_filter q)) st
    /\ StronglySorted
         (if o_descending (build_options q)
          then descending (sort_key ql (o_sortBy (build_options q)))
          else ascending (sort_key ql (o_sortBy (build_options q))))
         (before ++ raw ++ after)
    /\ length before = Nat.min (Z.to_nat ((pg - 1) * lim)) (totalDocs p)
    /\ length raw
       = Nat.min (Z.to_nat lim) (totalDocs p - Z.to_nat ((pg - 1) * lim))
    /\ (forall d, d ∈ raw ->
          d ∈ st
          /\ (forall s, keep (q_status q) = Some s -> status d = Some s)
          /\ (forall s, keep (q_category q) = Some s -> category d = s)
          /\ (forall s, keep (q_priority q) = Some s -> priority d = s)
          /\ (forall s, keep (q_reportedBy q) = Some s -> reportedBy d = s))
    /\ (if Nat.eqb (totalDocs p) 0 then totalPages p = 1
        else (totalPages p - 1) * lim < Z.of_nat (totalDocs p)
             <= totalPages p * lim).
Proof.
  intros Hgov Hacc Hp Hl Hpg Hlim Hprod.
  unfold getAllIssues. rewrite Hgov, Hacc. cbn [negb].
  assert (pg < 10 ^ 21 /\ lim < 10 ^ 21) as [Hpg' Hlim'] by nia.
  rewrite (paginate_page ql (build_filter q) (build_options q) st pg lim)
    by (done || lia).
  destruct (sort_by_sorted (sort_key ql (o_sortBy (build_options q)))
              (o_descending (build_options q))
              (List.filter (matches ql (build_filter q)) st))
    as [Hperm Hsorted].
  set (sorted := sort_by _ _ _) in *.
  exists
    {| docs := hydrate <$> take (Z.to_nat lim)
                             (drop (Z.to_nat ((pg - 1) * lim)) sorted);
       totalDocs := length (List.filter (matches ql (build_filter q)) st);
       page := JS.Int pg;
       totalPages :=
         plugin_pages (length (List.filter (matches ql (build_filter q)) st)) lim;
       limit := lim |},
    (take (Z.to_nat ((pg - 1) * lim)) sorted),
    (take (Z.to_nat lim) (drop (Z.to_nat ((pg - 1) * lim)) sorted)),
    (drop (Z.to_nat lim) (drop (Z.to_nat ((pg - 1) * lim)) sorted)).
  cbn [docs totalDocs page totalPages limit].
  rewrite !take_drop.
  split; [reflexivity|]. do 4 (split; [reflexivity|]).
  split; [exact Hperm|]. split; [exact Hsorted|].
  split; [by rewrite length_take, Hperm|].
  split; [by rewrite length_take, length_drop, Hperm|].
  split; [|by apply plugin_pages_ceil].
  intros d Hd. apply subseteq_take, subseteq_drop in Hd.
  rewrite Hperm in Hd. apply list_elem_of_In, filter_In in Hd as [Hin Hm].
  split; [by apply list_elem_of_In|].
  unfold matches, build_filter in Hm. cbn [f_status f_category f_priority
    f_reportedBy] in Hm.
  repeat (apply andb_prop in Hm as [Hm ?]).
  repeat split; intros s Hs;
    first [ by eapply eq_clause_path_true | by eapply eq_clause_true ].
Qed.

Lemma listing_page_holds_matching_issues_witness :
  exists p,
    getAllIssues Scenario.database (Some Sample.officer)
      (Sample.paged (Some "2") (Some "5")) Scenario.twelve_reports
    = Success 200 p
    /\ _id <$> docs p = [7; 6; 5; 4; 3]%nat /\ totalPages p = 3.
Proof.
  destruct (listing_page_holds_matching_issues Scenario.database
              (Some Sample.officer) (Sample.paged (Some "2") (Some "5"))
              Scenario.twelve_reports 2 5 eq_refl eq_refl eq_refl eq_refl)
    as (p & _ & _ & _ & H & _); [lia | lia | vm_compute; discriminate |].
  exists p. split; [exact H|].
  vm_compute in H. injection H as <-. split; reflexivity.
Defined.

Lemma hydrate_reportedBy (d : Issue) : reportedBy (hydrate d) = reportedBy d.
Proof. reflexivity. Qed.

(** X20: the listing of a user's own issues, for a page and a limit that
    are numbers from 1 on, holds only stored issues, as they are loaded,
    that the user has reported, of the status asked for when one is
    asked for, at most [limit] of them; a request without a user is
    answered with 500. *)
Theorem own_listing_holds_own_issues
    (ql : QueryLayer) (u : User) (q : ListQuery) (st : Store) (pg lim : Z) :
  o_page (build_options q) = JS.Int pg ->
  o_limit (build_options q) = JS.Int lim ->
  1 <= pg -> 1 <= lim ->
  getUserIssues ql None q st = Failure 500 "Failed to fetch your issues"
  /\ exists p,
       getUserIssues ql (Some u) q st = Success 200 p
       /\ (forall d, d ∈ docs p ->
             (exists raw, raw ∈ st /\ d = hydrate raw)
             /\ reportedBy d = user_id u
             /\ (forall s, keep (q_status q) = Some s -> status d = Some s))
       /\ (length (docs p) <= Z.to_nat lim)%nat
       /\ totalDocs p
          = length (List.filter
                      (fun d => String.eqb (reportedBy d) (user_id u)
                                && eq_clause_path (keep (q_status q)) (status d))
                      st).
Proof.
  intros Hp Hl Hpg Hlim. split; [done|].
  unfold getUserIssues.
  destruct (paginate_docs ql (user_filter u q) (build_options q) st)
    as (Hdocs & Htotal & Hlen).
  eexists. split; [reflexivity|]. split; [|split].
  - intros d Hd. destruct (Hdocs d Hd) as (raw & Hin & Hm & ->).
    split; [by exists raw|].
    unfold matches, user_filter in Hm. simpl in Hm.
    repeat (apply andb_prop in Hm as [Hm ?]).
    split.
    + rewrite hydrate_reportedBy. symmetry. by apply String.eqb_eq.
    + intros s Hs.
      assert (status raw = Some s) as Hraw by by eapply eq_clause_path_true.
      by rewrite (hydrate_status raw s Hraw).
  - etrans; [exact Hlen|]. rewrite Hl.
    pose proof (plugin_limit_le lim Hlim). lia.
  - rewrite Htotal. f_equal. apply filter_ext. intros d.
    unfold matches, user_filter. simpl. rewrite !andb_true_r.
    rewrite (String.eqb_sym (user_id u)). apply andb_comm.
Qed.

Lemma own_listing_holds_own_issues_witness :
  exists p,
    getUserIssues Scenario.database (Some Sample.neighbour) Sample.no_query
      Sample.two_reports
    = Success 200 p
    /\ _id <$> docs p = [2%nat].
Proof.
  destruct (own_listing_holds_own_issues Scenario.database
              Sample.neighbour Sample.no_query Sample.two_reports 1 10
              eq_refl eq_refl) as (_ & p & H & _); [lia | lia |].
  exists p. split; [exact H|].
  vm_compute in H. injection H as <-. reflexivity.
Defined.

(** ** The location parameter *)

Lemma split_on_last (sep : ascii) (cur a : string) :
  occurs sep a = false ->
  split_on sep cur a = [JS.rev_string "" cur +:+ a].
Proof.
  revert cur. induction a as [|c a IH]; intros cur Hocc.
  - simpl. by rewrite append_nil_r.
  - simpl in Hocc. apply orb_false_elim in Hocc as [Hc Ha].
    cbn [split_on]. rewrite Hc, IH by done. f_equal.
    cbn [JS.rev_string]. rewrite rev_string_acc, append_assoc. done.
Qed.

Lemma split_on_part (sep : ascii) (cur a b : string) :
  occurs sep a = false ->
  split_on sep cur (a +:+ String sep b)
  = (JS.rev_string "" cur +:+ a) :: split_on sep "" b.
Proof.
  revert cur. induction a as [|c a IH]; intros cur Hocc.
  - change ("" +:+ String sep b) with (String sep b). cbn [split_on].
    by rewrite Ascii.eqb_refl, append_nil_r.
  - simpl in Hocc. apply orb_false_elim in Hocc as [Hc Ha].
    rewrite append_cons. cbn [split_on]. rewrite Hc, IH by done. f_equal.
    cbn [JS.rev_string]. rewrite rev_string_acc, append_assoc. done.
Qed.

(** Splitting at the commas gives back the parts that were joined. *)
Lemma split_comma_join (a : string) (parts : list string) :
  occurs "," a = false -> Forall (fun p => occurs "," p = false) parts ->
  split_comma (foldl (fun s p => s +:+ "," +:+ p) a parts) = a :: parts.
Proof.
  intros Ha Hparts. unfold split_comma.
  assert (forall cur,
            split_on "," cur (foldl (fun s p => s +:+ "," +:+ p) a parts)
            = (JS.rev_string "" cur +:+ a) :: parts) as H; [|apply (H "")].
  revert a Ha. induction Hparts as [|p parts Hp _ IH]; intros a Ha cur; simpl.
  - by apply split_on_last.
  - assert (forall b, foldl (fun s p => s +:+ "," +:+ p) (a +:+ "," +:+ b) parts
                      = a +:+ String "," (foldl (fun s p => s +:+ "," +:+ p) b parts))
      as Hfold.
    { clear. induction parts as [|q parts IH]; intros b; simpl; [done|].
      rewrite <- IH. f_equal. by rewrite !append_assoc. }
    rewrite Hfold, split_on_part by done. f_equal.
    apply (IH p Hp "").
Qed.

Lemma decimal_no_comma (n : nat) : occurs "," (decimal n) = false.
Proof.
  unfold decimal. induction (Nat.to_uint n); simpl; auto.
Qed.

Lemma decimal_not_empty (n : nat) : decimal n <> "".
Proof.
  unfold decimal. pose proof (to_uint_not_Nil n).
  by destruct (Nat.to_uint n).
Qed.

(** X21: a location parameter of a longitude and a latitude, joined by a
    comma, gives the proximity clause with the radius 5000; joined by a
    further comma with the decimal numeral of a radius it gives the
    number [parseInt] reads from it: the radius itself up to 2^53, the
    nearest number in double precision beyond, and 5000 when the radius
    is 0; 5000 also when the third part is no numeral; without a comma
    there is no proximity clause. *)
Theorem proximity_radius_defaults_to_5000 (lng lat : string) :
  lng <> "" -> lat <> "" -> occurs "," lng = false -> occurs "," lat = false ->
  near_clause (Some (lng +:+ "," +:+ lat)) = Some (lng, lat, JS.Int 5000)
  /\ (forall n : nat,
        near_clause (Some (lng +:+ "," +:+ lat +:+ "," +:+ decimal n))
        = Some (lng, lat,
                if Nat.eqb n 0 then JS.Int 5000 else JS.to_number (Z.of_nat n)))
  /\ (forall n : nat,
        1 <= Z.of_nat n <= 2 ^ 53 ->
        near_clause (Some (lng +:+ "," +:+ lat +:+ "," +:+ decimal n))
        = Some (lng, lat, JS.Int (Z.of_nat n)))
  /\ (forall c rest,
        occurs "," (String c rest) = false ->
        JS.is_space c = false -> c <> "-"%char -> c <> "+"%char ->
        JS.digit_of 10 c = None ->
        near_clause (Some (lng +:+ "," +:+ lat +:+ "," +:+ String c rest))
        = Some (lng, lat, JS.Int 5000))
  /\ near_clause (Some lng) = None.
Proof.
  intros Hlng Hlat Hclng Hclat.
  assert (forall s, s <> "" -> JS.truthy (Some s) = true) as Htruthy
    by (intros s Hs; simpl; by apply negb_true_iff, String.eqb_neq).
  assert (forall s, s <> "" -> keep (Some s) = Some s) as Hkeep
    by (intros s Hs; unfold keep; by rewrite Htruthy).
  assert (forall t, lng +:+ t <> "") as Hne
    by (intros t; destruct lng; [done | by rewrite append_cons]).
  assert (forall parts, Forall (fun p => occurs "," p = false) parts ->
            split_comma (foldl (fun s p => s +:+ "," +:+ p) lng parts)
            = lng :: parts) as Hsplit
    by (intros parts; by apply split_comma_join).
  assert (forall r, lng +:+ "," +:+ lat +:+ "," +:+ r
                    = foldl (fun s p => s +:+ "," +:+ p) lng [lat; r]) as Hjoin
    by (intros r; simpl; by rewrite !append_assoc).
  assert (forall n : nat,
            near_clause (Some (lng +:+ "," +:+ lat +:+ "," +:+ decimal n))
            = Some (lng, lat,
                    if Nat.eqb n 0 then JS.Int 5000
                    else JS.to_number (Z.of_nat n))) as Hnumeral.
  { intros n. unfold near_clause. rewrite Hkeep by done.
    rewrite Hjoin, (Hsplit [lat; decimal n])
      by (repeat constructor; auto using decimal_no_comma).
    cbn [lookup list_lookup]. rewrite !Hkeep by done.
    unfold maxDistance. cbn [JS.template].
    rewrite <- (append_nil_r (decimal n)), parseInt_decimal_prefix by done.
    by rewrite maxDistance_number. }
  split; [|split; [exact Hnumeral|split; [|split]]].
  - unfold near_clause. rewrite Hkeep by done.
    change (lng +:+ "," +:+ lat)
      with (foldl (fun s p => s +:+ "," +:+ p) lng [lat]).
    rewrite (Hsplit [lat]) by (by repeat constructor). simpl.
    by rewrite !Hkeep.
  - intros n Hn. rewrite Hnumeral, to_number_small by lia.
    destruct (Nat.eqb_spec n 0); [lia | done].
  - intros c rest Hocc Hsp Hm Hp Hd. unfold near_clause.
    rewrite Hkeep by done.
    rewrite Hjoin, (Hsplit [lat; String c rest]) by (by repeat constructor).
    cbn [lookup list_lookup]. rewrite !Hkeep by done.
    unfold maxDistance. cbn [JS.template].
    by rewrite parseInt_not_a_numeral.
  - unfold near_clause. rewrite Hkeep by done.
    unfold split_comma. rewrite split_on_last by done. simpl.
    by rewrite Hkeep.
Qed.

Lemma proximity_radius_defaults_to_5000_witness :
  near_clause (Some "77.2,28.6") = Some ("77.2", "28.6", JS.Int 5000)
  /\ near_clause (Some "77.2,28.6,250") = Some ("77.2", "28.6", JS.Int 250).
Proof.
  destruct (proximity_radius_defaults_to_5000 "77.2" "28.6")
    as (H1 & _ & H2 & _); try discriminate; try reflexivity.
  split; [exact H1 | apply (H2 250%nat); lia].
Defined.

(** ** Statistics *)

Lemma sum_rows {K : Type} `{EqDecision K} {B : Type} (key : Issue -> K)
    (l : list Issue) (f : K * list Issue -> B) (size : B -> nat) :
  (forall row, size (f row) = length row.2) ->
  sum_list_with size (f <$> group_by key l) = length l.
Proof.
  intros Hsize. rewrite <- (rows_total key l). unfold group_count.
  generalize (group_by key l). intros rows.
  induction rows as [|row rows IH]; [done|].
  rewrite !fmap_cons. cbn [sum_list_with foldr]. rewrite IH, Hsize. done.
Qed.

Lemma filter_length_le {A} (f : A -> bool) (l : list A) :
  (length (List.filter f l) <= length l)%nat.
Proof.
  induction l as [|x l IH]; simpl; [done|]. destruct (f x); simpl; lia.
Qed.

(** X22: the statistics count each issue of the window once in every
    breakdown: [total] is the number of issues that match, [totalVotes]
    the sum of their votes, and the counts by status, by category, by
    priority and by department each add up to [total]; in no department
    are more issues resolved than counted. When nothing matches, the
    totals are zero. *)
Theorem statistics_share_out_the_matches
    (round2 : Q -> Q) (now : Date) (q : StatQuery) (st : Store) :
  exists s,
    getIssueStatistics round2 now q st = Success 200 s
    /\ (let found := List.filter (stat_matches (matchFilter now q)) st in
        t_total (st_total s) = length found
        /\ t_totalVotes (st_total s) = sum_of votes found
        /\ sum_list_with snd (st_byStatus s) = length found
        /\ sum_list_with c_count (st_byCategory s) = length found
        /\ sum_list_with snd (st_byPriority s) = length found
        /\ sum_list_with d_count (st_byDepartment s) = length found
        /\ Forall (fun row => (d_resolved row <= d_count row)%nat)
             (st_byDepartment s)).
Proof.
  eexists. split; [reflexivity|]. simpl.
  set (found := List.filter (stat_matches (matchFilter now q)) st).
  repeat split.
  - by destruct found.
  - by destruct found.
  - unfold group_count. by apply sum_rows.
  - rewrite merge_sort_Permutation. by apply sum_rows.
  - unfold group_count. by apply sum_rows.
  - by apply sum_rows.
  - apply Forall_fmap, Forall_forall. intros row _. simpl.
    apply filter_length_le.
Qed.

(** The window of the statistics. *)
Lemma startDate_cases (now : Date) (timeRange : string) :
  (timeRange = "7d" /\ startDate now timeRange = now - 7 * day_ms)
  \/ (timeRange = "90d" /\ startDate now timeRange = now - 90 * day_ms)
  \/ (timeRange = "1y" /\ startDate now timeRange = now - 365 * day_ms)
  \/ ((timeRange ∉ ["7d"; "90d"; "1y"])
      /\ startDate now timeRange = now - 30 * day_ms).
Proof.
  unfold startDate.
  destruct (String.eqb timeRange "7d") eqn:E7;
    [apply String.eqb_eq in E7; auto|].
  destruct (String.eqb timeRange "30d") eqn:E30.
  { apply String.eqb_eq in E30 as ->. right. right. right. split; [|done].
    apply (bool_decide_eq_false_1 ("30d" ∈ ["7d"; "90d"; "1y"])). reflexivity. }
  destruct (String.eqb timeRange "90d") eqn:E90;
    [apply String.eqb_eq in E90; auto|].
  destruct (String.eqb timeRange "1y") eqn:E1;
    [apply String.eqb_eq in E1; auto|].
  apply String.eqb_neq in E7, E90, E1. right. right. right. split; [|done].
  rewrite !not_elem_of_cons. repeat split; try done. apply not_elem_of_nil.
Qed.

(** X23: the statistics look back 7, 90 or 365 days for the time ranges
    '7d', '90d' and '1y' and 30 days for every other value and for a
    missing one; an issue created before that is in none of the
    counts, and with no department and no category asked for every issue
    created since is counted. *)
Theorem statistics_window
    (round2 : Q -> Q) (now : Date) (q : StatQuery) (st : Store) :
  let days :=
    if bool_decide (sq_timeRange q = Some "7d") then 7
    else if bool_decide (sq_timeRange q = Some "90d") then 90
    else if bool_decide (sq_timeRange q = Some "1y") then 365
    else 30 in
  let since := List.filter (fun i => now - days * 86400000 <=? createdAt i) st in
  m_createdAt_gte (matchFilter now q) = now - days * 86400000
  /\ exists s,
       getIssueStatistics round2 now q st = Success 200 s
       /\ (t_total (st_total s) <= length since)%nat
       /\ (keep (sq_department q) = None -> keep (sq_category q) = None ->
           t_total (st_total s) = length since).
Proof.
  intros days since.
  assert (m_createdAt_gte (matchFilter now q) = now - days * 86400000) as Hstart.
  { unfold matchFilter, days. simpl.
    destruct (sq_timeRange q) as [tr|]; simpl; [|reflexivity].
    destruct (startDate_cases now tr) as [[-> ->] | [[-> ->] | [[-> ->] | [Hn ->]]]];
      try reflexivity.
    rewrite !bool_decide_eq_false_2; [reflexivity|..];
      intros [= ->]; apply Hn; set_solver. }
  split; [done|].
  eexists. split; [reflexivity|]. simpl.
  assert (forall l : list Issue,
            t_total
              (default {| t_total := 0; t_totalVotes := 0; t_avgVotes := 0 |}
                 match l with
                 | [] => None
                 | _ :: _ =>
                     Some {| t_total := length l; t_totalVotes := sum_of votes l;
                             t_avgVotes := avg_of votes l |}
                 end) = length l) as -> by (by intros []).
  unfold since. split.
  - clear since. induction st as [|i st IH]; simpl; [done|].
    unfold stat_matches at 1. rewrite Hstart.
    destruct (now - days * 86400000 <=? createdAt i); simpl; [|done].
    destruct (_ && _); simpl; lia.
  - intros Hd Hc. f_equal. apply filter_ext. intros i.
    unfold stat_matches. rewrite Hstart.
    unfold matchFilter. simpl. rewrite Hd, Hc. simpl. by rewrite !andb_true_r.
Qed.

Lemma statistics_window_witness :
  exists s,
    getIssueStatistics (fun x => x) 1001000
      {| sq_timeRange := Some "week"; sq_department := None;
         sq_category := Some "" |}
      Sample.two_reports = Success 200 s
    /\ t_total (st_total s) = 2%nat.
Proof.
  destruct (statistics_window (fun x => x) 1001000
              {| sq_timeRange := Some "week"; sq_department := None;
                 sq_category := Some "" |} Sample.two_reports)
    as (_ & s & H & _ & Hall).
  exists s. split; [exact H|]. rewrite Hall; reflexivity.
Defined.

Lemma min_max_of_bounds (f : Issue -> Z) (l : list Issue) (x : Issue) :
  x ∈ l -> min_of f l <= f x <= max_of f l.
Proof.
  destruct l as [|d r]; [by intros ?%elem_of_nil|].
  assert (forall a (k : list Issue),
            foldr (fun e a => Z.min (f e) a) a k <= a
            /\ a <= foldr (fun e a => Z.max (f e) a) a k
            /\ forall y, y ∈ k ->
                 foldr (fun e a => Z.min (f e) a) a k <= f y
                 <= foldr (fun e a => Z.max (f e) a) a k) as H.
  { intros a k. induction k as [|e k (IH1 & IH2 & IH3)]; simpl.
    - split; [lia|]. split; [lia|]. by intros z ?%elem_of_nil.
    - split; [lia|]. split; [lia|].
      intros z [-> | Hz]%elem_of_cons; [lia|].
      specialize (IH3 _ Hz). lia. }
  destruct (H (f d) r) as (H1 & H2 & H3). simpl.
  intros [-> | Hx]%elem_of_cons; [lia | by apply H3].
Qed.

Lemma min_max_of_attained (f : Issue -> Z) (l : list Issue) :
  l <> [] ->
  (exists x, x ∈ l /\ f x = min_of f l) /\ (exists x, x ∈ l /\ f x = max_of f l).
Proof.
  destruct l as [|d r]; [done|]. intros _. simpl.
  assert (forall a (k : list Issue),
            (foldr (fun e a => Z.min (f e) a) a k = a
             \/ exists y, y ∈ k /\ f y = foldr (fun e a => Z.min (f e) a) a k)
            /\ (foldr (fun e a => Z.max (f e) a) a k = a
                \/ exists y, y ∈ k /\ f y = foldr (fun e a => Z.max (f e) a) a k))
    as H.
  { intros a k. induction k as [|e k [IH1 IH2]]; simpl; [by split; left|].
    split.
    - destruct (Z.min_spec (f e) (foldr (fun e a => Z.min (f e) a) a k))
        as [[_ ->] | [_ ->]]; [right; exists e; split; [left|done]|].
      destruct IH1 as [-> | (y & Hy & <-)]; [by left|].
      right. exists y. split; [by right | done].
    - destruct (Z.max_spec (f e) (foldr (fun e a => Z.max (f e) a) a k))
        as [[_ ->] | [_ ->]]; [|right; exists e; split; [left|done]].
      destruct IH2 as [-> | (y & Hy & <-)]; [by left|].
      right. exists y. split; [by right | done]. }
  destruct (H (f d) r) as [Hmin Hmax]. split.
  - destruct Hmin as [E | (y & Hy & E)].
    + exists d. split; [left | by rewrite E].
    + exists y. split; [by right | done].
  - destruct Hmax as [E | (y & Hy & E)].
    + exists d. split; [left | by rewrite E].
    + exists y. split; [by right | done].
Qed.

Lemma sum_of_bounds (f : Issue -> Z) (l : list Issue) (lo hi : Z) :
  (forall x, x ∈ l -> lo <= f x <= hi) ->
  Z.of_nat (length l) * lo <= sum_of f l <= Z.of_nat (length l) * hi.
Proof.
  induction l as [|d l IH]; intros H; simpl; [lia|].
  pose proof (H d ltac:(left)).
  assert (forall x, x ∈ l -> lo <= f x <= hi) as Hl
    by (intros x Hx; apply H; by right).
  specialize (IH Hl). unfold sum_of in *. simpl. lia.
Qed.

Lemma avg_of_between (f : Issue -> Z) (l : list Issue) :
  l <> [] ->
  (inject_Z (min_of f l) <= avg_of f l <= inject_Z (max_of f l))%Q.
Proof.
  intros Hne.
  pose proof (sum_of_bounds f l (min_of f l) (max_of f l)
                (min_max_of_bounds f l)) as Hsum.
  assert (Z.pos (Pos.of_nat (length l)) = Z.of_nat (length l)) as Hn
    by (destruct l; [done | simpl length; lia]).
  unfold avg_of, Qle. cbn [Qnum Qden inject_Z]. rewrite Hn. lia.
Qed.

(** X24: the resolution times of the statistics are taken over the
    issues of the window that are resolved and have a resolution time:
    the minimum and the maximum are the times of two such issues, the
    average lies between them, and all three are 0 when there is no such
    issue. *)
Theorem statistics_resolution_times
    (round2 : Q -> Q) (now : Date) (q : StatQuery) (st : Store) :
  exists s,
    getIssueStatistics round2 now q st = Success 200 s
    /\ (let timed :=
          List.filter
            (fun i => stat_matches (matchFilter now q) i && is_resolved i
                      && bool_decide (is_Some (actualResolutionTime i))) st in
        let rt := st_resolutionTime s in
        (inject_Z (rt_min rt) <= rt_avg rt <= inject_Z (rt_max rt))%Q
        /\ (timed = [] -> rt_min rt = 0 /\ rt_max rt = 0 /\ rt_avg rt = 0%Q)
        /\ (timed <> [] ->
            (exists i, i ∈ timed /\ actualResolutionTime i = Some (rt_min rt))
            /\ (exists i, i ∈ timed /\ actualResolutionTime i = Some (rt_max rt)))).
Proof.
  eexists. split; [reflexivity|]. simpl.
  set (m := matchFilter now q).
  assert (List.filter
            (fun i => is_resolved i && bool_decide (is_Some (actualResolutionTime i)))
            (List.filter (stat_matches m) st)
          = List.filter
              (fun i => stat_matches m i && is_resolved i
                        && bool_decide (is_Some (actualResolutionTime i))) st) as ->.
  { induction st as [|i st IH]; simpl; [done|].
    destruct (stat_matches m i); simpl; [|done]. by rewrite IH. }
  set (timed := List.filter _ st).
  set (time := fun i => default 0 (actualResolutionTime i)).
  assert (forall i, i ∈ timed -> actualResolutionTime i = Some (time i)) as Htime.
  { intros i Hi. apply list_elem_of_In, filter_In in Hi as [_ Hi].
    apply andb_prop in Hi as [_ Hi]. apply bool_decide_eq_true_1 in Hi as [t Ht].
    unfold time. by rewrite Ht. }
  assert (match timed with
          | [] => None
          | _ :: _ =>
              Some {| rt_avg := avg_of time timed; rt_min := min_of time timed;
                      rt_max := max_of time timed |}
          end
          = if bool_decide (timed = []) then None
            else Some {| rt_avg := avg_of time timed; rt_min := min_of time timed;
                         rt_max := max_of time timed |}) as ->
    by (by destruct timed).
  case_bool_decide as Hempty; simpl.
  - split; [unfold Qle; simpl; lia|]. split; [done|]. by intros ?.
  - split; [by apply avg_of_between|]. split; [done|]. intros _.
    destruct (min_max_of_attained time timed Hempty)
      as [(x & Hx & Hmin) (y & Hy & Hmax)].
    split; [exists x | exists y]; (split; [done|]);
      rewrite Htime by done; by f_equal.
Qed.

Lemma statistics_resolution_times_witness :
  exists s,
    getIssueStatistics (fun x => x) 9002000
      {| sq_timeRange := None; sq_department := None; sq_category := None |}
      Scenario.resolved_report = Success 200 s
    /\ rt_min (st_resolutionTime s) = 3 /\ rt_max (st_resolutionTime s) = 3.
Proof.
  destruct (statistics_resolution_times (fun x => x) 9002000
              {| sq_timeRange := None; sq_department := None; sq_category := None |}
              Scenario.resolved_report) as (s & H & _).
  exists s. split; [exact H|].
  vm_compute in H. injection H as <-. split; reflexivity.
Defined.

(** ** The chat *)

Lemma chat_issue_unmerged (id : IssueId) (st : Store) (issue : Issue) :
  findById id st = Some issue -> mergedInto issue = None ->
  chat_issue id st = Some (Some issue).
Proof. intros H Hm. unfold chat_issue. by rewrite H, Hm. Qed.

Lemma chat_issue_merged (id canonical : IssueId) (st : Store) (dup : Issue) :
  findById id st = Some dup -> mergedInto dup = Some canonical ->
  chat_issue id st = Some (findById canonical st).
Proof. intros H Hm. unfold chat_issue. by rewrite H, Hm. Qed.

(** X25: a message that is missing, empty or of white space only is
    answered with 400 and not stored, whoever posts it and on whichever
    issue. *)
Theorem blank_message_is_rejected
    (now : Date) (user : option User) (id : IssueId) (message : option string)
    (st : Store) (chat : Chat) :
  JS.trim (default "" message) = "" ->
  postMessage now user id message st chat
  = (Failure 400 "Message required", chat).
Proof.
  intros Hblank. unfold postMessage. rewrite Hblank. simpl.
  by rewrite orb_true_r.
Qed.

Lemma blank_message_is_rejected_witness :
  postMessage 3000 (Some Sample.citizen) 1 (Some "   ") Sample.one_report []
  = (Failure 400 "Message required", []).
Proof. apply blank_message_is_rejected. reflexivity. Defined.

(** A message of no-break spaces is blank, and a message keeps none of
    them at its ends. *)
Example no_break_space_message :
  postMessage 3000 (Some Sample.citizen) 1 (Some (String "160" (String "160" "")))
    Sample.one_report []
  = (Failure 400 "Message required", [])
  /\ cm_message
       <$> (postMessage 3000 (Some Sample.citizen) 1
              (Some (String "160" (String "H" (String "i" (String "160" "")))))
              Sample.one_report []).2
     = ["Hi"].
Proof. split; reflexivity. Qed.

(** X26: every user, whatever the role and whether the reporter or not,
    can post on a stored issue: a message that [trim] does not leave
    empty is answered with 201 and appended to the chat, trimmed, under
    the issue, or under the issue it has been merged into, with the user
    as author; the messages posted before stay as they are. What [trim]
    takes off is the white space at both ends, the no-break space
    included; the messages are those of characters below U+0100. *)
Theorem anyone_can_post
    (now : Date) (u : User) (id : IssueId) (message : string)
    (st : Store) (chat : Chat) (issue : Issue) :
  JS.trim message <> "" ->
  chat_issue id st = Some (Some issue) ->
  exists m,
    postMessage now (Some u) id (Some message) st chat = (Success 201 m, chat ++ [m])
    /\ cm_issue m = _id issue
    /\ cm_author m = user_id u
    /\ cm_message m = JS.trim message
    /\ cm_createdAt m = now
    /\ Forall (fun old => cm_id old <> cm_id m) chat.
Proof.
  intros Hmsg Hissue. unfold postMessage. simpl.
  assert (message <> "") as Hne by (intros ->; by apply Hmsg).
  apply String.eqb_neq in Hmsg, Hne. rewrite Hmsg, Hne, Hissue. simpl.
  eexists. split; [reflexivity|]. simpl. repeat split.
  apply Forall_forall. intros old Hold. unfold fresh_message_id.
  assert (cm_id old <= fold_right Nat.max 0 (List.map cm_id chat))%nat; [|lia].
  clear -Hold. induction chat as [|x chat IH]; [by apply elem_of_nil in Hold|].
  simpl. apply elem_of_cons in Hold as [-> | Hold]; [lia|].
  specialize (IH Hold). lia.
Qed.

Lemma anyone_can_post_witness :
  exists m,
    postMessage 4000 (Some Sample.neighbour) 2 (Some " Seen it too ")
      Sample.merged_reports [] = (Success 201 m, [m])
    /\ cm_issue m = 1%nat /\ cm_message m = "Seen it too".
Proof.
  edestruct (fun issue =>
               anyone_can_post 4000 Sample.neighbour 2 " Seen it too "
                 Sample.merged_reports [] issue)
    as (m & H & Hi & _ & Hm & _).
  - vm_compute. discriminate.
  - vm_compute. reflexivity.
  - exists m. split; [exact H|]. split; [exact Hi | exact Hm].
Defined.

(** X27: the chat of a merged report is the chat of the issue it has
    been merged into: when that issue is stored and is not itself merged,
    reading the messages under either identifier gives the same answer,
    and posting under either stores the same message. *)
Theorem merged_chat_is_canonical_chat
    (now : Date) (user : option User) (dupId canonical : IssueId)
    (pg lim message : option string) (st : Store) (chat : Chat)
    (dup root : Issue) :
  findById dupId st = Some dup ->
  mergedInto dup = Some canonical ->
  findById canonical st = Some root ->
  mergedInto root = None ->
  getMessages dupId pg lim st chat = getMessages canonical pg lim st chat
  /\ postMessage now user dupId message st chat
     = postMessage now user canonical message st chat.
Proof.
  intros Hdup Hm Hroot Hr.
  unfold getMessages, postMessage.
  by rewrite (chat_issue_merged _ _ _ _ Hdup Hm), Hroot,
       (chat_issue_unmerged _ _ _ Hroot Hr).
Qed.

Lemma merged_chat_is_canonical_chat_witness :
  getMessages 2 None None Sample.merged_reports Scenario.talk
  = getMessages 1 None None Sample.merged_reports Scenario.talk.
Proof.
  edestruct (fun dup root =>
               merged_chat_is_canonical_chat 0 None 2 1 None None None
                 Sample.merged_reports Scenario.talk dup root) as [H _].
  - vm_compute. reflexivity.
  - reflexivity.
  - vm_compute. reflexivity.
  - reflexivity.
  - exact H.
Defined.

(** The chat of an unknown issue is answered with 404, and the chat
    of a merged report whose canonical issue is not stored with 500; in
    both cases nothing is posted. *)
Theorem chat_of_missing_issue
    (now : Date) (u : User) (id : IssueId) (pg lim : option string)
    (message : string) (st : Store) (chat : Chat) :
  JS.trim message <> "" ->
  (findById id st = None ->
     getMessages id pg lim st chat = Some (Failure 404 "Issue not found")
     /\ postMessage now (Some u) id (Some message) st chat
        = (Failure 404 "Issue not found", chat))
  /\ (forall dup canonical,
        findById id st = Some dup -> mergedInto dup = Some canonical ->
        findById canonical st = None ->
        getMessages id pg lim st chat = Some (Failure 500 "Failed to fetch messages")
        /\ postMessage now (Some u) id (Some message) st chat
           = (Failure 500 "Failed to post message", chat)).
Proof.
  intros Hmsg.
  assert (message <> "") as Hne by (intros ->; by apply Hmsg).
  apply String.eqb_neq in Hmsg, Hne.
  unfold getMessages, postMessage, chat_issue. simpl. rewrite Hmsg, Hne. simpl.
  split.
  - by intros ->.
  - intros dup canonical -> -> ->. done.
Qed.

Lemma chat_of_missing_issue_witness :
  getMessages 9 None None Sample.one_report []
  = Some (Failure 404 "Issue not found").
Proof.
  edestruct (chat_of_missing_issue 0 Sample.citizen 9 None None "Hello"
               Sample.one_report []) as [H _].
  - vm_compute. discriminate.
  - apply H. vm_compute. reflexivity.
Defined.

#[local] Instance newer_first_total : Total newer_first.
Proof. intros a b. unfold newer_first. lia. Qed.

#[local] Instance newer_first_trans : Transitive newer_first.
Proof. intros a b c. unfold newer_first. lia. Qed.

(** X29: a page of the chat of a stored issue, for a page and a limit
    that are numbers from 1 on (1 and 20 when absent): its messages are
    messages of the issue, or of the issue it has been merged into, in
    the order they were posted; it holds [limit] messages or those that
    are left; the messages of earlier pages are at least as new and those
    of later pages at least as old as every message on it. *)
Theorem chat_page_is_oldest_to_newest
    (id : IssueId) (pg lim : option string) (st : Store) (chat : Chat)
    (issue : Issue) (p l : Z) :
  chat_issue id st = Some (Some issue) ->
  JS.parseInt_value (JS.with_default 1 pg) = JS.Int p ->
  JS.parseInt_value (JS.with_default 20 lim) = JS.Int l ->
  1 <= p -> 1 <= l ->
  exists page newer older,
    getMessages id pg lim st chat = Some (Success 200 page)
    /\ (forall m, m ∈ cp_data page -> m ∈ chat /\ cm_issue m = _id issue)
    /\ StronglySorted (fun a b => cm_createdAt a <= cm_createdAt b) (cp_data page)
    /\ cp_total page
       = length (List.filter (fun m => Nat.eqb (cm_issue m) (_id issue)) chat)
    /\ length (cp_data page)
       = Nat.min (Z.to_nat l) (cp_total page - Z.to_nat ((p - 1) * l))
    /\ (cp_totalPages page - 1) * l < Z.of_nat (cp_total page) <= cp_totalPages page * l
    /\ newer ++ reverse (cp_data page) ++ older
       ≡ₚ List.filter (fun m => Nat.eqb (cm_issue m) (_id issue)) chat
    /\ length newer = Nat.min (Z.to_nat ((p - 1) * l)) (cp_total page)
    /\ (forall x m, x ∈ newer -> m ∈ cp_data page -> cm_createdAt m <= cm_createdAt x)
    /\ (forall x m, x ∈ older -> m ∈ cp_data page -> cm_createdAt x <= cm_createdAt m).
Proof.
  intros Hissue Hp Hl Hp1 Hl1. unfold getMessages. rewrite Hissue, Hp, Hl.
  assert ((1 <=? p) && (1 <=? l) = true) as ->
    by (apply andb_true_intro; split; by apply Z.leb_le).
  set (mine := List.filter (fun m => Nat.eqb (cm_issue m) (_id issue)) chat).
  set (sorted := merge_sort newer_first mine).
  set (skip := Z.to_nat ((p - 1) * l)).
  assert (sorted ≡ₚ mine) as Hperm by apply merge_sort_Permutation.
  assert (StronglySorted newer_first sorted) as Hsorted
    by (apply StronglySorted_merge_sort; apply _).
  assert (sorted = take skip sorted ++ take (Z.to_nat l) (drop skip sorted)
                   ++ drop (Z.to_nat l) (drop skip sorted)) as Hparts
    by (by rewrite !take_drop).
  exists {| cp_data := reverse (take (Z.to_nat l) (drop skip sorted));
            cp_total := length mine; cp_page := p; cp_limit := l;
            cp_totalPages := (Z.of_nat (length mine) + l - 1) / l |},
         (take skip sorted), (drop (Z.to_nat l) (drop skip sorted)).
  split; [reflexivity|]. simpl.
  rewrite Hparts in Hsorted.
  apply StronglySorted_app in Hsorted as (H12 & _ & Hsorted).
  apply StronglySorted_app in Hsorted as (H23 & Hseg & _).
  repeat split.
  - apply elem_of_reverse, subseteq_take, subseteq_drop in H.
    rewrite Hperm in H. apply list_elem_of_In, filter_In in H as [H _].
    by apply list_elem_of_In.
  - apply elem_of_reverse, subseteq_take, subseteq_drop in H.
    rewrite Hperm in H. apply list_elem_of_In, filter_In in H as [_ H].
    by apply Nat.eqb_eq.
  - assert (Transitive (flip newer_first)) as Hflip
      by (intros a b c; unfold flip, newer_first; lia).
    apply (@Sorted_StronglySorted _ (flip newer_first) Hflip).
    apply Sorted_reverse. by apply StronglySorted_Sorted.
  - by rewrite length_reverse, length_take, length_drop, Hperm.
  - Z.div_mod_to_equations. nia.
  - Z.div_mod_to_equations. nia.
  - by rewrite reverse_involutive, <- Hparts.
  - by rewrite length_take, Hperm.
  - intros x m Hx Hm. rewrite elem_of_reverse in Hm.
    apply (H12 x m Hx). rewrite elem_of_app. left. exact Hm.
  - intros x m Hx Hm. rewrite elem_of_reverse in Hm. by apply (H23 m x).
Qed.

Lemma chat_page_is_oldest_to_newest_witness :
  exists page,
    getMessages 2 (Some "1") (Some "2") Sample.merged_reports Scenario.talk
      = Some (Success 200 page)
    /\ cm_message <$> cp_data page = ["Seen it too"; "Crew on the way"]
    /\ cp_total page = 3%nat /\ cp_totalPages page = 2.
Proof.
  edestruct (fun issue =>
               chat_page_is_oldest_to_newest 2 (Some "1") (Some "2")
                 Sample.merged_reports Scenario.talk issue 1 2)
    as (page & _ & _ & H & _); [vm_compute; reflexivity | reflexivity
                               | reflexivity | lia | lia |].
  exists page. split; [exact H|].
  vm_compute in H. injection H as <-. repeat split; reflexivity.
Defined.

(** ** Trimming *)

Lemma rev_string_app (a b : string) :
  JS.rev_string "" (a +:+ b) = JS.rev_string "" b +:+ JS.rev_string "" a.
Proof.
  induction a as [|c a IH].
  - change ("" +:+ b) with b. simpl. by rewrite append_nil_r.
  - rewrite append_cons. cbn [JS.rev_string].
    rewrite (rev_string_acc (String c "") (a +:+ b)), IH, append_assoc.
    by rewrite (rev_string_acc (String c "") a).
Qed.

Lemma rev_string_involutive (s : string) :
  JS.rev_string "" (JS.rev_string "" s) = s.
Proof.
  induction s as [|c s IH]; [done|].
  cbn [JS.rev_string].
  rewrite (rev_string_acc (String c "") s), rev_string_app, IH. done.
Qed.

Lemma skip_spaces_length (s : string) :
  (String.length (JS.skip_spaces s) <= String.length s)%nat.
Proof.
  induction s as [|c s IH]; [done|]. simpl.
  destruct (JS.is_space c); simpl; lia.
Qed.

Lemma skip_spaces_idempotent (s : string) :
  JS.skip_spaces (JS.skip_spaces s) = JS.skip_spaces s.
Proof.
  induction s as [|c s IH]; [done|]. simpl.
  destruct (JS.is_space c) eqn:E; [done|]. simpl. by rewrite E.
Qed.

(** A string that [skip_spaces] leaves alone is empty or begins with a
    character that is no white space. *)
Lemma skip_spaces_fixed (s : string) :
  JS.skip_spaces s = s ->
  s = "" \/ exists c r, s = String c r /\ JS.is_space c = false.
Proof.
  destruct s as [|c r]; [by left|]. simpl.
  destruct (JS.is_space c) eqn:E; [|right; eauto].
  intros H. pose proof (skip_spaces_length r) as Hlen.
  rewrite H in Hlen. simpl in Hlen. lia.
Qed.

Lemma skip_spaces_snoc (t : string) (c : ascii) :
  JS.is_space c = false ->
  exists t', JS.skip_spaces (t +:+ String c "") = t' +:+ String c "".
Proof.
  intros Hc. induction t as [|a t [t' IH]].
  - exists "". change ("" +:+ String c "") with (String c ""). simpl. by rewrite Hc.
  - rewrite append_cons. simpl. destruct (JS.is_space a).
    + by exists t'.
    + exists (String a t). by rewrite append_cons.
Qed.

Lemma trim_starts_clean (s : string) :
  JS.skip_spaces (JS.trim s) = JS.trim s.
Proof.
  unfold JS.trim.
  destruct (skip_spaces_fixed (JS.skip_spaces s) (skip_spaces_idempotent s))
    as [-> | (c & r & -> & Hc)]; [done|].
  cbn [JS.rev_string]. rewrite (rev_string_acc (String c "")).
  destruct (skip_spaces_snoc (JS.rev_string "" r) c Hc) as [t' ->].
  rewrite rev_string_app. simpl. by rewrite Hc.
Qed.

(** Trimming twice is trimming once. *)
Lemma trim_idempotent (s : string) : JS.trim (JS.trim s) = JS.trim s.
Proof.
  unfold JS.trim at 1. rewrite trim_starts_clean.
  unfold JS.trim. by rewrite rev_string_involutive, skip_spaces_idempotent.
Qed.

(** ** The route of a new report *)

Lemma validateIssue_passed (title description category priority : option string) :
  validateIssue title description category priority = [] ->
  (exists t, title = Some t
             /\ (3 <= String.length (JS.trim t) <= 100)%nat)
  /\ (exists d, description = Some d
                /\ (10 <= String.length (JS.trim d) <= 1000)%nat)
  /\ (exists c, category = Some c /\ c ∈ category_enum)
  /\ default "low" priority ∈ priority_enum.
Proof.
  unfold validateIssue. intros H.
  apply app_eq_nil in H as [Ht H]. apply app_eq_nil in H as [Hd H].
  apply app_eq_nil in H as [Hc Hp].
  destruct (_ && _) eqn:Et in Ht; [|discriminate].
  destruct (_ && _) eqn:Ed in Hd; [|discriminate].
  case_bool_decide as Ec; [|discriminate].
  apply andb_prop in Et as [Et1 Et2]. apply andb_prop in Ed as [Ed1 Ed2].
  apply Nat.leb_le in Et1, Et2, Ed1, Ed2.
  repeat split.
  - destruct title as [t|]; [by exists t | simpl in Et1; lia].
  - destruct description as [d|]; [by exists d | simpl in Ed1; lia].
  - destruct category as [c|]; [by exists c|]. simpl in Ec.
    exfalso. revert Ec. apply (bool_decide_eq_false_1 ("" ∈ category_enum)).
    reflexivity.
  - destruct priority as [p|]; simpl.
    + by case_bool_decide.
    + apply (bool_decide_unpack _). reflexivity.
Qed.

(** X30: on the route a draft that fails a check of [validateIssue] is
    answered with 400 and not stored. A draft that passes them, with an
    authenticated user and a location that gives two coordinates in
    range, is always stored: the schema finds nothing to reject. The
    stored title is the trimmed title, of 3 to 100 characters, the stored
    description the trimmed description, of 10 to 1000 characters. The
    drafts are those of characters below U+0100: the length of a string
    is its number of characters, and the white space that is trimmed
    includes the no-break space. *)
Theorem route_validation_suffices
    (JSON_parse : string -> option LocationData) (now : Date)
    (req : CreateRequest) (st : Store) :
  (validateIssue (rq_title req) (rq_description req) (rq_category req)
     (rq_priority req) <> [] ->
   createIssue JSON_parse now (routed req) st
   = (Failure 400 "Validation errors", st))
  /\ (forall u d lng lat,
        validateIssue (rq_title req) (rq_description req) (rq_category req)
          (rq_priority req) = [] ->
        rq_user req = Some u -> user_id u <> "" ->
        parse_location JSON_parse (rq_location req) = Success 200 (Some d) ->
        ld_coordinates
          (derive_coordinates (raw_or (rq_latitude req) (rq_lat req))
             (raw_or (rq_longitude req) (raw_or (rq_lng req) (rq_long req))) d)
        = Some [lng; lat] ->
        geo_valid [lng; lat] = true ->
        exists issue,
          createIssue JSON_parse now (routed req) st
            = (Success 201 issue, st ++ [issue])
          /\ Some (title issue) = JS.trim <$> rq_title req
          /\ Some (description issue) = JS.trim <$> rq_description req
          /\ (3 <= String.length (title issue) <= 100)%nat
          /\ (10 <= String.length (description issue) <= 1000)%nat
          /\ category issue ∈ category_enum
          /\ priority issue ∈ priority_enum).
Proof.
  split.
  - intros Hbad. unfold createIssue. simpl.
    by rewrite bool_decide_eq_false_2.
  - intros u d lng lat Hok Huser Hid Hparse Hcoord Hgeo.
    destruct (validateIssue_passed _ _ _ _ Hok)
      as ((t & Ht & Hlt) & (de & Hd & Hld) & (c & Hc & Hcat) & Hprio).
    assert (forall s n, (n <= String.length s)%nat -> (1 <= n)%nat -> s <> "") as Hlen
      by (intros s n H1 H2 ->; simpl in H1; lia).
    assert (well_formed_draft (routed req) u) as Hwf.
    { unfold well_formed_draft, routed. simpl. rewrite Ht, Hd, Hc. simpl.
      rewrite !trim_idempotent. repeat split; try done.
      - apply (Hlen _ 3%nat); lia.
      - apply (Hlen _ 10%nat); lia. }
    assert (is_Some (rq_category (routed req))) as Hsome
      by (simpl; rewrite Hc; by eexists).
    pose proof (well_formed_draft_valid (routed req) u Hwf Hsome) as Hvalid.
    unfold createIssue. simpl in *.
    rewrite Hok, Hparse, Huser. simpl.
    destruct (derive_coordinates _ _ d) as [co ad ci sa pi la ln]. simpl in *.
    subst co. rewrite Hvalid, Hgeo. simpl.
    eexists. split; [reflexivity|]. simpl. rewrite Ht, Hd, Hc. simpl.
    rewrite !trim_idempotent. repeat split; try done; lia.
Qed.

Lemma route_validation_suffices_witness :
  exists issue,
    createIssue Sample.no_json 1000
      (routed
         {| rq_user := Some Sample.citizen; rq_validationErrors := [];
            rq_title := Some "  Pothole  ";
            rq_description := Some "Deep pothole at the crossing";
            rq_category := Some "Roads & Infrastructure";
            rq_location := LocObject Sample.crossing;
            rq_priority := None; rq_images := [];
            rq_latitude := Falsy; rq_lat := Falsy; rq_longitude := Falsy;
            rq_lng := Falsy; rq_long := Falsy |}) []
      = (Success 201 issue, [issue])
    /\ Some (title issue) = Some "Pothole".
Proof.
  edestruct (route_validation_suffices Sample.no_json 1000
               {| rq_user := Some Sample.citizen; rq_validationErrors := [];
                  rq_title := Some "  Pothole  ";
                  rq_description := Some "Deep pothole at the crossing";
                  rq_category := Some "Roads & Infrastructure";
                  rq_location := LocObject Sample.crossing;
                  rq_priority := None; rq_images := [];
                  rq_latitude := Falsy; rq_lat := Falsy; rq_longitude := Falsy;
                  rq_lng := Falsy; rq_long := Falsy |} []) as [_ H].
  edestruct (H Sample.citizen Sample.crossing (77209 # 1000) (28614 # 1000))
    as (issue & Hcreate & Htitle & _);
    [reflexivity | reflexivity | discriminate | reflexivity | reflexivity
    | reflexivity |].
  exists issue. split; [exact Hcreate | exact Htitle].
Defined.

(** The checks count characters: a title of two letters with an accent
    is too short, and one of sixty such letters passes. *)
Example validateIssue_counts_characters :
  validateIssue (Some (String "233" (String "233" "")))
    (Some "Deep pothole at the crossing") (Some "Other") None
  = ["Title must be between 3 and 100 characters"]
  /\ validateIssue
       (Some (String "160" (String "233" (String "233" (String "160" "")))))
       (Some "Deep pothole at the crossing") (Some "Other") None
     = ["Title must be between 3 and 100 characters"]
  /\ validateIssue (Some (string_of_list_ascii (repeat "233"%char 60)))
       (Some "Deep pothole at the crossing") (Some "Other") None
     = [].
Proof. repeat split. Qed.

Lemma startsWith_prefix (p s : string) :
  startsWith p s = true <-> exists r, s = p +:+ r.
Proof.
  revert s. induction p as [|a p IH]; intros s; simpl.
  - split; [by exists s | done].
  - destruct s as [|b s]; [split; [done | by intros [r ?]]|].
    rewrite andb_true_iff, IH. split.
    + intros [->%Ascii.eqb_eq [r ->]]. by exists r.
    + intros [r Hr]. rewrite append_cons in Hr. injection Hr as Ha Hs. subst b s.
      split; [apply Ascii.eqb_refl | by exists r].
Qed.

(** X14: the upload accepts a file only as an image in the field
    'images' or as audio in the field 'voiceNote', and an accepted file
    is kept in the directory of its kind: an image in 'uploads/images'
    and a voice note in 'uploads/audio'. *)
Theorem accepted_upload_goes_to_its_directory (fieldname mimetype : string) :
  fileFilter fieldname mimetype = true ->
  (fieldname = "images" /\ (exists sub, mimetype = "image/" +:+ sub)
   /\ destination fieldname = "uploads/images")
  \/ (fieldname = "voiceNote" /\ (exists sub, mimetype = "audio/" +:+ sub)
      /\ destination fieldname = "uploads/audio").
Proof.
  unfold fileFilter, destination. intros H.
  destruct (String.eqb fieldname "images") eqn:Ei.
  - apply String.eqb_eq in Ei. cbn [andb] in H.
    destruct (startsWith "image/" mimetype) eqn:Es.
    + left. by rewrite <- startsWith_prefix.
    + subst fieldname. discriminate H.
  - cbn [andb] in H.
    destruct (String.eqb fieldname "voiceNote") eqn:Ev; [|discriminate H].
    apply String.eqb_eq in Ev. cbn [andb] in H.
    destruct (startsWith "audio/" mimetype) eqn:Es; [|discriminate H].
    right. by rewrite <- startsWith_prefix.
Qed.

Lemma accepted_upload_goes_to_its_directory_witness :
  destination "voiceNote" = "uploads/audio"
  /\ fileFilter "voiceNote" "image/png" = false.
Proof.
  destruct (accepted_upload_goes_to_its_directory "voiceNote" "audio/ogg" eq_refl)
    as [(H & _) | (_ & _ & H)]; [discriminate H|].
  split; [exact H | reflexivity].
Defined.

(** ** The hook on [save] *)

(** X28: the hook on [save] leaves the reporters of a document that is
    not new as they are. On a new document it keeps the reporters there
    are, in their order, adds the reporting user at the end unless the
    user is among them, and adds nobody twice: reporters that were
    distinct stay distinct, the reporting user is among them afterwards,
    and running the hook again changes nothing. *)
Theorem pre_save_adds_the_reporter_once
    (reportedBy : UserId) (reporters : list UserId) :
  pre_save false reportedBy reporters = reporters
  /\ reporters `prefix_of` pre_save true reportedBy reporters
  /\ (reportedBy <> "" -> reportedBy ∈ pre_save true reportedBy reporters)
  /\ (NoDup reporters -> NoDup (pre_save true reportedBy reporters))
  /\ (forall x, x ∈ pre_save true reportedBy reporters ->
        x ∈ reporters \/ x = reportedBy)
  /\ pre_save true reportedBy (pre_save true reportedBy reporters)
     = pre_save true reportedBy reporters.
Proof.
  unfold pre_save, pre_save_reporters.
  destruct (String.eqb reportedBy "") eqn:E; simpl.
  - apply String.eqb_eq in E. repeat split; auto. congruence.
  - case_bool_decide as Hin; simpl.
    + repeat split; auto. by rewrite bool_decide_eq_true_2.
    + repeat split.
      * by apply prefix_app_r.
      * intros _. apply elem_of_app. right. by apply list_elem_of_singleton.
      * intros Hnd. apply NoDup_app. split; [done|].
        split; [|apply NoDup_singleton].
        by intros x Hx ->%list_elem_of_singleton.
      * intros x [? | ->%list_elem_of_singleton]%elem_of_app; auto.
      * rewrite bool_decide_eq_true_2; [done|].
        apply elem_of_app. right. by apply list_elem_of_singleton.
Qed.

Lemma pre_save_adds_the_reporter_once_witness :
  pre_save true "u2" ["u1"] = ["u1"; "u2"]
  /\ "u2" ∈ pre_save true "u2" ["u1"]
  /\ NoDup (pre_save true "u2" ["u1"]).
Proof.
  destruct (pre_save_adds_the_reporter_once "u2" ["u1"])
    as (_ & _ & Hin & Hnd & _).
  split; [reflexivity|]. split; [apply Hin; discriminate|].
  apply Hnd. apply NoDup_singleton.
Defined.
